(** * schedulesurf: the scheduling form and the call-status synchronizer

  A shallow embedding of the front end of the meeting scheduler:

  - [frontend/src/components/ScheduleMeeting.js]: phone validation, slot
    selection, form validation and submission;
  - [frontend/src/utils/mcpUtils.js]: normalisation of the payloads of the
    optional push source ([window.blandmcp]);
  - the [useCallStatus] hook and the [CallStatus] component: acquisition of
    the call snapshot by subscription or by polling.

  JavaScript strings are [string]s (code units below 256), JavaScript
  values are the inductive [JS.value], React state is a record that the
  handlers transform, and the browser's scheduler (timers, promises that
  settle, callbacks of the push source) is a labelled step relation. *)

From Stdlib Require Import String Ascii List ZArith Lia Bool Permutation.
From Stdlib Require Import DecimalString.
From stdpp Require Import base gmap strings list.

Import ListNotations.
Open Scope string_scope.
Open Scope list_scope.
Open Scope nat_scope.

Set Warnings "-register-all".

(* ===================================================================== *)
(** * JavaScript strings *)
(* ===================================================================== *)

Module Str.

Definition code (c : ascii) : nat := nat_of_ascii c.

Definition chars (s : string) : list ascii := list_ascii_of_string s.
Definition of_chars (l : list ascii) : string := string_of_list_ascii l.

(** [String.prototype.toLowerCase] on code units below 256: [A]-[Z] and
    the Latin-1 capitals (all of 192..222 but the multiplication sign). *)
Definition lower_char (c : ascii) : ascii :=
  let n := code c in
  if (65 <=? n) && (n <=? 90) then ascii_of_nat (n + 32)
  else if (192 <=? n) && (n <=? 222) && negb (n =? 215) then ascii_of_nat (n + 32)
  else c.

Definition toLowerCase (s : string) : string :=
  of_chars (map lower_char (chars s)).

(** White space and line terminators removed by [String.prototype.trim]
    (tab, line feed, vertical tab, form feed, carriage return, space,
    no-break space). *)
Definition is_space (c : ascii) : bool :=
  let n := code c in
  ((9 <=? n) && (n <=? 13)) || (n =? 32) || (n =? 160).

Fixpoint trim_start (l : list ascii) : list ascii :=
  match l with
  | c :: l' => if is_space c then trim_start l' else l
  | [] => []
  end.

Definition trim_chars (l : list ascii) : list ascii :=
  rev (trim_start (rev (trim_start l))).

Definition trim (s : string) : string := of_chars (trim_chars (chars s)).

(** [s.split(sep)] for a one-character separator: the pieces between the
    occurrences of [sep]; a string without [sep] is its own single piece. *)
Fixpoint split_chars (sep : ascii) (l : list ascii) : list (list ascii) :=
  match l with
  | [] => [[]]
  | c :: l' =>
      if Ascii.eqb c sep then [] :: split_chars sep l'
      else match split_chars sep l' with
           | piece :: rest => (c :: piece) :: rest
           | [] => [[c]]
           end
  end.

Definition split (sep : ascii) (s : string) : list string :=
  map of_chars (split_chars sep (chars s)).

Fixpoint prefix_chars (p l : list ascii) : bool :=
  match p, l with
  | [], _ => true
  | a :: p', b :: l' => Ascii.eqb a b && prefix_chars p' l'
  | _ :: _, [] => false
  end.

(** [s.includes(needle)] *)
Fixpoint includes_chars (needle l : list ascii) : bool :=
  prefix_chars needle l ||
  match l with
  | [] => false
  | _ :: l' => includes_chars needle l'
  end.

Definition includes (needle s : string) : bool :=
  includes_chars (chars needle) (chars s).

Definition nl : ascii := "010"%char.
Definition dquote : ascii := "034"%char.
Definition backslash : ascii := "092"%char.

Definition quoted (s : string) : string :=
  String dquote (s +:+ String dquote EmptyString).

End Str.

(* ===================================================================== *)
(** * JavaScript values *)
(* ===================================================================== *)

Module JS.

(** The values that reach this code: JSON data and the objects the code
    builds. A number [Num n] is a whole number of seconds or credits within
    the safe range ([Z.abs n < 2 ^ 53]), where the arithmetic of doubles is
    exact and a number is printed as its decimal numeral; fractions and
    larger magnitudes are not among the values of this model.
    An object is its list of properties in source order; as in an object
    literal or in [JSON.parse], a later binding of a key overrides an
    earlier one. No property holds a function. *)
Inductive value : Type :=
| Undefined
| Null
| Bool (b : bool)
| Num (n : Z)
| Str (s : string)
| Arr (items : list value)
| Obj (props : list (string * value)).

(** A computation that may throw. *)
Inductive outcome (A : Type) : Type :=
| Ret (a : A)
| Throw.
Arguments Ret {A} a.
Arguments Throw {A}.

Definition bind {A B} (m : outcome A) (k : A -> outcome B) : outcome B :=
  match m with
  | Ret a => k a
  | Throw => Throw
  end.

(** [try { body } catch { handler }] *)
Definition try_catch {A} (body handler : outcome A) : outcome A :=
  match body with
  | Ret a => Ret a
  | Throw => handler
  end.

Fixpoint mapM {A B} (f : A -> outcome B) (l : list A) : outcome (list B) :=
  match l with
  | [] => Ret []
  | a :: l' =>
      bind (f a) (fun b => bind (mapM f l') (fun bs => Ret (b :: bs)))
  end.

(** [!!v] *)
Definition truthy (v : value) : bool :=
  match v with
  | Undefined | Null => false
  | Bool b => b
  | Num n => negb (n =? 0)%Z
  | Str s => negb (String.eqb s EmptyString)
  | Arr _ | Obj _ => true
  end.

(** [typeof v === 'string'] *)
Definition is_string (v : value) : bool :=
  match v with Str _ => true | _ => false end.

(** [Array.isArray(v)] *)
Definition isArray (v : value) : bool :=
  match v with Arr _ => true | _ => false end.

(** [v === 's'] for a string literal ['s'] *)
Definition is_str (v : value) (s : string) : bool :=
  match v with Str s' => String.eqb s' s | _ => false end.

Fixpoint lookup (k : string) (props : list (string * value)) : option value :=
  match props with
  | [] => None
  | (k', v) :: rest =>
      match lookup k rest with
      | Some w => Some w
      | None => if String.eqb k' k then Some v else None
      end
  end.

(** [v.k], for the property names this code reads (none of them is on a
    prototype): a [TypeError] on [undefined] and [null], [undefined] where
    the property is missing. *)
Definition get (v : value) (k : string) : outcome value :=
  match v with
  | Undefined | Null => Throw
  | Obj props => Ret (default Undefined (lookup k props))
  | Bool _ | Num _ | Str _ | Arr _ => Ret Undefined
  end.

(** [a || b] *)
Definition or_else (a : value) (b : outcome value) : outcome value :=
  if truthy a then Ret a else b.

(** [o[k] = v]: the value of an existing property is replaced where it
    stands, a new property comes last. *)
Definition set (k : string) (v : value) (props : list (string * value))
  : list (string * value) :=
  match lookup k props with
  | Some _ =>
      map (fun kv => if String.eqb (fst kv) k then (fst kv, v) else kv) props
  | None => props ++ [(k, v)]
  end.

Definition decimal (n : Z) : string := NilZero.string_of_int (Z.to_int n).

Fixpoint indexed {A} (i : nat) (l : list A) : list (string * A) :=
  match l with
  | [] => []
  | a :: l' => (decimal (Z.of_nat i), a) :: indexed (S i) l'
  end.

(** The own enumerable properties that a spread [...v] copies. *)
Definition own_props (v : value) : list (string * value) :=
  match v with
  | Obj props => props
  | Arr items => indexed 0 items
  | Str s => indexed 0 (map (fun c => Str (String c EmptyString)) (Str.chars s))
  | Undefined | Null | Bool _ | Num _ => []
  end.

(** [Object.assign(target, source)] on property lists. *)
Definition assign (target source : list (string * value)) : list (string * value) :=
  fold_left (fun o kv => set (fst kv) (snd kv) o) source target.

(** [{...a, ...b}] *)
Definition spread2 (a b : value) : value :=
  Obj (assign (assign [] (own_props a)) (own_props b)).

Fixpoint join (sep : string) (l : list string) : string :=
  match l with
  | [] => EmptyString
  | [s] => s
  | s :: l' => s +:+ sep +:+ join sep l'
  end.

(** [ToString(v)], the conversion a template literal applies to [${v}].
    An object is converted by its [toString] method and then by its
    [valueOf] method. An array has these from [Array.prototype]: its
    elements are joined with commas, [null] and [undefined] giving the
    empty string and every other element being converted in turn. An object
    without a property [toString] of its own has [Object.prototype]'s and
    gives ['[object Object]']. An object with a property [toString] of its
    own, whose value is data and cannot be called, is left with [valueOf],
    which is either a property of its own (data again) or
    [Object.prototype]'s (it returns the object itself): no primitive is
    obtained and the conversion throws a [TypeError]. A number of the
    model (a whole number within the safe range) is printed as its decimal
    numeral. *)
Fixpoint to_string (v : value) : outcome string :=
  match v with
  | Undefined => Ret "undefined"
  | Null => Ret "null"
  | Bool true => Ret "true"
  | Bool false => Ret "false"
  | Num n => Ret (decimal n)
  | Str s => Ret s
  | Arr items =>
      bind
        ((fix elements (l : list value) : outcome (list string) :=
            match l with
            | [] => Ret []
            | x :: l' =>
                bind (match x with
                      | Undefined | Null => Ret EmptyString
                      | _ => to_string x
                      end)
                     (fun s => bind (elements l') (fun ss => Ret (s :: ss)))
            end) items)
        (fun parts => Ret (join "," parts))
  | Obj props =>
      match lookup "toString" props with
      | Some _ => Throw
      | None => Ret "[object Object]"
      end
  end.

End JS.

Notation "'let!' x ':=' m 'in' k" := (JS.bind m (fun x => k))
  (at level 10, x name, m at level 100, k at level 200, only parsing).

(* ===================================================================== *)
(** * Regular expressions, as far as the sources use them *)
(* ===================================================================== *)

Module Regex.

(** A pattern between [^] and [$] (no [m] flag): the whole input has to
    match. *)
Inductive regex : Type :=
| Void
| Eps
| Class (p : ascii -> bool)
| Seq (r1 r2 : regex)
| Alt (r1 r2 : regex).

(** [r?] *)
Definition Opt (r : regex) : regex := Alt r Eps.

(** [r{n}] *)
Fixpoint Times (n : nat) (r : regex) : regex :=
  match n with
  | O => Eps
  | S k => Seq r (Times k r)
  end.

(** [r{0,n}] *)
Fixpoint UpTo (n : nat) (r : regex) : regex :=
  match n with
  | O => Eps
  | S k => Opt (Seq r (UpTo k r))
  end.

(** [r{lo,hi}] *)
Definition Range (lo hi : nat) (r : regex) : regex :=
  Seq (Times lo r) (UpTo (hi - lo) r).

Definition lit (c : ascii) : regex := Class (Ascii.eqb c).

(** [\d]: the ten ASCII digits only. *)
Definition digit (c : ascii) : bool :=
  (48 <=? Str.code c) && (Str.code c <=? 57).

(** [[1-9]] *)
Definition digit19 (c : ascii) : bool :=
  (49 <=? Str.code c) && (Str.code c <=? 57).

Fixpoint nullable (r : regex) : bool :=
  match r with
  | Void => false
  | Eps => true
  | Class _ => false
  | Seq r1 r2 => nullable r1 && nullable r2
  | Alt r1 r2 => nullable r1 || nullable r2
  end.

(** Brzozowski derivative: what is left of [r] once [c] is read. *)
Fixpoint deriv (c : ascii) (r : regex) : regex :=
  match r with
  | Void => Void
  | Eps => Void
  | Class p => if p c then Eps else Void
  | Seq r1 r2 =>
      if nullable r1 then Alt (Seq (deriv c r1) r2) (deriv c r2)
      else Seq (deriv c r1) r2
  | Alt r1 r2 => Alt (deriv c r1) (deriv c r2)
  end.

Fixpoint matches (r : regex) (l : list ascii) : bool :=
  match l with
  | [] => nullable r
  | c :: l' => matches (deriv c r) l'
  end.

(** [/^r$/.test(s)] *)
Definition test (r : regex) (s : string) : bool := matches r (Str.chars s).

(** The words of a pattern, for the statements. *)
Inductive lang : regex -> list ascii -> Prop :=
| lang_eps : lang Eps []
| lang_class p c : p c = true -> lang (Class p) [c]
| lang_seq r1 r2 l1 l2 : lang r1 l1 -> lang r2 l2 -> lang (Seq r1 r2) (l1 ++ l2)
| lang_alt_l r1 r2 l : lang r1 l -> lang (Alt r1 r2) l
| lang_alt_r r1 r2 l : lang r2 l -> lang (Alt r1 r2) l.

End Regex.

(* ===================================================================== *)
(** * JSON.parse *)
(* ===================================================================== *)

(** [mcpUtils.js] calls the host's [JSON.parse]; the functions below take
    it as a parameter ([None] stands for the [SyntaxError]). [Json.parse]
    is a reader for the JSON texts that denote a [JS.value]: it refuses
    numbers with a fraction or an exponent and [\u] escapes from 256 on,
    which [JS.value] cannot hold. It instantiates the parameter where a
    statement is run on a concrete text. *)
Module Json.
Import JS.

Definition is_ws (c : ascii) : bool :=
  let n := Str.code c in (n =? 32) || (n =? 9) || (n =? 10) || (n =? 13).

Fixpoint skip_ws (l : list ascii) : list ascii :=
  match l with
  | c :: l' => if is_ws c then skip_ws l' else l
  | [] => []
  end.

Definition digit_value (c : ascii) : option Z :=
  if Regex.digit c then Some (Z.of_nat (Str.code c - 48)) else None.

Definition hex_value (c : ascii) : option nat :=
  let n := Str.code c in
  if (48 <=? n) && (n <=? 57) then Some (n - 48)
  else if (65 <=? n) && (n <=? 70) then Some (n - 55)
  else if (97 <=? n) && (n <=? 102) then Some (n - 87)
  else None.

Fixpoint read_digits (acc : Z) (l : list ascii) : Z * list ascii :=
  match l with
  | c :: l' =>
      match digit_value c with
      | Some d => read_digits (10 * acc + d)%Z l'
      | None => (acc, l)
      end
  | [] => (acc, [])
  end.

(** No fraction and no exponent may follow an integer that is read here. *)
Definition integer_ends (l : list ascii) : bool :=
  match l with
  | c :: _ => negb (Ascii.eqb c "."%char || Ascii.eqb c "e"%char || Ascii.eqb c "E"%char)
  | [] => true
  end.

Definition read_natural (l : list ascii) : option (Z * list ascii) :=
  match l with
  | c :: l' =>
      if Ascii.eqb c "0"%char then
        if integer_ends l' then Some (0%Z, l') else None
      else if Regex.digit19 c then
        let (n, rest) := read_digits 0 l in
        if integer_ends rest then Some (n, rest) else None
      else None
  | [] => None
  end.

Definition read_number (l : list ascii) : option (value * list ascii) :=
  match l with
  | c :: l' =>
      if Ascii.eqb c "-"%char then
        match read_natural l' with
        | Some (n, rest) => Some (Num (- n), rest)
        | None => None
        end
      else
        match read_natural l with
        | Some (n, rest) => Some (Num n, rest)
        | None => None
        end
  | [] => None
  end.

Definition escape (c : ascii) : option ascii :=
  if Ascii.eqb c Str.dquote then Some Str.dquote
  else if Ascii.eqb c Str.backslash then Some Str.backslash
  else if Ascii.eqb c "/"%char then Some "/"%char
  else if Ascii.eqb c "b"%char then Some "008"%char
  else if Ascii.eqb c "f"%char then Some "012"%char
  else if Ascii.eqb c "n"%char then Some "010"%char
  else if Ascii.eqb c "r"%char then Some "013"%char
  else if Ascii.eqb c "t"%char then Some "009"%char
  else None.

(** The characters of a string literal, after its opening quote. *)
Fixpoint read_string (l : list ascii) : option (list ascii * list ascii) :=
  match l with
  | [] => None
  | c :: r =>
      if Ascii.eqb c Str.dquote then Some ([], r)
      else if Ascii.eqb c Str.backslash then
        match r with
        | e :: r1 =>
            if Ascii.eqb e "u"%char then
              match r1 with
              | h1 :: h2 :: h3 :: h4 :: r2 =>
                  match hex_value h1, hex_value h2, hex_value h3, hex_value h4 with
                  | Some 0, Some 0, Some a, Some b =>
                      match read_string r2 with
                      | Some (s, rest) => Some (ascii_of_nat (16 * a + b) :: s, rest)
                      | None => None
                      end
                  | _, _, _, _ => None
                  end
              | _ => None
              end
            else
              match escape e with
              | Some x =>
                  match read_string r1 with
                  | Some (s, rest) => Some (x :: s, rest)
                  | None => None
                  end
              | None => None
              end
        | [] => None
        end
      else if Str.code c <? 32 then None
      else
        match read_string r with
        | Some (s, rest) => Some (c :: s, rest)
        | None => None
        end
  end.

Definition read_word (w : string) (v : value) (l : list ascii)
  : option (value * list ascii) :=
  if Str.prefix_chars (Str.chars w) l
  then Some (v, skipn (String.length w) l)
  else None.

Fixpoint read_value (fuel : nat) (l : list ascii) : option (value * list ascii) :=
  match fuel with
  | O => None
  | S fuel' =>
      match skip_ws l with
      | [] => None
      | c :: r =>
          if Ascii.eqb c "["%char then
            match skip_ws r with
            | c' :: r' =>
                if Ascii.eqb c' "]"%char then Some (Arr [], r')
                else match read_elements fuel' r with
                     | Some (vs, rest) => Some (Arr vs, rest)
                     | None => None
                     end
            | [] => None
            end
          else if Ascii.eqb c "{"%char then
            match skip_ws r with
            | c' :: r' =>
                if Ascii.eqb c' "}"%char then Some (Obj [], r')
                else match read_members fuel' r with
                     | Some (kvs, rest) => Some (Obj kvs, rest)
                     | None => None
                     end
            | [] => None
            end
          else if Ascii.eqb c Str.dquote then
            match read_string r with
            | Some (s, rest) => Some (Str (Str.of_chars s), rest)
            | None => None
            end
          else if Ascii.eqb c "n"%char then read_word "null" Null (c :: r)
          else if Ascii.eqb c "t"%char then read_word "true" (Bool true) (c :: r)
          else if Ascii.eqb c "f"%char then read_word "false" (Bool false) (c :: r)
          else read_number (c :: r)
      end
  end
with read_elements (fuel : nat) (l : list ascii) : option (list value * list ascii) :=
  match fuel with
  | O => None
  | S fuel' =>
      match read_value fuel' l with
      | Some (v, r) =>
          match skip_ws r with
          | c :: r' =>
              if Ascii.eqb c ","%char then
                match read_elements fuel' r' with
                | Some (vs, rest) => Some (v :: vs, rest)
                | None => None
                end
              else if Ascii.eqb c "]"%char then Some ([v], r')
              else None
          | [] => None
          end
      | None => None
      end
  end
with read_members (fuel : nat) (l : list ascii)
  : option (list (string * value) * list ascii) :=
  match fuel with
  | O => None
  | S fuel' =>
      match skip_ws l with
      | q :: r =>
          if Ascii.eqb q Str.dquote then
            match read_string r with
            | Some (k, r1) =>
                match skip_ws r1 with
                | colon :: r2 =>
                    if Ascii.eqb colon ":"%char then
                      match read_value fuel' r2 with
                      | Some (v, r3) =>
                          match skip_ws r3 with
                          | c :: r4 =>
                              if Ascii.eqb c ","%char then
                                match read_members fuel' r4 with
                                | Some (kvs, rest) =>
                                    Some ((Str.of_chars k, v) :: kvs, rest)
                                | None => None
                                end
                              else if Ascii.eqb c "}"%char
                              then Some ([(Str.of_chars k, v)], r4)
                              else None
                          | [] => None
                          end
                      | None => None
                      end
                    else None
                | [] => None
                end
            | None => None
            end
          else None
      | [] => None
      end
  end.

Definition parse (text : string) : option value :=
  let l := Str.chars text in
  match read_value (2 * length l + 2) l with
  | Some (v, rest) =>
      match skip_ws rest with
      | [] => Some v
      | _ :: _ => None
      end
  | None => None
  end.

End Json.

(* ===================================================================== *)
(** * mcpUtils.js *)
(* ===================================================================== *)

Module McpUtils.
Import JS.

(** [window.blandmcp] as the hook finds it: not there, there but falsy
    ([null]), or a value on which [registerCallListener] and
    [unregisterCallListener] are or are not to be found. *)
Inductive blandmcp : Type :=
| NoMcp
| FalsyMcp
| SomeMcp (registerCallListener unregisterCallListener : bool).

(** [window.blandmcp !== undefined], in a browser. *)
Definition checkMcpAvailability (w : blandmcp) : bool :=
  match w with
  | NoMcp => false
  | FalsyMcp | SomeMcp _ _ => true
  end.

(** The hook subscribes when [window.blandmcp] is truthy and has a
    [registerCallListener]; it fetches by itself otherwise. *)
Definition push_mode (w : blandmcp) : bool :=
  match w with
  | SomeMcp registerCallListener _ => registerCallListener
  | NoMcp | FalsyMcp => false
  end.

(** The [i] flag: letters of the pattern are ASCII, and a code unit from
    128 on never folds to one below 128. *)
Definition fold_case (c : ascii) : ascii :=
  let n := Str.code c in
  if (97 <=? n) && (n <=? 122) then ascii_of_nat (n - 32) else c.

Fixpoint starts_with_i (p l : list ascii) : bool :=
  match p, l with
  | [], _ => true
  | a :: p', b :: l' => Ascii.eqb (fold_case a) (fold_case b) && starts_with_i p' l'
  | _ :: _, [] => false
  end.

(** [line.replace(/^(Agent:|User:|AI:)/i, '')] *)
Definition strip_role_prefix (line : string) : string :=
  let l := Str.chars line in
  if starts_with_i (Str.chars "Agent:") l then Str.of_chars (skipn 6 l)
  else if starts_with_i (Str.chars "User:") l then Str.of_chars (skipn 5 l)
  else if starts_with_i (Str.chars "AI:") l then Str.of_chars (skipn 3 l)
  else line.

Definition entry (role text : value) : value :=
  Obj [("role", role); ("text", text)].

(** The callback of [transcript.split('\n').map(...)]. *)
Definition line_entry (line : string) : value :=
  let isAgent :=
    Str.includes "agent:" (Str.toLowerCase line) ||
    Str.includes "ai:" (Str.toLowerCase line) in
  entry (Str (if isAgent then "agent" else "user"))
        (Str (Str.trim (strip_role_prefix line))).

(** The callback of [transcript.map(...)] on a decoded array. *)
Definition array_entry (e : value) : outcome value :=
  let! role := get e "role" in
  let! role' := or_else role
                  (let! speaker := get e "speaker" in
                   or_else speaker (Ret (Str "unknown"))) in
  let! text := get e "text" in
  let! text' := or_else text
                  (let! content := get e "content" in
                   or_else content (Ret (Str EmptyString))) in
  Ret (entry role' text').

Section Host.
Variable JSON_parse : string -> option value.

Definition format_array (transcript : value) : outcome value :=
  match transcript with
  | Arr items => let! entries := mapM array_entry items in Ret (Arr entries)
  | _ => Ret (Arr [])
  end.

Definition formatTranscript (transcript : value) : outcome value :=
  if negb (truthy transcript) || negb (is_string transcript) then Ret (Arr [])
  else
    try_catch
      (match transcript with
       | Str s =>
           match JSON_parse s with
           | Some parsed => format_array parsed
           | None => Ret (Arr (map line_entry (Str.split Str.nl s)))
           end
       | _ => format_array transcript
       end)
      (Ret (Arr [])).

Definition mk_event (time : value) (status : string) (details : value) : value :=
  Obj [("time", time); ("status", Str status); ("details", details)].

(** [generateEventsFromMcp]; [now] is what [new Date().toISOString()]
    gives. The one place that can throw on a truthy payload is the template
    literal of the completed event, which converts
    [mcpData.duration || 0] to a string. *)
Definition generateEventsFromMcp (now : string) (mcpData : value) : outcome value :=
  let events := [] in
  let! created_at := get mcpData "created_at" in
  let events :=
    if truthy created_at
    then events ++ [mk_event created_at "Call initiated" (Str "Request sent to Bland AI")]
    else events in
  let! status := get mcpData "status" in
  let! queue_time := get mcpData "queue_time" in
  let events :=
    if is_str status "queued" || truthy queue_time
    then events ++ [mk_event (if truthy queue_time then queue_time else Str now)
                          "Call queued" (Str "Call is waiting in queue")]
    else events in
  let! start_time := get mcpData "start_time" in
  let events :=
    if is_str status "in_progress" || truthy start_time
    then events ++ [mk_event (if truthy start_time then start_time else Str now)
                          "Call in progress" (Str "Conversation has started")]
    else events in
  let! end_time := get mcpData "end_time" in
  let! duration := get mcpData "duration" in
  let! events :=
    (if is_str status "completed" || truthy end_time
     then
       let! seconds := to_string (if truthy duration then duration else Num 0) in
       Ret (events ++ [mk_event (if truthy end_time then end_time else Str now)
                             "Call completed"
                             (Str ("Call finished after " +:+ seconds +:+
                                   " seconds"))])
     else Ret events) in
  let! error := get mcpData "error" in
  let events :=
    if is_str status "error"
    then events ++ [mk_event (Str now) "Call error"
                          (if truthy error then error
                           else Str "An error occurred during the call")]
    else events in
  Ret (Arr events).

Definition formatMcpCallData (now : string) (mcpData : value) : outcome value :=
  if negb (truthy mcpData) then Ret Null
  else
    let! call_id := get mcpData "call_id" in
    let! status := get mcpData "status" in
    let! duration := get mcpData "duration" in
    let! credits := get mcpData "credits" in
    let! transcript := get mcpData "transcript" in
    let! transcript' :=
      (if truthy transcript then formatTranscript transcript else Ret (Arr [])) in
    let! events := generateEventsFromMcp now mcpData in
    Ret (Obj [("call_id", call_id);
              ("status", status);
              ("duration_seconds", duration);
              ("credits_used", credits);
              ("transcript", transcript');
              ("events", events)]).

End Host.

End McpUtils.

(* ===================================================================== *)
(** * Events of the browser's scheduler *)
(* ===================================================================== *)

(** What the scheduler delivers to an acquisition effect once it is set
    up. A promise settles with [Some v] (fulfilled with [v]) or [None]
    (rejected). Clicks on the refresh button are the user's and are not
    among them. *)
Inductive event : Type :=
| TimerFires
| StatusSettles (response : option JS.value)
| McpCalls (mcpEvent : JS.value)
| DetailsSettle (details : option JS.value) (now : string)
| Unmounts.

(** [data.status === 'completed' || data.status === 'error'], where the
    read of [status] does not throw. *)
Definition terminal (data : JS.value) : bool :=
  match JS.get data "status" with
  | JS.Ret status => JS.is_str status "completed" || JS.is_str status "error"
  | JS.Throw => false
  end.

(* ===================================================================== *)
(** * The useCallStatus hook *)
(* ===================================================================== *)

Module UseCallStatus.
Import JS McpUtils.

(** The four [useState] cells, and what the effect holds of the runtime:
    the period in milliseconds of the interval that [intervalId] names
    while it is live, whether [handleMcpUpdate] is registered with the push
    source, how many [getCallStatus] and [get_call_details] promises are
    pending, and how many requests [fetchCallStatus] has sent so far. A
    falsy [callId] is [EmptyString]. *)
Record hook : Type := mkHook {
  callData : value;
  loading : bool;
  error : option string;
  usingMcp : bool;
  interval : option nat;
  listener : bool;
  fetching : nat;
  detailing : nat;
  fetched : nat
}.

Definition intervalLive (st : hook) : bool :=
  match interval st with Some _ => true | None => false end.

(** [useState(initialData || {})] and the other initial cells. *)
Definition initial (initialData : value) : hook :=
  {| callData := if truthy initialData then initialData else Obj [];
     loading := false; error := None; usingMcp := false;
     interval := None; listener := false;
     fetching := 0; detailing := 0; fetched := 0 |}.

Definition setCallData (v : value) (st : hook) : hook :=
  {| callData := v; loading := loading st; error := error st;
     usingMcp := usingMcp st; interval := interval st;
     listener := listener st; fetching := fetching st;
     detailing := detailing st; fetched := fetched st |}.

Definition setLoading (b : bool) (st : hook) : hook :=
  {| callData := callData st; loading := b; error := error st;
     usingMcp := usingMcp st; interval := interval st;
     listener := listener st; fetching := fetching st;
     detailing := detailing st; fetched := fetched st |}.

Definition setError (e : option string) (st : hook) : hook :=
  {| callData := callData st; loading := loading st; error := e;
     usingMcp := usingMcp st; interval := interval st;
     listener := listener st; fetching := fetching st;
     detailing := detailing st; fetched := fetched st |}.

Definition setUsingMcp (b : bool) (st : hook) : hook :=
  {| callData := callData st; loading := loading st; error := error st;
     usingMcp := b; interval := interval st;
     listener := listener st; fetching := fetching st;
     detailing := detailing st; fetched := fetched st |}.

(** [intervalId = setInterval(callback, ms)] *)
Definition setInterval (ms : nat) (st : hook) : hook :=
  {| callData := callData st; loading := loading st; error := error st;
     usingMcp := usingMcp st; interval := Some ms;
     listener := listener st; fetching := fetching st;
     detailing := detailing st; fetched := fetched st |}.

(** [clearInterval(intervalId)]; nothing happens when [intervalId] was
    never assigned. *)
Definition clearInterval (st : hook) : hook :=
  {| callData := callData st; loading := loading st; error := error st;
     usingMcp := usingMcp st; interval := None;
     listener := listener st; fetching := fetching st;
     detailing := detailing st; fetched := fetched st |}.

Definition setListener (b : bool) (st : hook) : hook :=
  {| callData := callData st; loading := loading st; error := error st;
     usingMcp := usingMcp st; interval := interval st;
     listener := b; fetching := fetching st;
     detailing := detailing st; fetched := fetched st |}.

(** A [getCallStatus] request leaves. *)
Definition request_status (st : hook) : hook :=
  {| callData := callData st; loading := loading st; error := error st;
     usingMcp := usingMcp st; interval := interval st;
     listener := listener st; fetching := S (fetching st);
     detailing := detailing st; fetched := S (fetched st) |}.

Definition status_arrived (st : hook) : hook :=
  {| callData := callData st; loading := loading st; error := error st;
     usingMcp := usingMcp st; interval := interval st;
     listener := listener st; fetching := pred (fetching st);
     detailing := detailing st; fetched := fetched st |}.

Definition request_details (st : hook) : hook :=
  {| callData := callData st; loading := loading st; error := error st;
     usingMcp := usingMcp st; interval := interval st;
     listener := listener st; fetching := fetching st;
     detailing := S (detailing st); fetched := fetched st |}.

Definition details_arrived (st : hook) : hook :=
  {| callData := callData st; loading := loading st; error := error st;
     usingMcp := usingMcp st; interval := interval st;
     listener := listener st; fetching := fetching st;
     detailing := pred (detailing st); fetched := fetched st |}.

(** No interval, no listener, no detail request under way. *)
Definition quiet (st : hook) : Prop :=
  intervalLive st = false /\ listener st = false /\ detailing st = 0.

Section Effect.
Variable JSON_parse : string -> option value.
Variable window_blandmcp : blandmcp.
Variable callId : string.

(** [fetchCallStatus], up to its [await]. *)
Definition fetchCallStatus (st : hook) : hook :=
  if String.eqb callId EmptyString then st
  else request_status (setLoading true st).

(** [fetchCallStatus], from its [await] on. *)
Definition fetchCallStatus_settled (response : option value) (st : hook) : hook :=
  let st1 :=
    match response with
    | Some data =>
        let st2 := setError None (setCallData data st) in
        match get data "status" with
        | Ret status =>
            if is_str status "completed" || is_str status "error"
            then clearInterval st2
            else st2
        | Throw => setError (Some "Unable to fetch call status") st2
        end
    | None => setError (Some "Unable to fetch call status") st
    end in
  setLoading false (status_arrived st1).

(** [handleMcpUpdate], up to its [await]. *)
Definition handleMcpUpdate (mcpEvent : value) (st : hook) : hook :=
  if truthy mcpEvent then
    match get mcpEvent "call_id" with
    | Ret call_id => if is_str call_id callId then request_details st else st
    | Throw => st
    end
  else st.

(** [handleMcpUpdate], from its [await] on. *)
Definition handleMcpUpdate_settled (details : option value) (now : string)
    (st : hook) : hook :=
  let st0 := details_arrived st in
  match details with
  | Some mcpData =>
      match formatMcpCallData JSON_parse now mcpData with
      | Ret formattedData =>
          setError None (setCallData (spread2 (callData st0) formattedData) st0)
      | Throw => fetchCallStatus st0
      end
  | None => fetchCallStatus st0
  end.

(** The body of the effect. *)
Definition mount (st : hook) : hook :=
  if String.eqb callId EmptyString then st
  else
    let isMcpAvailable := checkMcpAvailability window_blandmcp in
    let st1 := setUsingMcp isMcpAvailable st in
    match window_blandmcp with
    | SomeMcp registerCallListener _ =>
        if registerCallListener
        then handleMcpUpdate (Obj [("call_id", Str callId)]) (setListener true st1)
        else setUsingMcp false (fetchCallStatus st1)
    | NoMcp | FalsyMcp =>
        setInterval 3000 (fetchCallStatus st1)
    end.

(** The function the effect returns. *)
Definition cleanup (st : hook) : hook :=
  if String.eqb callId EmptyString then st
  else
    match window_blandmcp with
    | SomeMcp _ unregisterCallListener =>
        if unregisterCallListener then setListener false st else st
    | NoMcp | FalsyMcp =>
        if intervalLive st then clearInterval st else st
    end.

(** One delivery of the scheduler. A cleared interval does not fire, only
    a pending promise settles, only a registered listener is called.
    The closures of the effect outlive the component: a promise that
    settles after the unmounting still runs the rest of its function,
    requests included, and the cells here then hold what its setters were
    given (React itself drops writes to a component that is gone). *)
Inductive step : hook -> event -> hook -> Prop :=
| step_timer st :
    intervalLive st = true ->
    step st TimerFires (fetchCallStatus st)
| step_status st response :
    0 < fetching st ->
    step st (StatusSettles response) (fetchCallStatus_settled response st)
| step_mcp st mcpEvent :
    listener st = true ->
    step st (McpCalls mcpEvent) (handleMcpUpdate mcpEvent st)
| step_details st details now :
    0 < detailing st ->
    step st (DetailsSettle details now) (handleMcpUpdate_settled details now st)
| step_unmount st :
    step st Unmounts (cleanup st).

Inductive steps : hook -> list event -> hook -> Prop :=
| steps_nil st : steps st [] st
| steps_cons st ev st1 evs st2 :
    step st ev st1 -> steps st1 evs st2 -> steps st (ev :: evs) st2.

(** The same scheduler as a function, for running a trace: a delivery
    that cannot happen is refused. *)
Definition deliver (ev : event) (st : hook) : option hook :=
  match ev with
  | TimerFires => if intervalLive st then Some (fetchCallStatus st) else None
  | StatusSettles response =>
      if 0 <? fetching st then Some (fetchCallStatus_settled response st) else None
  | McpCalls mcpEvent =>
      if listener st then Some (handleMcpUpdate mcpEvent st) else None
  | DetailsSettle details now =>
      if 0 <? detailing st then Some (handleMcpUpdate_settled details now st) else None
  | Unmounts => Some (cleanup st)
  end.

Fixpoint run (evs : list event) (st : hook) : option hook :=
  match evs with
  | [] => Some st
  | ev :: evs' =>
      match deliver ev st with
      | Some st1 => run evs' st1
      | None => None
      end
  end.

End Effect.

End UseCallStatus.

(* ===================================================================== *)
(** * CallStatus.js: the polling effect of the component *)
(* ===================================================================== *)

Module CallStatus.
Import JS.

(** The cells the polling effect writes ([activeStep] is derived from
    [callData] by another effect), holding what their setters were last
    given, and the runtime's side as in [UseCallStatus.hook]. *)
Record view : Type := mkView {
  callData : value;
  loading : bool;
  error : option string;
  refreshCount : nat;
  interval : option nat;
  fetching : nat;
  fetched : nat
}.

Definition intervalLive (st : view) : bool :=
  match interval st with Some _ => true | None => false end.

Definition initial (initialData : value) : view :=
  {| callData := if truthy initialData then initialData else Obj [];
     loading := false; error := None; refreshCount := 0;
     interval := None; fetching := 0; fetched := 0 |}.

Definition setCallData (v : value) (st : view) : view :=
  {| callData := v; loading := loading st; error := error st;
     refreshCount := refreshCount st; interval := interval st;
     fetching := fetching st; fetched := fetched st |}.

Definition setLoading (b : bool) (st : view) : view :=
  {| callData := callData st; loading := b; error := error st;
     refreshCount := refreshCount st; interval := interval st;
     fetching := fetching st; fetched := fetched st |}.

Definition setError (e : option string) (st : view) : view :=
  {| callData := callData st; loading := loading st; error := e;
     refreshCount := refreshCount st; interval := interval st;
     fetching := fetching st; fetched := fetched st |}.

Definition setRefreshCount (n : nat) (st : view) : view :=
  {| callData := callData st; loading := loading st; error := error st;
     refreshCount := n; interval := interval st;
     fetching := fetching st; fetched := fetched st |}.

Definition setInterval (ms : nat) (st : view) : view :=
  {| callData := callData st; loading := loading st; error := error st;
     refreshCount := refreshCount st; interval := Some ms;
     fetching := fetching st; fetched := fetched st |}.

Definition clearInterval (st : view) : view :=
  {| callData := callData st; loading := loading st; error := error st;
     refreshCount := refreshCount st; interval := None;
     fetching := fetching st; fetched := fetched st |}.

Definition request_status (st : view) : view :=
  {| callData := callData st; loading := loading st; error := error st;
     refreshCount := refreshCount st; interval := interval st;
     fetching := S (fetching st); fetched := S (fetched st) |}.

Definition status_arrived (st : view) : view :=
  {| callData := callData st; loading := loading st; error := error st;
     refreshCount := refreshCount st; interval := interval st;
     fetching := pred (fetching st); fetched := fetched st |}.

Section Effect.
Variable callId : string.

Definition fetchCallStatus (st : view) : view :=
  if String.eqb callId EmptyString then st
  else request_status (setLoading true st).

Definition fetchCallStatus_settled (response : option value) (st : view) : view :=
  let st1 :=
    match response with
    | Some data =>
        let st2 := setError None (setCallData data st) in
        match get data "status" with
        | Ret status =>
            if is_str status "completed" || is_str status "error"
            then clearInterval st2
            else st2
        | Throw => setError (Some "Unable to fetch call status") st2
        end
    | None => setError (Some "Unable to fetch call status") st
    end in
  setLoading false (status_arrived st1).

(** The callback given to [setInterval]. *)
Definition tick (st : view) : view :=
  let st1 := fetchCallStatus st in
  setRefreshCount (S (refreshCount st1)) st1.

Definition mount (st : view) : view :=
  setInterval 3000 (fetchCallStatus st).

Definition cleanup (st : view) : view :=
  if intervalLive st then clearInterval st else st.

(** One delivery of the scheduler to the polling effect, as in
    [UseCallStatus.step]. The relation follows the effect and its
    callbacks, not the render: where the render of a snapshot throws (it
    reads [callData.status], so it does on a response body of [null]),
    React unmounts the component and runs the cleanup, which is the
    delivery [Unmounts] here. [Unmounts] may come at any time, so every run
    of the code is among the runs of the relation; the relation also has
    runs in which the component lives on after such a response. *)
Inductive step : view -> event -> view -> Prop :=
| step_timer st :
    intervalLive st = true ->
    step st TimerFires (tick st)
| step_status st response :
    0 < fetching st ->
    step st (StatusSettles response) (fetchCallStatus_settled response st)
| step_unmount st :
    step st Unmounts (cleanup st).

Inductive steps : view -> list event -> view -> Prop :=
| steps_nil st : steps st [] st
| steps_cons st ev st1 evs st2 :
    step st ev st1 -> steps st1 evs st2 -> steps st (ev :: evs) st2.

Definition deliver (ev : event) (st : view) : option view :=
  match ev with
  | TimerFires => if intervalLive st then Some (tick st) else None
  | StatusSettles response =>
      if 0 <? fetching st then Some (fetchCallStatus_settled response st) else None
  | Unmounts => Some (cleanup st)
  | McpCalls _ | DetailsSettle _ _ => None
  end.

Fixpoint run (evs : list event) (st : view) : option view :=
  match evs with
  | [] => Some st
  | ev :: evs' =>
      match deliver ev st with
      | Some st1 => run evs' st1
      | None => None
      end
  end.

End Effect.

End CallStatus.

(** ** The wording of the transcript rules *)

Module TranscriptRules.
Import JS McpUtils.

(** [e.k] on a value that is neither [undefined] nor [null]. *)
Definition prop (e : value) (k : string) : value :=
  match e with
  | Obj props => default Undefined (lookup k props)
  | _ => Undefined
  end.

(** [a || b || c] *)
Definition first_truthy (a b c : value) : value :=
  if truthy a then a else if truthy b then b else c.

(** The record for one entry of a decoded array, in the words of the
    rule: the role is [role], else [speaker], else ['unknown']; the text is
    [text], else [content], else the empty string. *)
Definition normal_entry (e : value) : value :=
  entry (first_truthy (prop e "role") (prop e "speaker") (Str "unknown"))
        (first_truthy (prop e "text") (prop e "content") (Str EmptyString)).

Definition nullish (v : value) : bool :=
  match v with Undefined | Null => true | _ => false end.

(** [p] is [q] up to the case of its ASCII letters. *)
Definition same_letters (p q : string) : Prop :=
  map fold_case (Str.chars p) = map fold_case (Str.chars q).

(** The 256 code units of the string model. *)
Definition all_chars : list ascii := map ascii_of_nat (seq 0 256).

(** To be checked by computation: two code units that the [i] flag
    identifies have the same lower case. *)
Definition fold_refines_lower : bool :=
  forallb (fun c =>
    forallb (fun c' =>
      implb (Ascii.eqb (fold_case c) (fold_case c'))
            (Ascii.eqb (Str.lower_char c) (Str.lower_char c')))
      all_chars) all_chars.

End TranscriptRules.

(** ** Sample payloads and deliveries *)

Module Samples.
Import JS McpUtils.

(** ["Agent: Hello\nUser: Hi there"] *)
Definition two_lines : string :=
  "Agent: Hello" +:+ String Str.nl "User: Hi there".

(** [[{"text":"hi"}]] *)
Definition roleless_json : string :=
  "[{" +:+ Str.quoted "text" +:+ ":" +:+ Str.quoted "hi" +:+ "}]".

(** [[{"speaker":"agent","content":"Hello"},{"role":"user","text":"Hi"}]] *)
Definition dialogue_json : string :=
  "[{" +:+ Str.quoted "speaker" +:+ ":" +:+ Str.quoted "agent" +:+ "," +:+
          Str.quoted "content" +:+ ":" +:+ Str.quoted "Hello" +:+ "},{" +:+
          Str.quoted "role" +:+ ":" +:+ Str.quoted "user" +:+ "," +:+
          Str.quoted "text" +:+ ":" +:+ Str.quoted "Hi" +:+ "}]".

Definition status_payload (status : string) : value :=
  Obj [("call_id", Str "c1"); ("status", Str status)].

(** A snapshot as the backend serves it. *)
Definition served (status : string) : value :=
  Obj [("call_id", Str "c1"); ("status", Str status);
       ("callData", Obj [("inviteeName", Str "Jane"); ("occasion", Str "Coffee")])].

(** [{"call_id":"c1","status":"completed","duration":{"toString":1}}]: a
    record whose duration cannot be converted to a string. *)
Definition unprintable_record : value :=
  Obj [("call_id", Str "c1"); ("status", Str "completed");
       ("duration", Obj [("toString", Num 1)])].

(** Two readings of the clock. *)
Definition clock1 : string := "2025-05-01T09:05:00Z".
Definition clock2 : string := "2025-05-01T09:05:03Z".

(** [n] rounds of: the pending request fails, the interval fires. *)
Fixpoint failing_rounds (n : nat) : list event :=
  match n with
  | O => []
  | S k => StatusSettles None :: TimerFires :: failing_rounds k
  end.

End Samples.

(* ===================================================================== *)
(** * ScheduleMeeting.js *)
(* ===================================================================== *)

(** A free slot as the calendar service returns it. *)
Module TimeSlot.
Record t : Type := mk { start : string; end_ : string }.
End TimeSlot.

(** The body of the placement request. *)
Module CallRequest.
Record t : Type := mk {
  phoneNumber : string;
  inviteeName : string;
  occasion : string;
  duration : string;
  availabilities : list TimeSlot.t;
  voice : string
}.
End CallRequest.

Module ScheduleMeeting.

(** What [formatSlot] returns and [selectedSlots] holds. *)
Record formatted : Type := mkFormatted {
  id : string;
  label : string;
  start : string;
  end_ : string
}.

(** The component's state ([useState] cells). *)
Record form : Type := mkForm {
  phoneNumber : string;
  inviteeName : string;
  occasion : string;
  duration : string;
  selectedSlots : list formatted;
  errors : gmap string string;
  submitting : bool;
  success : bool
}.

Definition initial : form :=
  {| phoneNumber := EmptyString; inviteeName := EmptyString;
     occasion := "Coffee"; duration := "30 minutes";
     selectedSlots := []; errors := ∅;
     submitting := false; success := false |}.

Definition setSelectedSlots (l : list formatted) (f : form) : form :=
  {| phoneNumber := phoneNumber f; inviteeName := inviteeName f;
     occasion := occasion f; duration := duration f;
     selectedSlots := l; errors := errors f;
     submitting := submitting f; success := success f |}.

Definition setErrors (e : gmap string string) (f : form) : form :=
  {| phoneNumber := phoneNumber f; inviteeName := inviteeName f;
     occasion := occasion f; duration := duration f;
     selectedSlots := selectedSlots f; errors := e;
     submitting := submitting f; success := success f |}.

Definition setSubmitting (b : bool) (f : form) : form :=
  {| phoneNumber := phoneNumber f; inviteeName := inviteeName f;
     occasion := occasion f; duration := duration f;
     selectedSlots := selectedSlots f; errors := errors f;
     submitting := b; success := success f |}.

Definition setSuccess (b : bool) (f : form) : form :=
  {| phoneNumber := phoneNumber f; inviteeName := inviteeName f;
     occasion := occasion f; duration := duration f;
     selectedSlots := selectedSlots f; errors := errors f;
     submitting := submitting f; success := b |}.

(** [/^\+?[1-9]\d{1,14}$/] *)
Definition phoneRegex : Regex.regex :=
  Regex.Seq (Regex.Opt (Regex.lit "+"%char))
    (Regex.Seq (Regex.Class Regex.digit19)
       (Regex.Range 1 14 (Regex.Class Regex.digit))).

Definition validatePhoneNumber (number : string) : bool :=
  Regex.test phoneRegex number.

Section FormatSlot.
(** [moment(t).format(pattern)], the date library's rendering. *)
Variable moment_format : string -> string -> string.

Definition formatSlot (slot : TimeSlot.t) : formatted :=
  let start := TimeSlot.start slot in
  let end' := TimeSlot.end_ slot in
  {| id := start +:+ "-" +:+ end';
     label := moment_format start "ddd, MMM D" +:+ " (" +:+
              moment_format start "h:mm A" +:+ " - " +:+
              moment_format end' "h:mm A" +:+ ")";
     start := start;
     end_ := end' |}.
End FormatSlot.

(** [s => s.id === formatted.id] *)
Definition same_id (x s : formatted) : bool := String.eqb (id s) (id x).

(** [selectedSlots.some(s => s.id === formatted.id)], the [isSelected] of
    the render. *)
Definition isSelected (x : formatted) (f : form) : bool :=
  existsb (same_id x) (selectedSlots f).

Definition handleSlotSelect (x : formatted) (f : form) : form :=
  match List.find (same_id x) (selectedSlots f) with
  | Some _ =>
      setSelectedSlots
        (List.filter (fun s => negb (same_id x s)) (selectedSlots f)) f
  | None =>
      if length (selectedSlots f) <? 5
      then setSelectedSlots (selectedSlots f ++ [x]) f
      else f
  end.

(** The [newErrors] object that [validateForm] fills. *)
Definition newErrors (f : form) : gmap string string :=
  let e0 : gmap string string := ∅ in
  let e1 :=
    if String.eqb (phoneNumber f) EmptyString
    then <["phoneNumber" := "Phone number is required"]> e0
    else if negb (validatePhoneNumber (phoneNumber f))
    then <["phoneNumber" := "Enter a valid phone number (e.g., +11234567890)"]> e0
    else e0 in
  let e2 :=
    if String.eqb (inviteeName f) EmptyString
    then <["inviteeName" := "Invitee name is required"]> e1
    else e1 in
  let e3 :=
    if length (selectedSlots f) =? 0
    then <["slots" := "Select at least one available time slot"]> e2
    else e2 in
  e3.

(** [validateForm]: the state with the errors set, and the returned flag
    [Object.keys(newErrors).length === 0]. *)
Definition validateForm (f : form) : form * bool :=
  let e := newErrors f in
  (setErrors e f, size e =? 0).

(** [handleSubmit] up to the placement request: the request to place, or
    nothing when validation stops the submission. *)
Definition handleSubmit (f : form) : form * option CallRequest.t :=
  let (f1, ok) := validateForm f in
  if negb ok then (f1, None)
  else
    (setSubmitting true f1,
     Some {| CallRequest.phoneNumber := phoneNumber f;
             CallRequest.inviteeName := inviteeName f;
             CallRequest.occasion := occasion f;
             CallRequest.duration := duration f;
             CallRequest.availabilities :=
               map (fun s => TimeSlot.mk (start s) (end_ s)) (selectedSlots f);
             CallRequest.voice := "josh" |}).

(** [handleSubmit] after [onPlaceCall] settled: [placed] tells whether the
    promise was fulfilled. *)
Definition handleSubmit_settled (placed : bool) (f : form) : form :=
  let f1 := if placed then setSelectedSlots [] (setSuccess true f) else f in
  setSubmitting false f1.

(** A run of clicks on slot buttons and chips. *)
Definition select_all (xs : list formatted) (f : form) : form :=
  fold_left (fun st x => handleSlotSelect x st) xs f.

(** The wording of the phone rule: an optional [+], a first digit from 1
    to 9, then between 1 and 14 more digits. *)
Definition phone_format (s : string) : Prop :=
  exists (sign : list ascii) (d : ascii) (rest : list ascii),
    Str.chars s = sign ++ d :: rest /\
    (sign = [] \/ sign = ["+"%char]) /\
    Regex.digit19 d = true /\
    forallb Regex.digit rest = true /\
    1 <= length rest <= 14.

End ScheduleMeeting.

(** ** Sample inputs of the form *)

Module FormSamples.
Import ScheduleMeeting.

(** A stand-in for the date library: the timestamp itself. *)
Definition plain_format (t pattern : string) : string := t.

Definition slot (day : string) : formatted :=
  formatSlot plain_format
    (TimeSlot.mk (day +:+ "T09:00:00Z") (day +:+ "T09:30:00Z")).

Definition slotA : formatted := slot "2025-05-01".
Definition slotB : formatted := slot "2025-05-02".
Definition slotC : formatted := slot "2025-05-03".
Definition slotD : formatted := slot "2025-05-04".
Definition slotE : formatted := slot "2025-05-05".
Definition slotF : formatted := slot "2025-05-06".

(** The form after the user typed a phone number and a name and picked
    slots, one click each. *)
Definition filled (phone name : string) (picks : list formatted) : form :=
  select_all picks
    {| phoneNumber := phone; inviteeName := name;
       occasion := occasion initial; duration := duration initial;
       selectedSlots := []; errors := ∅;
       submitting := false; success := false |}.

End FormSamples.

(* ===================================================================== *)
(** * ScheduleMeeting.js: what the render computes *)
(* ===================================================================== *)

Module ScheduleMeetingView.
Import ScheduleMeeting.

(** [disabled={submitting || (!isSelected && selectedSlots.length >= 5)}]
    of the chip of a free slot. *)
Definition chip_disabled (x : formatted) (f : form) : bool :=
  submitting f || (negb (isSelected x f) && (5 <=? length (selectedSlots f))).

(** [Math.ceil(freeSlots.length / 2)] *)
Definition half_up (n : nat) : nat := (n + 1) / 2.

(** [freeSlots.slice(0, Math.ceil(freeSlots.length / 2))] *)
Definition left_column (freeSlots : list TimeSlot.t) : list TimeSlot.t :=
  firstn (half_up (length freeSlots)) freeSlots.

(** [freeSlots.slice(Math.ceil(freeSlots.length / 2))] *)
Definition right_column (freeSlots : list TimeSlot.t) : list TimeSlot.t :=
  skipn (half_up (length freeSlots)) freeSlots.

(** The availabilities that [handleSubmit] builds from the selection. *)
Definition raw_slot (s : formatted) : TimeSlot.t :=
  TimeSlot.mk (start s) (end_ s).

End ScheduleMeetingView.

(* ===================================================================== *)
(** * mcpUtils.js: reading a timeline *)
(* ===================================================================== *)

Module Timeline.
Import JS.

(** The [status] of each event of a timeline. *)
Definition labels (events : list value) : list value :=
  map (fun e => TranscriptRules.prop e "status") events.

(** The five labels [generateEventsFromMcp] can give, in its order. *)
Definition lifecycle : list value :=
  [Str "Call initiated"; Str "Call queued"; Str "Call in progress";
   Str "Call completed"; Str "Call error"].

(** The condition under which [generateEventsFromMcp] adds the completed
    event. *)
Definition completed_due (mcpData : value) : bool :=
  is_str (TranscriptRules.prop mcpData "status") "completed" ||
  truthy (TranscriptRules.prop mcpData "end_time").

(** [mcpData.duration || 0], what the sentence of the completed event
    converts to a string. *)
Definition duration_or_zero (mcpData : value) : value :=
  if truthy (TranscriptRules.prop mcpData "duration")
  then TranscriptRules.prop mcpData "duration"
  else Num 0.

(** The number of line feeds of a text. *)
Definition line_feeds (s : string) : nat :=
  length (List.filter (fun c => Ascii.eqb c Str.nl) (Str.chars s)).

End Timeline.

(* ===================================================================== *)
(** * Counting deliveries *)
(* ===================================================================== *)

Module Deliveries.

Definition is_timer (ev : event) : bool :=
  match ev with TimerFires => true | _ => false end.

Definition is_status (ev : event) : bool :=
  match ev with StatusSettles _ => true | _ => false end.

(** A detail request that sends [handleMcpUpdate] to its [catch] branch:
    the [get_call_details] promise is rejected, or it is fulfilled with a
    record on which [formatMcpCallData] throws. *)
Definition falls_back (JSON_parse : string -> option JS.value) (ev : event) : bool :=
  match ev with
  | DetailsSettle None _ => true
  | DetailsSettle (Some mcpData) now =>
      match McpUtils.formatMcpCallData JSON_parse now mcpData with
      | JS.Ret _ => false
      | JS.Throw => true
      end
  | _ => false
  end.

(** The deliveries after which an interval is cleared: the unmounting,
    and a response whose status is ['completed'] or ['error']. *)
Definition stops_polling (ev : event) : bool :=
  match ev with
  | Unmounts => true
  | StatusSettles (Some data) => terminal data
  | _ => false
  end.

Definition is_details (ev : event) : bool :=
  match ev with DetailsSettle _ _ => true | _ => false end.

Definition is_unmount (ev : event) : bool :=
  match ev with Unmounts => true | _ => false end.

(** A promise that is fulfilled: the one kind of delivery with data. *)
Definition brings_data (ev : event) : bool :=
  match ev with
  | StatusSettles (Some _) | DetailsSettle (Some _) _ => true
  | _ => false
  end.

Definition count (p : event -> bool) (evs : list event) : nat :=
  length (List.filter p evs).

End Deliveries.

(* ===================================================================== *)
(** * useCallStatus: the refresh method *)
(* ===================================================================== *)

Module Refresh.
Import JS UseCallStatus.

(** [refresh], up to its [await]. *)
Definition refresh (st : hook) : hook := setLoading true st.

(** [refresh], from its [await] on: the state, and how the promise that
    [refresh] returned settles ([Throw] for the rethrown error). *)
Definition refresh_settled (response : option value) (st : hook)
  : hook * outcome value :=
  match response with
  | Some data =>
      (setLoading false (setError None (setCallData data st)), Ret data)
  | None =>
      (setLoading false (setError (Some "Failed to refresh call status") st),
       Throw)
  end.

End Refresh.

(* ===================================================================== *)
(** * CallStatus.js: the duration shown *)
(* ===================================================================== *)

Module CallStatusView.

(** [s.padStart(n, '0')] *)
Definition padStart0 (n : nat) (s : string) : string :=
  Str.of_chars (repeat "0"%char (n - String.length s)) +:+ s.

(** [formatDuration], on a whole number of seconds within the safe range
    ([Z.abs seconds < 2 ^ 53]): there [Math.floor(seconds / 60)] in doubles
    is the quotient rounded down, [seconds % 60] is the remainder with the
    sign of [seconds], and both are printed as decimal numerals. *)
Definition formatDuration (seconds : Z) : string :=
  if (seconds =? 0)%Z then "0:00"
  else
    let minutes := (seconds / 60)%Z in
    let remainingSeconds := Z.rem seconds 60 in
    JS.decimal minutes +:+ ":" +:+ padStart0 2 (JS.decimal remainingSeconds).

(** [Number.MAX_SAFE_INTEGER + 1] *)
Definition safe_bound : Z := 2 ^ 53.

(** The character of a decimal digit. *)
Definition digit_char (d : Z) : ascii := ascii_of_nat (48 + Z.to_nat d).

Definition two_digits (r : Z) : string :=
  String (digit_char (r / 10)) (String (digit_char (r mod 10)) EmptyString).

(** To be checked by computation: padding the decimal of a number below 60
    gives its two digits. *)
Definition padded_below_60 : bool :=
  forallb (fun k => String.eqb (padStart0 2 (JS.decimal (Z.of_nat k)))
                               (two_digits (Z.of_nat k)))
          (seq 0 60).

End CallStatusView.

(* ===================================================================== *)
(** * Properties *)
(* ===================================================================== *)

(** ** The matcher decides the words of a pattern *)

Section RegexFacts.
Import Regex.

Lemma lang_void_inv l : lang Void l -> False.
Proof. inversion 1. Qed.

Lemma lang_eps_inv l : lang Eps l -> l = [].
Proof. now inversion 1. Qed.

Lemma lang_class_inv p l : lang (Class p) l -> exists c, l = [c] /\ p c = true.
Proof. inversion 1; subst; eauto. Qed.

Lemma lang_seq_inv r1 r2 l :
  lang (Seq r1 r2) l -> exists l1 l2, l = l1 ++ l2 /\ lang r1 l1 /\ lang r2 l2.
Proof. inversion 1; subst; eauto. Qed.

Lemma lang_alt_inv r1 r2 l : lang (Alt r1 r2) l -> lang r1 l \/ lang r2 l.
Proof. inversion 1; subst; auto. Qed.

Lemma nullable_lang r : nullable r = true <-> lang r [].
Proof.
  induction r as [| | p | r1 IH1 r2 IH2 | r1 IH1 r2 IH2]; simpl.
  - split; [discriminate | intros H; destruct (lang_void_inv _ H)].
  - split; [constructor | reflexivity].
  - split; [discriminate |].
    intros H. apply lang_class_inv in H as (c & Hc & _). discriminate.
  - rewrite andb_true_iff, IH1, IH2. split.
    + intros [H1 H2]. apply (lang_seq r1 r2 [] []); assumption.
    + intros H. apply lang_seq_inv in H as (l1 & l2 & Hl & H1 & H2).
      symmetry in Hl. apply app_eq_nil in Hl as [-> ->]. auto.
  - rewrite orb_true_iff, IH1, IH2. split.
    + intros [H | H]; [apply lang_alt_l | apply lang_alt_r]; assumption.
    + apply lang_alt_inv.
Qed.

Lemma deriv_lang r : forall c l, lang (deriv c r) l <-> lang r (c :: l).
Proof.
  induction r as [| | p | r1 IH1 r2 IH2 | r1 IH1 r2 IH2]; intros c l; simpl.
  - split; intros H; destruct (lang_void_inv _ H).
  - split; intros H; [destruct (lang_void_inv _ H) |].
    apply lang_eps_inv in H. discriminate.
  - destruct (p c) eqn:Hp; split; intros H.
    + apply lang_eps_inv in H as ->. now constructor.
    + apply lang_class_inv in H as (c' & Hl & _). injection Hl as <- ->. constructor.
    + destruct (lang_void_inv _ H).
    + apply lang_class_inv in H as (c' & Hl & Hc). injection Hl as <- ->. congruence.
  - assert (Hleft : forall l', lang (Seq (deriv c r1) r2) l' -> lang (Seq r1 r2) (c :: l')).
    { intros l' H. apply lang_seq_inv in H as (l1 & l2 & -> & H1 & H2).
      apply IH1 in H1. apply (lang_seq r1 r2 (c :: l1) l2); assumption. }
    assert (Hback : lang (Seq r1 r2) (c :: l) ->
                    lang (Seq (deriv c r1) r2) l \/
                    (lang r1 [] /\ lang (deriv c r2) l)).
    { intros H. apply lang_seq_inv in H as (l1 & l2 & Hl & H1 & H2).
      destruct l1 as [| c1 l1]; simpl in Hl.
      - subst l2. right. split; [assumption | now apply IH2].
      - injection Hl as <- ->. left. apply lang_seq; [now apply IH1 | assumption]. }
    destruct (nullable r1) eqn:Hn; split; intros H.
    + apply lang_alt_inv in H as [H | H]; [now apply Hleft |].
      apply IH2 in H. apply nullable_lang in Hn.
      apply (lang_seq r1 r2 [] (c :: l)); assumption.
    + destruct (Hback H) as [H' | [_ H']];
        [now apply lang_alt_l | now apply lang_alt_r].
    + now apply Hleft.
    + destruct (Hback H) as [H' | [H' _]]; [assumption |].
      apply nullable_lang in H'. congruence.
  - split; intros H.
    + apply lang_alt_inv in H as [H | H];
        [apply lang_alt_l; now apply IH1 | apply lang_alt_r; now apply IH2].
    + apply lang_alt_inv in H as [H | H];
        [apply lang_alt_l; now apply IH1 | apply lang_alt_r; now apply IH2].
Qed.

Lemma matches_lang l : forall r, matches r l = true <-> lang r l.
Proof.
  induction l as [| c l IH]; intros r; simpl.
  - apply nullable_lang.
  - rewrite IH. apply deriv_lang.
Qed.

Lemma lang_times_class p n :
  forall l, lang (Times n (Class p)) l <-> length l = n /\ forallb p l = true.
Proof.
  induction n as [| n IH]; intros l; simpl.
  - split.
    + intros H. apply lang_eps_inv in H as ->. auto.
    + intros [H _]. destruct l; [constructor | discriminate].
  - split.
    + intros H. apply lang_seq_inv in H as (l1 & l2 & -> & H1 & H2).
      apply lang_class_inv in H1 as (c & -> & Hc). apply IH in H2 as [Hlen Hall].
      simpl. rewrite Hc, Hall, Hlen. auto.
    + intros [Hlen Hall]. destruct l as [| c l]; [discriminate |].
      simpl in Hlen, Hall. apply andb_true_iff in Hall as [Hc Hall].
      apply (lang_seq (Class p) _ [c] l); [now constructor |].
      apply IH. split; [lia | assumption].
Qed.

Lemma lang_upto_class p n :
  forall l, lang (UpTo n (Class p)) l <-> length l <= n /\ forallb p l = true.
Proof.
  induction n as [| n IH]; intros l; simpl.
  - split.
    + intros H. apply lang_eps_inv in H as ->. auto.
    + intros [H _]. destruct l; [constructor | simpl in H; lia].
  - split.
    + intros H. apply lang_alt_inv in H as [H | H].
      * apply lang_seq_inv in H as (l1 & l2 & -> & H1 & H2).
        apply lang_class_inv in H1 as (c & -> & Hc). apply IH in H2 as [Hlen Hall].
        simpl. rewrite Hc, Hall. split; [lia | reflexivity].
      * apply lang_eps_inv in H as ->. simpl. split; [lia | reflexivity].
    + intros [Hlen Hall]. destruct l as [| c l].
      * apply lang_alt_r. constructor.
      * simpl in Hlen, Hall. apply andb_true_iff in Hall as [Hc Hall].
        apply lang_alt_l. apply (lang_seq (Class p) _ [c] l); [now constructor |].
        apply IH. split; [lia | assumption].
Qed.

Lemma lang_range_class p lo hi :
  lo <= hi ->
  forall l, lang (Range lo hi (Class p)) l <->
            lo <= length l <= hi /\ forallb p l = true.
Proof.
  intros Hle l. unfold Range. split.
  - intros H. apply lang_seq_inv in H as (l1 & l2 & -> & H1 & H2).
    apply lang_times_class in H1 as [Hlen1 Hall1].
    apply lang_upto_class in H2 as [Hlen2 Hall2].
    rewrite length_app, forallb_app, Hall1, Hall2. split; [lia | reflexivity].
  - intros [Hlen Hall].
    rewrite <- (firstn_skipn lo l) in Hall |- *.
    rewrite forallb_app in Hall. apply andb_true_iff in Hall as [Hall1 Hall2].
    apply lang_seq.
    + apply lang_times_class. split; [| assumption].
      rewrite length_firstn. lia.
    + apply lang_upto_class. split; [| assumption].
      rewrite length_skipn. lia.
Qed.

End RegexFacts.

(** ** ScheduleMeeting.js: the phone pattern *)

Section PhoneFacts.
Import Regex ScheduleMeeting.

Lemma lang_phoneRegex l :
  lang phoneRegex l <->
  exists sign d rest,
    l = sign ++ d :: rest /\ (sign = [] \/ sign = ["+"%char]) /\
    digit19 d = true /\ forallb digit rest = true /\ 1 <= length rest <= 14.
Proof.
  unfold phoneRegex. split.
  - intros H. apply lang_seq_inv in H as (sign & l' & -> & Hs & H).
    apply lang_seq_inv in H as (l1 & rest & -> & Hd & Hr).
    apply lang_class_inv in Hd as (d & -> & Hd).
    apply lang_range_class in Hr as [Hlen Hall]; [| lia].
    exists sign, d, rest. repeat split; try assumption; try lia.
    apply lang_alt_inv in Hs as [Hs | Hs].
    + apply lang_class_inv in Hs as (c & -> & Hc).
      apply Ascii.eqb_eq in Hc as <-. now right.
    + apply lang_eps_inv in Hs. now left.
  - intros (sign & d & rest & -> & Hs & Hd & Hall & Hlen).
    apply lang_seq.
    + destruct Hs as [-> | ->].
      * apply lang_alt_r. constructor.
      * apply lang_alt_l. constructor. apply Ascii.eqb_refl.
    + apply (lang_seq (Class digit19) _ [d] rest); [now constructor |].
      apply lang_range_class; [lia | split; assumption].
Qed.

Lemma validatePhoneNumber_format s :
  validatePhoneNumber s = true <-> phone_format s.
Proof.
  unfold validatePhoneNumber, test, phone_format.
  rewrite matches_lang. apply lang_phoneRegex.
Qed.

Lemma newErrors_phoneNumber f :
  newErrors f !! "phoneNumber" =
  if String.eqb (phoneNumber f) EmptyString
  then Some "Phone number is required"
  else if validatePhoneNumber (phoneNumber f) then None
  else Some "Enter a valid phone number (e.g., +11234567890)".
Proof.
  unfold newErrors.
  destruct (String.eqb (phoneNumber f) EmptyString);
    destruct (validatePhoneNumber (phoneNumber f));
    destruct (String.eqb (inviteeName f) EmptyString);
    destruct (length (selectedSlots f) =? 0); simpl; by simplify_map_eq.
Qed.

Lemma newErrors_inviteeName f :
  newErrors f !! "inviteeName" =
  if String.eqb (inviteeName f) EmptyString
  then Some "Invitee name is required" else None.
Proof.
  unfold newErrors.
  destruct (String.eqb (phoneNumber f) EmptyString);
    destruct (validatePhoneNumber (phoneNumber f));
    destruct (String.eqb (inviteeName f) EmptyString);
    destruct (length (selectedSlots f) =? 0); simpl; by simplify_map_eq.
Qed.

Lemma newErrors_slots f :
  newErrors f !! "slots" =
  if length (selectedSlots f) =? 0
  then Some "Select at least one available time slot" else None.
Proof.
  unfold newErrors.
  destruct (String.eqb (phoneNumber f) EmptyString);
    destruct (validatePhoneNumber (phoneNumber f));
    destruct (String.eqb (inviteeName f) EmptyString);
    destruct (length (selectedSlots f) =? 0); simpl; by simplify_map_eq.
Qed.

Lemma empty_not_phone : validatePhoneNumber EmptyString = false.
Proof. reflexivity. Qed.

(** The returned flag of [validateForm]: no key was set. *)
Lemma validateForm_ok f :
  snd (validateForm f) = true <->
  validatePhoneNumber (phoneNumber f) = true /\
  inviteeName f <> EmptyString /\
  selectedSlots f <> [].
Proof.
  unfold validateForm. simpl. rewrite Nat.eqb_eq, map_size_empty_iff. split.
  - intros He.
    pose proof (newErrors_phoneNumber f) as Hp.
    pose proof (newErrors_inviteeName f) as Hn.
    pose proof (newErrors_slots f) as Hs.
    rewrite He, lookup_empty in Hp, Hn, Hs.
    destruct (String.eqb (phoneNumber f) EmptyString); [discriminate |].
    destruct (validatePhoneNumber (phoneNumber f)); [| discriminate].
    destruct (String.eqb (inviteeName f) EmptyString) eqn:En; [discriminate |].
    apply String.eqb_neq in En.
    destruct (selectedSlots f); [discriminate |].
    repeat split; [assumption | discriminate].
  - intros (Hp & Hn & Hs). unfold newErrors.
    apply String.eqb_neq in Hn. rewrite Hn, Hp.
    destruct (String.eqb (phoneNumber f) EmptyString) eqn:Ep.
    + apply String.eqb_eq in Ep. rewrite Ep, empty_not_phone in Hp. discriminate.
    + destruct (selectedSlots f); [congruence | reflexivity].
Qed.

End PhoneFacts.

(** ** ScheduleMeeting.js: the selected slots *)

Section SlotFacts.
Import ScheduleMeeting.

Lemma find_existsb {A} (p : A -> bool) l :
  List.find p l = None <-> existsb p l = false.
Proof.
  induction l as [| a l IH]; simpl; [tauto |].
  destruct (p a); simpl; [split; discriminate | exact IH].
Qed.

Lemma existsb_false_In {A} (p : A -> bool) l :
  existsb p l = false -> forall a, In a l -> p a = false.
Proof.
  induction l as [| b l IH]; simpl; [tauto |].
  intros H a [-> | Ha]; apply orb_false_iff in H as [Hb Hl]; auto.
Qed.

Lemma filter_drops_one {A} (p : A -> bool) l :
  existsb p l = true ->
  length (List.filter (fun a => negb (p a)) l) < length l.
Proof.
  induction l as [| a l IH]; simpl; [discriminate |].
  pose proof (List.filter_length_le (fun a => negb (p a)) l) as Hle.
  destruct (p a); simpl; intros H; [lia | apply IH in H; lia].
Qed.

Lemma filter_keeps_all {A} (p : A -> bool) l :
  existsb p l = false -> List.filter (fun a => negb (p a)) l = l.
Proof.
  induction l as [| a l IH]; simpl; [reflexivity |].
  intros H. apply orb_false_iff in H as [-> Hl]. simpl. now rewrite IH.
Qed.

Lemma existsb_filter_compat {A} (p q : A -> bool) l :
  (forall a, p a = true -> q a = true) ->
  existsb p (List.filter q l) = existsb p l.
Proof.
  intros Hpq. induction l as [| a l IH]; simpl; [reflexivity |].
  destruct (q a) eqn:Hq; simpl; [now rewrite IH |].
  destruct (p a) eqn:Hp; [| exact IH].
  apply Hpq in Hp. congruence.
Qed.

Lemma existsb_filter_out {A} (p : A -> bool) l :
  existsb p (List.filter (fun a => negb (p a)) l) = false.
Proof.
  induction l as [| a l IH]; simpl; [reflexivity |].
  destruct (p a) eqn:Hp; simpl; [exact IH | now rewrite Hp, IH].
Qed.

Lemma NoDup_map_filter {A B} (g : A -> B) (q : A -> bool) l :
  List.NoDup (map g l) -> List.NoDup (map g (List.filter q l)).
Proof.
  induction l as [| a l IH]; simpl; [auto |].
  intros H. apply NoDup_cons_iff in H as [Hn Hl].
  destruct (q a); simpl; [| auto].
  apply NoDup_cons_iff. split; [| auto].
  intros Hin. apply Hn. apply in_map_iff in Hin as (b & Hb & Hin).
  apply in_map_iff. exists b. split; [assumption |].
  apply filter_In in Hin. tauto.
Qed.

Lemma NoDup_snoc {A} (a : A) l : List.NoDup l -> ~ In a l -> List.NoDup (l ++ [a]).
Proof.
  induction l as [| b l IH]; simpl; intros Hl Ha.
  - constructor; [tauto | constructor].
  - apply NoDup_cons_iff in Hl as [Hb Hl]. apply NoDup_cons_iff. split.
    + rewrite in_app_iff. simpl. intros [H | [H | []]]; [tauto |]. subst. tauto.
    + apply IH; tauto.
Qed.

Lemma same_id_iff x s : same_id x s = true <-> id s = id x.
Proof. unfold same_id. apply String.eqb_eq. Qed.

Lemma existsb_same_id y x l :
  id y = id x -> existsb (same_id y) l = existsb (same_id x) l.
Proof.
  intros E. induction l as [| s l IH]; simpl; [reflexivity |].
  unfold same_id at 1 3. now rewrite E, IH.
Qed.

Lemma not_selected_fresh_id x f :
  isSelected x f = false -> ~ In (id x) (map id (selectedSlots f)).
Proof.
  intros H Hin. apply in_map_iff in Hin as (s & Hs & Hin).
  apply (existsb_false_In _ _ H) in Hin.
  apply same_id_iff in Hs. congruence.
Qed.

(** The three branches of [handleSlotSelect]. *)
Lemma handleSlotSelect_cases x f :
  (isSelected x f = true /\
   handleSlotSelect x f =
   setSelectedSlots (List.filter (fun s => negb (same_id x s)) (selectedSlots f)) f) \/
  (isSelected x f = false /\ length (selectedSlots f) < 5 /\
   handleSlotSelect x f = setSelectedSlots (selectedSlots f ++ [x]) f) \/
  (isSelected x f = false /\ 5 <= length (selectedSlots f) /\
   handleSlotSelect x f = f).
Proof.
  unfold handleSlotSelect, isSelected.
  destruct (List.find (same_id x) (selectedSlots f)) as [s |] eqn:Hf.
  - left. split; [| reflexivity].
    destruct (existsb (same_id x) (selectedSlots f)) eqn:He; [reflexivity |].
    apply find_existsb in He. congruence.
  - right. apply find_existsb in Hf. rewrite Hf.
    destruct (length (selectedSlots f) <? 5) eqn:Hlt.
    + left. apply Nat.ltb_lt in Hlt. auto.
    + right. apply Nat.ltb_ge in Hlt. auto.
Qed.

Lemma handleSlotSelect_length x f :
  length (selectedSlots f) <= 5 ->
  length (selectedSlots (handleSlotSelect x f)) <= 5.
Proof.
  intros Hlen.
  destruct (handleSlotSelect_cases x f) as [[_ ->] | [(_ & Hlt & ->) | (_ & _ & ->)]];
    simpl; [| rewrite length_app; simpl; lia | assumption].
  pose proof (List.filter_length_le (fun s => negb (same_id x s)) (selectedSlots f)).
  lia.
Qed.

Lemma select_all_length xs :
  forall f, length (selectedSlots f) <= 5 ->
            length (selectedSlots (select_all xs f)) <= 5.
Proof.
  induction xs as [| x xs IH]; intros f Hf; simpl; [assumption |].
  apply IH. now apply handleSlotSelect_length.
Qed.

Lemma handleSlotSelect_frame x f :
  handleSlotSelect x f = setSelectedSlots (selectedSlots (handleSlotSelect x f)) f.
Proof.
  destruct (handleSlotSelect_cases x f) as [[_ ->] | [(_ & _ & ->) | (_ & _ & ->)]];
    try reflexivity.
  now destruct f.
Qed.

(** Deselecting and selecting again: the slot is appended anew. *)
Lemma toggle_twice_selected x f :
  length (selectedSlots f) <= 5 -> isSelected x f = true ->
  handleSlotSelect x (handleSlotSelect x f) =
  setSelectedSlots
    (List.filter (fun s => negb (same_id x s)) (selectedSlots f) ++ [x]) f.
Proof.
  intros Hlen Hsel.
  destruct (handleSlotSelect_cases x f) as [[_ H1] | [(E & _) | (E & _)]];
    try congruence.
  rewrite H1.
  set (f1 := setSelectedSlots _ f).
  assert (Hout : isSelected x f1 = false) by apply existsb_filter_out.
  assert (Hlt : length (selectedSlots f1) < 5).
  { pose proof (filter_drops_one (same_id x) (selectedSlots f) Hsel). simpl. lia. }
  destruct (handleSlotSelect_cases x f1) as [[E _] | [(_ & _ & H2) | (_ & Hge & _)]];
    [congruence | | lia].
  rewrite H2. reflexivity.
Qed.

(** Selecting and deselecting again: nothing is left of the slot. *)
Lemma toggle_twice_unselected x f :
  isSelected x f = false -> handleSlotSelect x (handleSlotSelect x f) = f.
Proof.
  intros Hsel.
  destruct (handleSlotSelect_cases x f) as [[E _] | [(_ & Hlt & H1) | (_ & Hge & H1)]];
    [congruence | |].
  - rewrite H1. set (f1 := setSelectedSlots _ f).
    assert (Hin : isSelected x f1 = true).
    { unfold isSelected, f1. simpl. rewrite existsb_app. simpl.
      unfold same_id at 2. rewrite String.eqb_refl. now rewrite orb_true_r. }
    destruct (handleSlotSelect_cases x f1) as [[_ H2] | [(E & _) | (E & _)]];
      try congruence.
    rewrite H2. unfold f1. simpl.
    rewrite List.filter_app. simpl.
    unfold same_id at 2. rewrite String.eqb_refl. simpl.
    rewrite app_nil_r, filter_keeps_all by exact Hsel.
    now destruct f.
  - rewrite H1. exact H1.
Qed.

Lemma refilled_permutation x l :
  List.NoDup (map id l) -> In x l ->
  Permutation (List.filter (fun s => negb (same_id x s)) l ++ [x]) l.
Proof.
  induction l as [| a l IH]; simpl; [tauto |].
  intros Hnd Hin. apply NoDup_cons_iff in Hnd as [Ha Hnd].
  destruct Hin as [-> | Hin].
  - unfold same_id at 1. rewrite String.eqb_refl. simpl.
    rewrite filter_keeps_all.
    + apply Permutation_sym, Permutation_cons_append.
    + destruct (existsb (same_id x) l) eqn:He; [| reflexivity].
      exfalso. apply Ha. apply existsb_exists in He as (s & Hs & Hid).
      apply same_id_iff in Hid. rewrite <- Hid. now apply in_map.
  - assert (Hne : same_id x a = false).
    { destruct (same_id x a) eqn:E; [| reflexivity].
      apply same_id_iff in E. exfalso. apply Ha. rewrite E. now apply in_map. }
    rewrite Hne. simpl. apply perm_skip. now apply IH.
Qed.

End SlotFacts.

(** ** ScheduleMeeting.js: the claims *)

Section FormClaims.
Import ScheduleMeeting FormSamples.

(** C4, as the spec words it, fails at its own example: ['123'] is a digit
    from 1 to 9 followed by two digits, so it matches the pattern, passes
    [validatePhoneNumber], and [validateForm] records no phone error. *)
Lemma C4_phone_123_passes :
  validatePhoneNumber "123" = true /\
  errors (fst (validateForm (filled "123" "Jane" [slotA]))) !! "phoneNumber" = None /\
  snd (validateForm (filled "123" "Jane" [slotA])) = true.
Proof. vm_compute. auto. Qed.

(** C4 (amended): [validatePhoneNumber] accepts exactly the strings made of
    an optional [+], a first digit 1-9 and 1 to 14 further digits; a form
    whose phone number has that shape gets no phone error, and any other
    phone number makes [validateForm] fail and record a message under the
    key [phoneNumber]. ['abc'] and ['+0123'] fail, ['+11234567890'] passes. *)
Theorem C4_phone_validation (f : form) :
  (validatePhoneNumber (phoneNumber f) = true <-> phone_format (phoneNumber f)) /\
  (phone_format (phoneNumber f) ->
   errors (fst (validateForm f)) !! "phoneNumber" = None) /\
  (~ phone_format (phoneNumber f) ->
   snd (validateForm f) = false /\
   errors (fst (validateForm f)) !! "phoneNumber" =
     Some (if String.eqb (phoneNumber f) EmptyString
           then "Phone number is required"
           else "Enter a valid phone number (e.g., +11234567890)")) /\
  validatePhoneNumber "abc" = false /\
  validatePhoneNumber "+0123" = false /\
  validatePhoneNumber "+11234567890" = true.
Proof.
  split; [apply validatePhoneNumber_format |].
  split; [| split; [| now vm_compute]].
  - intros Hfmt. apply validatePhoneNumber_format in Hfmt.
    simpl. rewrite newErrors_phoneNumber, Hfmt.
    destruct (String.eqb (phoneNumber f) EmptyString) eqn:E; [| reflexivity].
    apply String.eqb_eq in E. rewrite E, empty_not_phone in Hfmt. discriminate.
  - intros Hbad.
    assert (Hv : validatePhoneNumber (phoneNumber f) = false).
    { destruct (validatePhoneNumber (phoneNumber f)) eqn:E; [| reflexivity].
      apply validatePhoneNumber_format in E. contradiction. }
    split.
    + destruct (snd (validateForm f)) eqn:E; [| reflexivity].
      apply validateForm_ok in E as [E _]. congruence.
    + simpl. rewrite newErrors_phoneNumber, Hv.
      now destruct (String.eqb (phoneNumber f) EmptyString).
Qed.

Lemma C4_phone_validation_witness :
  snd (validateForm (filled "+0123" "Jane" [slotA])) = false /\
  errors (fst (validateForm (filled "+0123" "Jane" [slotA]))) !! "phoneNumber" =
    Some "Enter a valid phone number (e.g., +11234567890)".
Proof.
  destruct (C4_phone_validation (filled "+0123" "Jane" [slotA]))
    as (Hiff & _ & Hbad & _).
  apply Hbad. intros Hfmt. apply Hiff in Hfmt. vm_compute in Hfmt. discriminate Hfmt.
Defined.

(** C5: however many slots are clicked, starting from the empty form, at
    most 5 are selected; one click never takes a selection of at most 5
    beyond 5; with exactly 5 selected, clicking a slot that is not among
    them returns the very same form state; and no click writes [errors]. *)
Theorem C5_selection_bounded :
  (forall xs, length (selectedSlots (select_all xs initial)) <= 5) /\
  (forall x f, length (selectedSlots f) <= 5 ->
               length (selectedSlots (handleSlotSelect x f)) <= 5) /\
  (forall x f, length (selectedSlots f) = 5 -> isSelected x f = false ->
               handleSlotSelect x f = f) /\
  (forall x f, errors (handleSlotSelect x f) = errors f).
Proof.
  split; [| split; [| split]].
  - intros xs. apply select_all_length. simpl. lia.
  - intros x f. apply handleSlotSelect_length.
  - intros x f Hlen Hsel.
    destruct (handleSlotSelect_cases x f) as [[E _] | [(_ & Hlt & _) | (_ & _ & H)]];
      [congruence | lia | exact H].
  - intros x f. now rewrite handleSlotSelect_frame.
Qed.

Lemma C5_selection_bounded_witness :
  handleSlotSelect slotF
    (filled "+15551234567" "Jane" [slotA; slotB; slotC; slotD; slotE]) =
  filled "+15551234567" "Jane" [slotA; slotB; slotC; slotD; slotE].
Proof.
  apply (proj1 (proj2 (proj2 C5_selection_bounded))); reflexivity.
Defined.

(** C6: with at most 5 slots selected, as in every state the form
    reaches, clicking a slot twice returns the selection set to what it
    was: every slot is selected afterwards exactly if it was before
    ([isSelected] is unchanged for every slot), and no other field is
    touched. As for the list that holds the set: if the slot was not
    selected the state is the original one; if it was, its entries are
    removed and the slot is appended at the end, which is a permutation of
    the original list when ids are distinct and the slot is the listed one. *)
Theorem C6_toggle_twice (x : formatted) (f : form) :
  length (selectedSlots f) <= 5 ->
  let f2 := handleSlotSelect x (handleSlotSelect x f) in
  (forall y, isSelected y f2 = isSelected y f) /\
  f2 = setSelectedSlots (selectedSlots f2) f /\
  (isSelected x f = false -> f2 = f) /\
  (isSelected x f = true ->
   selectedSlots f2 =
   List.filter (fun s => negb (same_id x s)) (selectedSlots f) ++ [x]) /\
  (List.NoDup (map id (selectedSlots f)) -> In x (selectedSlots f) ->
   Permutation (selectedSlots f2) (selectedSlots f)).
Proof.
  intros Hlen f2.
  destruct (isSelected x f) eqn:Hsel.
  - assert (E : f2 = setSelectedSlots
                  (List.filter (fun s => negb (same_id x s)) (selectedSlots f) ++ [x]) f)
      by (now apply toggle_twice_selected).
    rewrite E. simpl. repeat split; try discriminate.
    + intros y. unfold isSelected. simpl. rewrite existsb_app. simpl.
      rewrite orb_false_r.
      destruct (same_id y x) eqn:Hyx.
      * rewrite orb_true_r. apply same_id_iff in Hyx.
        unfold isSelected in Hsel.
        now rewrite (existsb_same_id y x), Hsel.
      * rewrite orb_false_r. apply existsb_filter_compat.
        intros s Hs. apply same_id_iff in Hs.
        destruct (same_id x s) eqn:Hxs; [| reflexivity].
        apply same_id_iff in Hxs.
        assert (same_id y x = true) by (apply same_id_iff; congruence).
        congruence.
    + intros Hnd Hin. now apply refilled_permutation.
  - assert (E : f2 = f) by (now apply toggle_twice_unselected).
    rewrite E. repeat split; try discriminate; try reflexivity.
    now destruct f.
Qed.

Lemma C6_toggle_twice_witness :
  let f := filled "+15551234567" "Jane" [slotA; slotB] in
  let f2 := handleSlotSelect slotA (handleSlotSelect slotA f) in
  isSelected slotA f2 = isSelected slotA f /\
  isSelected slotB f2 = isSelected slotB f /\
  isSelected slotC f2 = isSelected slotC f /\
  Permutation (selectedSlots f2) (selectedSlots f).
Proof.
  intros f f2.
  assert (Hlen : length (selectedSlots f) <= 5) by (vm_compute; lia).
  destruct (C6_toggle_twice slotA f Hlen) as (Hsel & _ & _ & _ & Hperm).
  repeat split; try apply Hsel.
  apply Hperm.
  - vm_compute.
    repeat (constructor;
            [simpl; intros H; repeat destruct H as [H | H];
             try discriminate H; assumption |]).
    constructor.
  - left. reflexivity.
Defined.

(** C9, as stated, fails: the name is tested with [!inviteeName] and never
    trimmed, so a name of three spaces records no error and the submission
    goes on to the placement request. *)
Lemma C9_blank_name_passes :
  errors (fst (validateForm (filled "+15551234567" "   " [slotA]))) !! "inviteeName" = None /\
  snd (validateForm (filled "+15551234567" "   " [slotA])) = true /\
  exists req, snd (handleSubmit (filled "+15551234567" "   " [slotA])) = Some req /\
              CallRequest.inviteeName req = "   ".
Proof.
  split; [reflexivity | split; [reflexivity |]].
  eexists. split; reflexivity.
Qed.

(** C9 (amended): [validateForm] records the invitee-name error exactly when
    the name is the empty string, and the submission is stopped exactly
    when the phone number has not the phone format, the name is the empty
    string, or no slot is selected. *)
Theorem C9_inviteeName_required (f : form) :
  (errors (fst (validateForm f)) !! "inviteeName" = Some "Invitee name is required"
   <-> inviteeName f = EmptyString) /\
  (errors (fst (validateForm f)) !! "inviteeName" = None
   <-> inviteeName f <> EmptyString) /\
  (snd (handleSubmit f) = None <->
   ~ (phone_format (phoneNumber f) /\ inviteeName f <> EmptyString /\
      selectedSlots f <> [])).
Proof.
  simpl. rewrite newErrors_inviteeName.
  split; [| split].
  - destruct (String.eqb (inviteeName f) EmptyString) eqn:E.
    + apply String.eqb_eq in E. tauto.
    + apply String.eqb_neq in E. split; [discriminate | contradiction].
  - destruct (String.eqb (inviteeName f) EmptyString) eqn:E.
    + apply String.eqb_eq in E. split; [discriminate | contradiction].
    + apply String.eqb_neq in E. tauto.
  - rewrite <- validatePhoneNumber_format, <- validateForm_ok.
    unfold handleSubmit.
    destruct (validateForm f) as [f1 ok]. simpl.
    destruct ok; simpl; split; try discriminate; try tauto.
Qed.

(** C10: if the selected slots have pairwise distinct ids, they still have
    after a click; and a click on a selected slot leaves no entry with its
    id. *)
Theorem C10_ids_stay_distinct (x : formatted) (f : form) :
  List.NoDup (map id (selectedSlots f)) ->
  List.NoDup (map id (selectedSlots (handleSlotSelect x f))) /\
  (isSelected x f = true ->
   forall s, In s (selectedSlots (handleSlotSelect x f)) -> id s <> id x).
Proof.
  intros Hnd.
  destruct (handleSlotSelect_cases x f) as [[Hs ->] | [(Hs & _ & ->) | (Hs & _ & ->)]];
    simpl.
  - split; [now apply NoDup_map_filter |].
    intros _ s Hin. apply filter_In in Hin as [_ Hne].
    apply negb_true_iff in Hne. intros Hid. apply same_id_iff in Hid. congruence.
  - split; [| rewrite Hs; discriminate].
    rewrite map_app. simpl. apply NoDup_snoc; [assumption |].
    now apply not_selected_fresh_id.
  - split; [assumption | rewrite Hs; discriminate].
Qed.

Lemma C10_ids_stay_distinct_witness :
  List.NoDup
    (map id (selectedSlots
               (handleSlotSelect slotC (filled "+15551234567" "Jane" [slotA; slotB])))).
Proof.
  apply (C10_ids_stay_distinct slotC (filled "+15551234567" "Jane" [slotA; slotB])).
  vm_compute.
  repeat (constructor; [simpl; intros H; repeat destruct H as [H | H]; try discriminate H; assumption |]).
  constructor.
Defined.

End FormClaims.

(** ** JavaScript objects: reading after writing *)

Section ObjectFacts.
Import JS.

Lemma lookup_app k l1 l2 :
  lookup k (l1 ++ l2) =
  match lookup k l2 with
  | Some v => Some v
  | None => lookup k l1
  end.
Proof.
  induction l1 as [| [k1 v1] l1 IH]; simpl.
  - now destruct (lookup k l2).
  - rewrite IH. destruct (lookup k l2); [reflexivity |].
    reflexivity.
Qed.

Lemma lookup_replace k v k' l :
  lookup k' (map (fun kv => if String.eqb (fst kv) k then (fst kv, v) else kv) l) =
  if String.eqb k k' then (if lookup k l is Some _ then Some v else None)
  else lookup k' l.
Proof.
  induction l as [| [k1 v1] l IH]; simpl.
  - now destruct (String.eqb k k').
  - destruct (String.eqb k1 k) eqn:E1; simpl; rewrite IH;
      destruct (String.eqb k k') eqn:Ekk.
    + apply String.eqb_eq in Ekk. subst k'. rewrite E1.
      now destruct (lookup k l).
    + apply String.eqb_eq in E1. subst k1. rewrite Ekk. reflexivity.
    + apply String.eqb_eq in Ekk. subst k'. rewrite E1.
      now destruct (lookup k l).
    + reflexivity.
Qed.

Lemma lookup_set k v k' props :
  lookup k' (set k v props) =
  if String.eqb k k' then Some v else lookup k' props.
Proof.
  unfold set. destruct (lookup k props) as [w |] eqn:Hk.
  - rewrite lookup_replace, Hk. reflexivity.
  - rewrite lookup_app. simpl.
    destruct (String.eqb k k') eqn:E; [reflexivity |].
    now destruct (lookup k' props).
Qed.

(** [Object.assign]: the source wins, the rest of the target stays. *)
Lemma lookup_assign k source :
  forall target,
    lookup k (assign target source) =
    match lookup k source with
    | Some v => Some v
    | None => lookup k target
    end.
Proof.
  unfold assign.
  induction source as [| [k1 v1] source IH]; intros target; simpl; [reflexivity |].
  rewrite IH. destruct (lookup k source); [reflexivity |].
  rewrite lookup_set. now destruct (String.eqb k1 k).
Qed.

Lemma lookup_spread2 k a b :
  lookup k (own_props (spread2 a b)) =
  match lookup k (own_props b) with
  | Some v => Some v
  | None => lookup k (own_props a)
  end.
Proof.
  simpl. rewrite !lookup_assign. simpl.
  now destruct (lookup k (own_props a)).
Qed.

End ObjectFacts.

(** ** mcpUtils.js: transcripts *)

Section TranscriptFacts.
Import JS McpUtils TranscriptRules Samples.

Lemma array_entry_normal e :
  nullish e = false -> array_entry e = Ret (normal_entry e).
Proof.
  intros He. unfold array_entry, normal_entry, first_truthy, or_else.
  destruct e; try discriminate He; simpl;
    repeat match goal with
           | |- context [truthy ?v] => destruct (truthy v) eqn:?; simpl
           end; reflexivity.
Qed.

Lemma array_entry_nullish e : nullish e = true -> array_entry e = Throw.
Proof. destruct e; try discriminate; reflexivity. Qed.

Lemma mapM_array_entry_normal items :
  forallb (fun e => negb (nullish e)) items = true ->
  mapM array_entry items = Ret (map normal_entry items).
Proof.
  induction items as [| e items IH]; simpl; [reflexivity |].
  intros H. apply andb_true_iff in H as [He Hitems].
  apply negb_true_iff in He.
  rewrite (array_entry_normal e He). simpl. now rewrite IH.
Qed.

Lemma mapM_array_entry_nullish items :
  existsb nullish items = true -> mapM array_entry items = Throw.
Proof.
  induction items as [| e items IH]; simpl; [discriminate |].
  destruct (nullish e) eqn:He; simpl; intros H.
  - now rewrite (array_entry_nullish e He).
  - rewrite (array_entry_normal e He). simpl. now rewrite IH.
Qed.

Lemma mapM_array_entry_cases items :
  mapM array_entry items = Ret (map normal_entry items) \/
  mapM array_entry items = Throw.
Proof.
  destruct (existsb nullish items) eqn:E.
  - right. now apply mapM_array_entry_nullish.
  - left. apply mapM_array_entry_normal.
    induction items as [| e items IH]; simpl in *; [reflexivity |].
    apply orb_false_iff in E as [-> E]. simpl. now apply IH.
Qed.

Variable JSON_parse : string -> option value.

Lemma format_array_cases v :
  (exists entries, format_array v = Ret (Arr entries)) \/ format_array v = Throw.
Proof.
  destruct v; simpl; eauto.
  destruct (mapM_array_entry_cases items) as [-> | ->]; simpl; eauto.
Qed.

Lemma formatTranscript_total t :
  exists entries, formatTranscript JSON_parse t = Ret (Arr entries).
Proof.
  unfold formatTranscript.
  destruct (negb (truthy t) || negb (is_string t)); [eauto |].
  destruct t; simpl;
    try (destruct (mapM_array_entry_cases items) as [-> | ->]; simpl); eauto.
  destruct (JSON_parse s) as [parsed |]; simpl; [| eauto].
  destruct (format_array_cases parsed) as [[entries ->] | ->]; simpl; eauto.
Qed.

Lemma formatTranscript_string s :
  s <> EmptyString ->
  formatTranscript JSON_parse (Str s) =
  match JSON_parse s with
  | Some parsed => try_catch (format_array parsed) (Ret (Arr []))
  | None => Ret (Arr (map line_entry (Str.split Str.nl s)))
  end.
Proof.
  intros Hs. unfold formatTranscript. simpl.
  apply String.eqb_neq in Hs. rewrite Hs. simpl.
  now destruct (JSON_parse s).
Qed.

Lemma get_prop v k : truthy v = true -> get v k = Ret (prop v k).
Proof. destruct v; simpl; try discriminate; reflexivity. Qed.

(** On a truthy payload the timeline is built unless the sentence of the
    completed event cannot be written. *)
Lemma generateEventsFromMcp_cases now d :
  truthy d = true ->
  (exists evs, generateEventsFromMcp now d = Ret (Arr evs)) \/
  generateEventsFromMcp now d = Throw.
Proof.
  intros H. unfold generateEventsFromMcp.
  rewrite !(get_prop d) by exact H. simpl.
  destruct (is_str (prop d "status") "completed" || truthy (prop d "end_time"));
    simpl; [| eauto].
  destruct (to_string _); simpl; eauto.
Qed.

Lemma generateEventsFromMcp_throws now d :
  truthy d = true ->
  (generateEventsFromMcp now d = Throw <->
   Timeline.completed_due d = true /\
   to_string (Timeline.duration_or_zero d) = Throw).
Proof.
  intros H. unfold generateEventsFromMcp, Timeline.completed_due,
    Timeline.duration_or_zero.
  rewrite !(get_prop d) by exact H. simpl.
  destruct (is_str (prop d "status") "completed" || truthy (prop d "end_time"));
    simpl.
  - destruct (to_string _); simpl; split; auto; try discriminate.
    intros [_ E]. discriminate E.
  - split; [discriminate |]. intros [E _]. discriminate E.
Qed.

(** The six fields of a normalised payload. *)
Lemma formatMcpCallData_fields now d evs :
  truthy d = true ->
  generateEventsFromMcp now d = Ret (Arr evs) ->
  exists entries,
    formatMcpCallData JSON_parse now d =
    Ret (Obj [("call_id", prop d "call_id"); ("status", prop d "status");
              ("duration_seconds", prop d "duration");
              ("credits_used", prop d "credits");
              ("transcript", Arr entries); ("events", Arr evs)]) /\
    (truthy (prop d "transcript") = false -> entries = []) /\
    (truthy (prop d "transcript") = true ->
     formatTranscript JSON_parse (prop d "transcript") = Ret (Arr entries)).
Proof.
  intros H Hev. unfold formatMcpCallData. rewrite H. simpl.
  rewrite !(get_prop d) by exact H. simpl. rewrite Hev.
  destruct (truthy (prop d "transcript")).
  - destruct (formatTranscript_total (prop d "transcript")) as [entries Hen].
    rewrite Hen. simpl. exists entries. repeat split; auto. discriminate.
  - simpl. exists []. repeat split; auto. discriminate.
Qed.

Lemma formatMcpCallData_falsy now d :
  truthy d = false -> formatMcpCallData JSON_parse now d = Ret Null.
Proof. intros H. unfold formatMcpCallData. now rewrite H. Qed.

(** The normaliser fails exactly where the timeline does. *)
Lemma formatMcpCallData_throws now d :
  formatMcpCallData JSON_parse now d = Throw <->
  truthy d = true /\ generateEventsFromMcp now d = Throw.
Proof.
  destruct (truthy d) eqn:H.
  - destruct (generateEventsFromMcp_cases now d H) as [[evs Hev] | Hev].
    + destruct (formatMcpCallData_fields now d evs H Hev) as (en & -> & _).
      rewrite Hev. split; [discriminate |]. intros [_ E]. discriminate E.
    + split; [auto |]. intros _.
      unfold formatMcpCallData. rewrite H. simpl.
      rewrite !(get_prop d) by exact H. simpl. rewrite Hev.
      destruct (truthy (prop d "transcript")); simpl; [| reflexivity].
      destruct (formatTranscript_total (prop d "transcript")) as [entries ->].
      reflexivity.
  - rewrite (formatMcpCallData_falsy now d H).
    split; [discriminate |]. intros [E _]. discriminate E.
Qed.

Lemma formatMcpCallData_ret now d formatted :
  truthy d = true ->
  formatMcpCallData JSON_parse now d = Ret formatted ->
  exists entries evs,
    generateEventsFromMcp now d = Ret (Arr evs) /\
    formatted =
    Obj [("call_id", prop d "call_id"); ("status", prop d "status");
         ("duration_seconds", prop d "duration");
         ("credits_used", prop d "credits");
         ("transcript", Arr entries); ("events", Arr evs)] /\
    (truthy (prop d "transcript") = false -> entries = []).
Proof.
  intros H Hf.
  destruct (generateEventsFromMcp_cases now d H) as [[evs Hev] | Hev].
  - destruct (formatMcpCallData_fields now d evs H Hev) as (en & E & Hen & _).
    rewrite E in Hf. injection Hf as <-. eauto 6.
  - assert (E : formatMcpCallData JSON_parse now d = Throw)
      by (apply formatMcpCallData_throws; auto).
    rewrite E in Hf. discriminate Hf.
Qed.

End TranscriptFacts.

(** ** mcpUtils.js: role prefixes of a plain-text line *)

Section PrefixFacts.
Import JS McpUtils TranscriptRules Samples.

Lemma chars_append a b : Str.chars (a +:+ b) = Str.chars a ++ Str.chars b.
Proof.
  unfold Str.chars. induction a as [| c a IH]; simpl; [reflexivity |].
  now rewrite IH.
Qed.

Lemma of_chars_chars s : Str.of_chars (Str.chars s) = s.
Proof. apply string_of_list_ascii_of_string. Qed.

Lemma chars_of_chars l : Str.chars (Str.of_chars l) = l.
Proof. apply list_ascii_of_string_of_list_ascii. Qed.

Lemma in_all_chars c : In c all_chars.
Proof.
  unfold all_chars. apply in_map_iff. exists (nat_of_ascii c). split.
  - apply ascii_nat_embedding.
  - apply in_seq. pose proof (nat_ascii_bounded c). lia.
Qed.

Lemma fold_case_lower c c' :
  fold_case c = fold_case c' -> Str.lower_char c = Str.lower_char c'.
Proof.
  intros H.
  assert (Hall : fold_refines_lower = true) by (vm_compute; reflexivity).
  unfold fold_refines_lower in Hall.
  rewrite forallb_forall in Hall. specialize (Hall c (in_all_chars c)).
  rewrite forallb_forall in Hall. specialize (Hall c' (in_all_chars c')).
  apply Ascii.eqb_eq in H. rewrite H in Hall. simpl in Hall.
  now apply Ascii.eqb_eq.
Qed.

Lemma same_letters_lower p q :
  same_letters p q -> map Str.lower_char (Str.chars p) = map Str.lower_char (Str.chars q).
Proof.
  unfold same_letters. generalize (Str.chars q) as lq.
  induction (Str.chars p) as [| c lp IH]; intros [| c' lq] H; simpl in *;
    try discriminate; [reflexivity |].
  injection H as Hc Hl. f_equal; [now apply fold_case_lower | now apply IH].
Qed.

Lemma starts_with_i_fold p l :
  starts_with_i p l = Str.prefix_chars (map fold_case p) (map fold_case l).
Proof.
  revert l. induction p as [| a p IH]; intros [| b l]; simpl; try reflexivity.
  now rewrite IH.
Qed.

Lemma same_letters_length p q :
  same_letters p q -> length (Str.chars p) = length (Str.chars q).
Proof.
  intros H. apply (f_equal (@length ascii)) in H. now rewrite !length_map in H.
Qed.

Lemma skipn_prefix {A} (l1 l2 : list A) n :
  length l1 = n -> skipn n (l1 ++ l2) = l2.
Proof.
  intros <-. induction l1 as [| a l1 IH]; simpl; [reflexivity | exact IH].
Qed.

(** The text of a line that starts with a role prefix, in any case. *)
Lemma strip_role_prefix_app p rest :
  same_letters p "Agent:" \/ same_letters p "User:" \/ same_letters p "AI:" ->
  strip_role_prefix (p +:+ rest) = rest.
Proof.
  intros H. unfold strip_role_prefix.
  rewrite chars_append, !starts_with_i_fold, map_app.
  destruct H as [H | [H | H]];
    pose proof (same_letters_length _ _ H) as Hlen;
    unfold same_letters in H; rewrite H; simpl;
    rewrite skipn_prefix by exact Hlen; apply of_chars_chars.
Qed.

Lemma lower_includes p q needle rest :
  same_letters p q ->
  Str.prefix_chars (Str.chars needle) (map Str.lower_char (Str.chars q)) = true ->
  Str.includes needle (Str.toLowerCase (p +:+ rest)) = true.
Proof.
  intros H Hpre. unfold Str.includes, Str.toLowerCase.
  rewrite chars_of_chars, chars_append, map_app, (same_letters_lower _ _ H).
  revert Hpre. generalize (map Str.lower_char (Str.chars q)) as lq.
  generalize (map Str.lower_char (Str.chars rest)) as lr.
  generalize (Str.chars needle) as ln.
  intros ln lr lq Hpre.
  assert (Hp : Str.prefix_chars ln (lq ++ lr) = true).
  { revert lq Hpre. induction ln as [| a ln IH]; intros [| b lq] Hpre; simpl in *;
      try reflexivity; try discriminate.
    apply andb_true_iff in Hpre as [-> Hpre]. simpl. now apply IH. }
  destruct (lq ++ lr); simpl; simpl in Hp; now rewrite Hp.
Qed.

Lemma line_entry_role line :
  exists role,
    line_entry line = entry (Str role) (Str (Str.trim (strip_role_prefix line))) /\
    (role = "agent" \/ role = "user") /\
    (role = "agent" <->
     Str.includes "agent:" (Str.toLowerCase line) ||
     Str.includes "ai:" (Str.toLowerCase line) = true).
Proof.
  unfold line_entry.
  destruct (Str.includes "agent:" (Str.toLowerCase line) ||
            Str.includes "ai:" (Str.toLowerCase line)); eexists;
    (split; [reflexivity |]); split; auto.
  - tauto.
  - split; discriminate.
Qed.

Lemma line_entry_agent p rest :
  same_letters p "Agent:" \/ same_letters p "AI:" ->
  line_entry (p +:+ rest) = entry (Str "agent") (Str (Str.trim rest)).
Proof.
  intros H. unfold line_entry.
  rewrite strip_role_prefix_app by tauto.
  destruct H as [H | H].
  - rewrite (lower_includes p "Agent:" "agent:" rest H) by reflexivity.
    reflexivity.
  - rewrite (lower_includes p "AI:" "ai:" rest H) by reflexivity.
    now rewrite orb_true_r.
Qed.

End PrefixFacts.

(** ** mcpUtils.js: the claims *)

Section NormalizationClaims.
Import JS McpUtils TranscriptRules Samples.

(** C3, as stated, fails on a JSON-encoded transcript: the role of a
    decoded entry is taken over as it is, and an entry without [role] and
    [speaker] gets the role ['unknown'], which is neither ['agent'] nor
    ['user']. *)
Lemma C3_role_may_be_unknown :
  Json.parse roleless_json = Some (Arr [Obj [("text", Str "hi")]]) /\
  formatTranscript Json.parse (Str roleless_json) =
    Ret (Arr [Obj [("role", Str "unknown"); ("text", Str "hi")]]).
Proof. vm_compute. auto. Qed.

(** C3 (amended): for any [JSON.parse], [formatTranscript] never throws and
    always yields a sequence. A non-empty string that is not JSON is read
    line by line: the role is ['agent'] when the lower-cased line contains
    ['agent:'] or ['ai:'] and ['user'] otherwise, the text is the line
    without a leading [Agent:], [User:] or [AI:] (in any case), trimmed. A
    string that decodes to an array yields one record per entry, with the
    entry's [role], else [speaker], else ['unknown'], and its [text], else
    [content], else the empty string; the sequence is empty when an entry
    is [null]. A string that decodes to something else yields the empty
    sequence, and so does an absent or empty transcript. In the payload
    that [formatMcpCallData] returns, [transcript] is such a sequence, the
    empty one for a record without transcript. *)
Theorem C3_transcript_normalization (JSON_parse : string -> option value) :
  (forall t, exists entries, formatTranscript JSON_parse t = Ret (Arr entries)) /\
  (forall s, s <> EmptyString -> JSON_parse s = None ->
     formatTranscript JSON_parse (Str s) =
     Ret (Arr (map line_entry (Str.split Str.nl s)))) /\
  (forall line, exists role,
     line_entry line = entry (Str role) (Str (Str.trim (strip_role_prefix line))) /\
     (role = "agent" \/ role = "user") /\
     (role = "agent" <->
      Str.includes "agent:" (Str.toLowerCase line) ||
      Str.includes "ai:" (Str.toLowerCase line) = true)) /\
  (forall p rest,
     same_letters p "Agent:" \/ same_letters p "User:" \/ same_letters p "AI:" ->
     strip_role_prefix (p +:+ rest) = rest) /\
  (forall p rest,
     same_letters p "Agent:" \/ same_letters p "AI:" ->
     line_entry (p +:+ rest) = entry (Str "agent") (Str (Str.trim rest))) /\
  (forall s items, s <> EmptyString -> JSON_parse s = Some (Arr items) ->
     formatTranscript JSON_parse (Str s) =
     Ret (Arr (if existsb nullish items then [] else map normal_entry items))) /\
  (forall s v, JSON_parse s = Some v -> isArray v = false ->
     formatTranscript JSON_parse (Str s) = Ret (Arr [])) /\
  (forall t, truthy t = false -> formatTranscript JSON_parse t = Ret (Arr [])) /\
  (forall now mcpData transcript events,
     truthy mcpData = true -> get mcpData "transcript" = Ret transcript ->
     generateEventsFromMcp now mcpData = Ret (Arr events) ->
     exists formatted entries,
       formatMcpCallData JSON_parse now mcpData = Ret formatted /\
       get formatted "transcript" = Ret (Arr entries) /\
       (truthy transcript = false -> entries = [])).
Proof.
  split; [apply formatTranscript_total |].
  split.
  { intros s Hs Hp. rewrite formatTranscript_string by assumption. now rewrite Hp. }
  split; [apply line_entry_role |].
  split; [apply strip_role_prefix_app |].
  split; [apply line_entry_agent |].
  split.
  { intros s items Hs Hp. rewrite formatTranscript_string by assumption.
    rewrite Hp. simpl.
    destruct (existsb nullish items) eqn:E.
    - now rewrite mapM_array_entry_nullish.
    - rewrite mapM_array_entry_normal; [reflexivity |].
      clear Hp. induction items as [| e items IH]; simpl in *; [reflexivity |].
      apply orb_false_iff in E as [-> E]. simpl. now apply IH. }
  split.
  { intros s v Hp Hv.
    destruct (String.eqb s EmptyString) eqn:Es.
    - apply String.eqb_eq in Es. subst s. reflexivity.
    - apply String.eqb_neq in Es. rewrite formatTranscript_string by assumption.
      rewrite Hp. now destruct v. }
  split.
  { intros t Ht. unfold formatTranscript. now rewrite Ht. }
  intros now mcpData transcript events Hm Hget Hev.
  rewrite (get_prop mcpData "transcript" Hm) in Hget. injection Hget as <-.
  destruct (formatMcpCallData_fields JSON_parse now mcpData events Hm Hev)
    as (entries & Hf & Hnil & _).
  eexists. exists entries. split; [exact Hf |]. split; [reflexivity | exact Hnil].
Qed.

Lemma C3_transcript_normalization_witness :
  formatTranscript Json.parse (Str two_lines) =
    Ret (Arr [entry (Str "agent") (Str "Hello");
              entry (Str "user") (Str "Hi there")]) /\
  formatTranscript Json.parse (Str dialogue_json) =
    Ret (Arr [entry (Str "agent") (Str "Hello");
              entry (Str "user") (Str "Hi")]).
Proof.
  destruct (C3_transcript_normalization Json.parse)
    as (_ & Hplain & _ & _ & _ & Harray & _).
  split.
  - rewrite Hplain; [reflexivity | discriminate | reflexivity].
  - rewrite (Harray dialogue_json
               [Obj [("speaker", Str "agent"); ("content", Str "Hello")];
                Obj [("role", Str "user"); ("text", Str "Hi")]]);
      [reflexivity | discriminate | reflexivity].
Defined.

End NormalizationClaims.

(** ** useCallStatus: what a delivery can change *)

Section HookFacts.
Import JS McpUtils UseCallStatus Deliveries.

Variable JSON_parse : string -> option value.
Variable window_blandmcp : blandmcp.
Variable callId : string.

Local Abbreviation step := (UseCallStatus.step JSON_parse window_blandmcp callId).
Local Abbreviation steps := (UseCallStatus.steps JSON_parse window_blandmcp callId).
Local Abbreviation mount := (UseCallStatus.mount window_blandmcp callId).
Local Abbreviation cleanup := (UseCallStatus.cleanup window_blandmcp callId).
Local Abbreviation fetchCallStatus := (UseCallStatus.fetchCallStatus callId).
Local Abbreviation handleMcpUpdate := (UseCallStatus.handleMcpUpdate callId).
Local Abbreviation handleMcpUpdate_settled :=
  (UseCallStatus.handleMcpUpdate_settled JSON_parse callId).

Lemma settled_interval response st :
  intervalLive (fetchCallStatus_settled response st) =
  intervalLive st &&
  negb (match response with Some data => terminal data | None => false end).
Proof.
  unfold fetchCallStatus_settled, terminal.
  destruct response as [data |]; simpl; [| now rewrite andb_true_r].
  destruct (get data "status") as [status |]; simpl; [| now rewrite andb_true_r].
  destruct (is_str status "completed" || is_str status "error"); simpl;
    [now rewrite andb_false_r | now rewrite andb_true_r].
Qed.

Lemma settled_frame response st :
  listener (fetchCallStatus_settled response st) = listener st /\
  detailing (fetchCallStatus_settled response st) = detailing st /\
  fetched (fetchCallStatus_settled response st) = fetched st /\
  usingMcp (fetchCallStatus_settled response st) = usingMcp st /\
  fetching (fetchCallStatus_settled response st) = pred (fetching st).
Proof.
  unfold fetchCallStatus_settled.
  destruct response as [data |]; simpl; [| tauto].
  destruct (get data "status") as [status |]; simpl; [| tauto].
  destruct (is_str status "completed" || is_str status "error"); simpl; tauto.
Qed.

Lemma settled_callData response st :
  callData (fetchCallStatus_settled response st) =
  match response with Some data => data | None => callData st end.
Proof.
  unfold fetchCallStatus_settled.
  destruct response as [data |]; simpl; [| reflexivity].
  destruct (get data "status") as [status |]; simpl; [| reflexivity].
  now destruct (is_str status "completed" || is_str status "error").
Qed.

Lemma settled_failure st :
  error (fetchCallStatus_settled None st) = Some "Unable to fetch call status".
Proof. reflexivity. Qed.

Lemma fetchCallStatus_frame st :
  callData (fetchCallStatus st) = callData st /\
  error (fetchCallStatus st) = error st /\
  usingMcp (fetchCallStatus st) = usingMcp st /\
  intervalLive (fetchCallStatus st) = intervalLive st /\
  listener (fetchCallStatus st) = listener st /\
  detailing (fetchCallStatus st) = detailing st.
Proof.
  unfold UseCallStatus.fetchCallStatus.
  destruct (String.eqb callId EmptyString); simpl; tauto.
Qed.

Lemma fetchCallStatus_sends st :
  callId <> EmptyString ->
  fetched (fetchCallStatus st) = S (fetched st) /\
  fetching (fetchCallStatus st) = S (fetching st).
Proof.
  intros H. apply String.eqb_neq in H.
  unfold UseCallStatus.fetchCallStatus. rewrite H. simpl. tauto.
Qed.

Lemma handleMcpUpdate_frame mcpEvent st :
  callData (handleMcpUpdate mcpEvent st) = callData st /\
  error (handleMcpUpdate mcpEvent st) = error st /\
  usingMcp (handleMcpUpdate mcpEvent st) = usingMcp st /\
  intervalLive (handleMcpUpdate mcpEvent st) = intervalLive st /\
  listener (handleMcpUpdate mcpEvent st) = listener st /\
  fetching (handleMcpUpdate mcpEvent st) = fetching st /\
  fetched (handleMcpUpdate mcpEvent st) = fetched st.
Proof.
  unfold UseCallStatus.handleMcpUpdate.
  destruct (truthy mcpEvent); [| tauto].
  destruct (get mcpEvent "call_id") as [c |]; [| tauto].
  destruct (is_str c callId); simpl; tauto.
Qed.

(** A push update whose record is normalised is merged. *)
Lemma handleMcpUpdate_settled_merge mcpData now st formatted :
  formatMcpCallData JSON_parse now mcpData = Ret formatted ->
  handleMcpUpdate_settled (Some mcpData) now st =
  setError None
    (setCallData (spread2 (callData st) formatted) (details_arrived st)).
Proof.
  intros Hf. unfold UseCallStatus.handleMcpUpdate_settled. now rewrite Hf.
Qed.

(** One whose record is not, or whose request is rejected, goes to the
    backend. *)
Lemma handleMcpUpdate_settled_fallback details now st :
  falls_back JSON_parse (DetailsSettle details now) = true ->
  handleMcpUpdate_settled details now st = fetchCallStatus (details_arrived st).
Proof.
  unfold UseCallStatus.handleMcpUpdate_settled. simpl.
  destruct details as [mcpData |]; [| reflexivity].
  destruct (formatMcpCallData JSON_parse now mcpData); [discriminate | reflexivity].
Qed.

Lemma handleMcpUpdate_settled_cases details now st :
  (exists mcpData formatted,
     details = Some mcpData /\
     formatMcpCallData JSON_parse now mcpData = Ret formatted /\
     falls_back JSON_parse (DetailsSettle details now) = false /\
     handleMcpUpdate_settled details now st =
     setError None
       (setCallData (spread2 (callData st) formatted) (details_arrived st))) \/
  (falls_back JSON_parse (DetailsSettle details now) = true /\
   handleMcpUpdate_settled details now st = fetchCallStatus (details_arrived st)).
Proof.
  destruct (falls_back JSON_parse (DetailsSettle details now)) eqn:E.
  - right. split; [reflexivity |]. now apply handleMcpUpdate_settled_fallback.
  - left. simpl in E. destruct details as [mcpData |]; [| discriminate].
    destruct (formatMcpCallData JSON_parse now mcpData) as [formatted |] eqn:Hf;
      [| discriminate].
    exists mcpData, formatted. repeat split; auto.
    now apply handleMcpUpdate_settled_merge.
Qed.

Lemma handleMcpUpdate_settled_frame details now st :
  intervalLive (handleMcpUpdate_settled details now st) = intervalLive st /\
  listener (handleMcpUpdate_settled details now st) = listener st /\
  usingMcp (handleMcpUpdate_settled details now st) = usingMcp st.
Proof.
  destruct (handleMcpUpdate_settled_cases details now st)
    as [(mcpData & formatted & _ & _ & _ & ->) | (_ & ->)].
  - simpl. tauto.
  - destruct (fetchCallStatus_frame (details_arrived st)) as (_ & _ & -> & -> & -> & _).
    simpl. tauto.
Qed.

Lemma cleanup_frame st :
  callData (cleanup st) = callData st /\
  error (cleanup st) = error st /\
  usingMcp (cleanup st) = usingMcp st /\
  fetching (cleanup st) = fetching st /\
  fetched (cleanup st) = fetched st /\
  detailing (cleanup st) = detailing st /\
  (intervalLive st = false -> intervalLive (cleanup st) = false) /\
  (listener st = false -> listener (cleanup st) = false).
Proof.
  unfold UseCallStatus.cleanup.
  destruct (String.eqb callId EmptyString); [tauto |].
  destruct window_blandmcp as [| | reg unreg]; simpl.
  - destruct (intervalLive st) eqn:E; simpl; repeat split; auto.
  - destruct (intervalLive st) eqn:E; simpl; repeat split; auto.
  - destruct unreg; simpl; tauto.
Qed.

(** Once quiet, nothing is sent any more; and with no request under way
    the snapshot stays what it is. *)
Lemma step_quiet st ev st' :
  step st ev st' -> quiet st ->
  quiet st' /\ fetched st' = fetched st /\ usingMcp st' = usingMcp st /\
  fetching st' <= fetching st /\
  (fetching st = 0 -> callData st' = callData st).
Proof.
  intros Hstep (Hi & Hl & Hd). unfold quiet.
  destruct Hstep as [st Hlive | st response Hpend | st mcpEvent Hreg
                    | st details now Hpend | st]; try congruence; try lia.
  - destruct (settled_frame response st) as (-> & -> & -> & -> & ->).
    rewrite settled_interval, Hi. simpl. repeat split; try assumption; lia.
  - destruct (cleanup_frame st) as (-> & _ & -> & -> & -> & -> & Hi' & Hl').
    repeat split; auto.
Qed.

Lemma steps_quiet st evs st' :
  steps st evs st' -> quiet st ->
  quiet st' /\ fetched st' = fetched st /\ usingMcp st' = usingMcp st /\
  fetching st' <= fetching st /\
  (fetching st = 0 -> callData st' = callData st).
Proof.
  induction 1 as [st | st ev st1 evs st2 Hstep _ IH]; intros Hq.
  - repeat split; try apply Hq; auto.
  - destruct (step_quiet _ _ _ Hstep Hq) as (Hq1 & Hf1 & Hu1 & Hle1 & Hc1).
    destruct (IH Hq1) as (Hq2 & Hf2 & Hu2 & Hle2 & Hc2).
    repeat split; try apply Hq2; try congruence; try lia.
    intros H0. rewrite Hc2 by lia. auto.
Qed.

(** In a run that started without listener, none is ever registered. *)
Lemma step_unsubscribed st ev st' :
  step st ev st' -> listener st = false /\ detailing st = 0 ->
  listener st' = false /\ detailing st' = 0.
Proof.
  intros Hstep [Hl Hd].
  destruct Hstep as [st Hlive | st response Hpend | st mcpEvent Hreg
                    | st details now Hpend | st]; try congruence; try lia.
  - destruct (fetchCallStatus_frame st) as (_ & _ & _ & _ & -> & ->). auto.
  - destruct (settled_frame response st) as (-> & -> & _). auto.
  - destruct (cleanup_frame st) as (_ & _ & _ & _ & _ & -> & _ & Hl'). auto.
Qed.

Lemma steps_unsubscribed st evs st' :
  steps st evs st' -> listener st = false /\ detailing st = 0 ->
  listener st' = false /\ detailing st' = 0.
Proof.
  induction 1 as [st | st ev st1 evs st2 Hstep _ IH]; intros H; [assumption |].
  apply IH. exact (step_unsubscribed _ _ _ Hstep H).
Qed.

(** What can stop the interval. *)
Lemma step_stops_interval st ev st' :
  step st ev st' -> intervalLive st = true -> intervalLive st' = false ->
  ev = Unmounts \/
  exists data, ev = StatusSettles (Some data) /\ terminal data = true.
Proof.
  intros Hstep Hon Hoff.
  destruct Hstep as [st Hlive | st response Hpend | st mcpEvent Hreg
                    | st details now Hpend | st].
  - destruct (fetchCallStatus_frame st) as (_ & _ & _ & E & _). congruence.
  - rewrite settled_interval, Hon in Hoff. simpl in Hoff.
    destruct response as [data |]; [| discriminate].
    right. exists data. split; [reflexivity |].
    now destruct (terminal data).
  - destruct (handleMcpUpdate_frame mcpEvent st) as (_ & _ & _ & E & _). congruence.
  - destruct (handleMcpUpdate_settled_frame details now st) as (E & _). congruence.
  - now left.
Qed.

(** Short of those deliveries a live interval stays live. *)
Lemma steps_live st evs st' :
  steps st evs st' -> intervalLive st = true ->
  existsb stops_polling evs = false -> intervalLive st' = true.
Proof.
  induction 1 as [st | st ev st1 evs st2 Hstep _ IH]; intros Hlive Hno;
    [assumption |].
  simpl in Hno. apply orb_false_iff in Hno as [Hev Hno].
  apply IH; [| exact Hno].
  destruct (intervalLive st1) eqn:E; [reflexivity |].
  destruct (step_stops_interval _ _ _ Hstep Hlive E) as [-> | (data & -> & Ht)];
    simpl in Hev; congruence.
Qed.

(** With nothing set up and nothing under way, only the unmounting can be
    delivered. *)
Lemma step_quiet_idle st ev st' :
  step st ev st' -> quiet st -> fetching st = 0 -> ev = Unmounts.
Proof.
  intros Hstep (Hi & Hl & Hd) Hp.
  destruct Hstep; try congruence; try lia.
Qed.

Lemma steps_app st evs1 st1 evs2 st2 :
  steps st evs1 st1 -> steps st1 evs2 st2 -> steps st (evs1 ++ evs2) st2.
Proof.
  induction 1 as [st | st ev st' evs st1 Hstep _ IH]; intros H2; simpl;
    [assumption |].
  econstructor; [exact Hstep | now apply IH].
Qed.

(** The run function follows the step relation. *)
Lemma deliver_step ev st st' :
  deliver JSON_parse window_blandmcp callId ev st = Some st' -> step st ev st'.
Proof.
  destruct ev as [| response | mcpEvent | details now |]; simpl.
  - destruct (intervalLive st) eqn:E; [| discriminate].
    intros [= <-]. now constructor.
  - destruct (0 <? fetching st) eqn:E; [| discriminate].
    intros [= <-]. constructor. now apply Nat.ltb_lt.
  - destruct (listener st) eqn:E; [| discriminate].
    intros [= <-]. now constructor.
  - destruct (0 <? detailing st) eqn:E; [| discriminate].
    intros [= <-]. constructor. now apply Nat.ltb_lt.
  - intros [= <-]. constructor.
Qed.

Lemma run_steps evs :
  forall st st',
    run JSON_parse window_blandmcp callId evs st = Some st' -> steps st evs st'.
Proof.
  induction evs as [| ev evs IH]; intros st st'; simpl.
  - intros [= <-]. constructor.
  - destruct (deliver JSON_parse window_blandmcp callId ev st) as [st1 |] eqn:E;
      [| discriminate].
    intros H. apply (steps_cons _ _ _ st ev st1); [exact (deliver_step _ _ _ E) |].
    now apply IH.
Qed.

(** Rounds of failure and retry: the loop goes on. *)
Lemma hook_failing_rounds n :
  forall st,
    callId <> EmptyString ->
    intervalLive st = true -> 0 < fetching st ->
    exists st',
      steps st (Samples.failing_rounds (S n)) st' /\
      error st' = Some "Unable to fetch call status" /\
      intervalLive st' = true /\
      fetched st' = fetched st + S n /\
      callData st' = callData st.
Proof.
  induction n as [| n IH]; intros st Hid Hlive Hpend.
  - set (st1 := fetchCallStatus_settled None st).
    assert (Hlive1 : intervalLive st1 = true)
      by (unfold st1; rewrite settled_interval, Hlive; reflexivity).
    exists (fetchCallStatus st1).
    destruct (fetchCallStatus_frame st1) as (Hc & He & _ & Hi & _).
    destruct (fetchCallStatus_sends st1 Hid) as (Hf & _).
    destruct (settled_frame None st) as (_ & _ & Hf1 & _).
    split.
    { simpl. apply (steps_cons _ _ _ st _ st1); [now constructor |].
      apply (steps_cons _ _ _ st1 _ (fetchCallStatus st1)); [now constructor |].
      constructor. }
    rewrite He, Hi, Hf, Hc. unfold st1. rewrite Hf1, settled_callData.
    repeat split; try assumption. lia.
  - set (st1 := fetchCallStatus_settled None st).
    assert (Hlive1 : intervalLive st1 = true)
      by (unfold st1; rewrite settled_interval, Hlive; reflexivity).
    set (st2 := fetchCallStatus st1).
    destruct (fetchCallStatus_frame st1) as (Hc & He & _ & Hi & _).
    destruct (fetchCallStatus_sends st1 Hid) as (Hf & Hp).
    destruct (settled_frame None st) as (_ & _ & Hf1 & _).
    destruct (IH st2 Hid) as (st' & Hrun & He' & Hi' & Hf' & Hc').
    { unfold st2. congruence. }
    { unfold st2. rewrite Hp. lia. }
    exists st'. split.
    { change (Samples.failing_rounds (S (S n)))
        with (StatusSettles None :: TimerFires :: Samples.failing_rounds (S n)).
      apply (steps_cons _ _ _ st _ st1); [now constructor |].
      apply (steps_cons _ _ _ st1 _ st2); [now constructor | exact Hrun]. }
    repeat split; try assumption.
    + rewrite Hf'. unfold st2. rewrite Hf. unfold st1. rewrite Hf1. lia.
    + rewrite Hc'. unfold st2. rewrite Hc. unfold st1. now rewrite settled_callData.
Qed.

End HookFacts.

(** ** CallStatus.js: what a delivery can change *)

Section ViewFacts.
Import JS CallStatus.

Variable callId : string.

Local Abbreviation step := (CallStatus.step callId).
Local Abbreviation steps := (CallStatus.steps callId).
Local Abbreviation fetchCallStatus := (CallStatus.fetchCallStatus callId).
Local Abbreviation tick := (CallStatus.tick callId).

Lemma view_settled_interval response st :
  intervalLive (fetchCallStatus_settled response st) =
  intervalLive st &&
  negb (match response with Some data => terminal data | None => false end).
Proof.
  unfold fetchCallStatus_settled, terminal.
  destruct response as [data |]; simpl; [| now rewrite andb_true_r].
  destruct (get data "status") as [status |]; simpl; [| now rewrite andb_true_r].
  destruct (is_str status "completed" || is_str status "error"); simpl;
    [now rewrite andb_false_r | now rewrite andb_true_r].
Qed.

Lemma view_settled_frame response st :
  fetched (fetchCallStatus_settled response st) = fetched st /\
  refreshCount (fetchCallStatus_settled response st) = refreshCount st /\
  fetching (fetchCallStatus_settled response st) = pred (fetching st).
Proof.
  unfold fetchCallStatus_settled.
  destruct response as [data |]; simpl; [| tauto].
  destruct (get data "status") as [status |]; simpl; [| tauto].
  destruct (is_str status "completed" || is_str status "error"); simpl; tauto.
Qed.

Lemma view_settled_callData response st :
  callData (fetchCallStatus_settled response st) =
  match response with Some data => data | None => callData st end.
Proof.
  unfold fetchCallStatus_settled.
  destruct response as [data |]; simpl; [| reflexivity].
  destruct (get data "status") as [status |]; simpl; [| reflexivity].
  now destruct (is_str status "completed" || is_str status "error").
Qed.

Lemma view_tick_frame st :
  callData (tick st) = callData st /\
  error (tick st) = error st /\
  intervalLive (tick st) = intervalLive st.
Proof.
  unfold CallStatus.tick, CallStatus.fetchCallStatus.
  destruct (String.eqb callId EmptyString); simpl; tauto.
Qed.

Lemma view_tick_sends st :
  callId <> EmptyString ->
  fetched (tick st) = S (fetched st) /\ fetching (tick st) = S (fetching st).
Proof.
  intros H. apply String.eqb_neq in H.
  unfold CallStatus.tick, CallStatus.fetchCallStatus. rewrite H. simpl. tauto.
Qed.

Lemma view_step_quiet st ev st' :
  step st ev st' -> intervalLive st = false ->
  intervalLive st' = false /\ fetched st' = fetched st /\
  fetching st' <= fetching st /\
  (fetching st = 0 -> callData st' = callData st).
Proof.
  intros Hstep Hi.
  destruct Hstep as [st Hlive | st response Hpend | st]; try congruence.
  - destruct (view_settled_frame response st) as (-> & _ & ->).
    rewrite view_settled_interval, Hi. simpl. repeat split; lia.
  - unfold cleanup. rewrite Hi. auto.
Qed.

Lemma view_steps_quiet st evs st' :
  steps st evs st' -> intervalLive st = false ->
  intervalLive st' = false /\ fetched st' = fetched st /\
  fetching st' <= fetching st /\
  (fetching st = 0 -> callData st' = callData st).
Proof.
  induction 1 as [st | st ev st1 evs st2 Hstep _ IH]; intros Hq.
  - auto.
  - destruct (view_step_quiet _ _ _ Hstep Hq) as (Hq1 & Hf1 & Hle1 & Hc1).
    destruct (IH Hq1) as (Hq2 & Hf2 & Hle2 & Hc2).
    repeat split; try assumption; try congruence; try lia.
    intros H0. rewrite Hc2 by lia. auto.
Qed.

Lemma view_step_stops_interval st ev st' :
  step st ev st' -> intervalLive st = true -> intervalLive st' = false ->
  ev = Unmounts \/
  exists data, ev = StatusSettles (Some data) /\ terminal data = true.
Proof.
  intros Hstep Hon Hoff.
  destruct Hstep as [st Hlive | st response Hpend | st].
  - destruct (view_tick_frame st) as (_ & _ & E). congruence.
  - rewrite view_settled_interval, Hon in Hoff. simpl in Hoff.
    destruct response as [data |]; [| discriminate].
    right. exists data. split; [reflexivity |].
    now destruct (terminal data).
  - now left.
Qed.

Lemma view_steps_live st evs st' :
  steps st evs st' -> intervalLive st = true ->
  existsb Deliveries.stops_polling evs = false -> intervalLive st' = true.
Proof.
  induction 1 as [st | st ev st1 evs st2 Hstep _ IH]; intros Hlive Hno;
    [assumption |].
  simpl in Hno. apply orb_false_iff in Hno as [Hev Hno].
  apply IH; [| exact Hno].
  destruct (intervalLive st1) eqn:E; [reflexivity |].
  destruct (view_step_stops_interval _ _ _ Hstep Hlive E) as [-> | (data & -> & Ht)];
    simpl in Hev; congruence.
Qed.

Lemma view_deliver_step ev st st' :
  deliver callId ev st = Some st' -> step st ev st'.
Proof.
  destruct ev as [| response | mcpEvent | details now |]; simpl; try discriminate.
  - destruct (intervalLive st) eqn:E; [| discriminate].
    intros [= <-]. now constructor.
  - destruct (0 <? fetching st) eqn:E; [| discriminate].
    intros [= <-]. constructor. now apply Nat.ltb_lt.
  - intros [= <-]. constructor.
Qed.

Lemma view_run_steps evs :
  forall st st', run callId evs st = Some st' -> steps st evs st'.
Proof.
  induction evs as [| ev evs IH]; intros st st'; simpl.
  - intros [= <-]. constructor.
  - destruct (deliver callId ev st) as [st1 |] eqn:E; [| discriminate].
    intros H. apply (steps_cons _ st ev st1); [exact (view_deliver_step _ _ _ E) |].
    now apply IH.
Qed.

Lemma view_failing_rounds n :
  forall st,
    callId <> EmptyString ->
    intervalLive st = true -> 0 < fetching st ->
    exists st',
      steps st (Samples.failing_rounds (S n)) st' /\
      error st' = Some "Unable to fetch call status" /\
      intervalLive st' = true /\
      fetched st' = fetched st + S n /\
      callData st' = callData st.
Proof.
  induction n as [| n IH]; intros st Hid Hlive Hpend.
  - set (st1 := fetchCallStatus_settled None st).
    assert (Hlive1 : intervalLive st1 = true)
      by (unfold st1; rewrite view_settled_interval, Hlive; reflexivity).
    exists (tick st1).
    destruct (view_tick_frame st1) as (Hc & He & Hi).
    destruct (view_tick_sends st1 Hid) as (Hf & _).
    destruct (view_settled_frame None st) as (Hf1 & _).
    split.
    { simpl. apply (steps_cons _ st _ st1); [now constructor |].
      apply (steps_cons _ st1 _ (tick st1)); [now constructor |].
      constructor. }
    rewrite He, Hi, Hf, Hc. unfold st1. rewrite Hf1, view_settled_callData.
    repeat split; try assumption. lia.
  - set (st1 := fetchCallStatus_settled None st).
    assert (Hlive1 : intervalLive st1 = true)
      by (unfold st1; rewrite view_settled_interval, Hlive; reflexivity).
    set (st2 := tick st1).
    destruct (view_tick_frame st1) as (Hc & He & Hi).
    destruct (view_tick_sends st1 Hid) as (Hf & Hp).
    destruct (view_settled_frame None st) as (Hf1 & _).
    destruct (IH st2 Hid) as (st' & Hrun & He' & Hi' & Hf' & Hc').
    { unfold st2. congruence. }
    { unfold st2. rewrite Hp. lia. }
    exists st'. split.
    { change (Samples.failing_rounds (S (S n)))
        with (StatusSettles None :: TimerFires :: Samples.failing_rounds (S n)).
      apply (steps_cons _ st _ st1); [now constructor |].
      apply (steps_cons _ st1 _ st2); [now constructor | exact Hrun]. }
    repeat split; try assumption.
    + rewrite Hf'. unfold st2. rewrite Hf. unfold st1. rewrite Hf1. lia.
    + rewrite Hc'. unfold st2. rewrite Hc. unfold st1. now rewrite view_settled_callData.
Qed.

End ViewFacts.

(** ** The synchronizer: the claims *)

Section SynchronizerClaims.
Import JS McpUtils TranscriptRules Samples Deliveries.

Lemma mount_poll_unsubscribed w callId initialData :
  push_mode w = false ->
  UseCallStatus.listener
    (UseCallStatus.mount w callId (UseCallStatus.initial initialData)) = false /\
  UseCallStatus.detailing
    (UseCallStatus.mount w callId (UseCallStatus.initial initialData)) = 0.
Proof.
  unfold UseCallStatus.mount, UseCallStatus.fetchCallStatus.
  destruct w as [| | reg unreg]; simpl; intros Hw; try subst reg;
    destruct (String.eqb callId EmptyString); simpl; auto.
Qed.

(** C1, as stated, fails in push mode: [handleMcpUpdate] never looks at the
    status and the listener is only unregistered on unmount, so after the
    push source has reported [completed] its next call is served and the
    snapshot goes back to [in_progress]. And in poll mode a request sent
    before the terminal response still writes the snapshot when its
    response comes late. *)
Lemma C1_snapshot_changes_after_terminal :
  (exists st1 st2,
     UseCallStatus.steps Json.parse (SomeMcp true true) "c1"
       (UseCallStatus.mount (SomeMcp true true) "c1" (UseCallStatus.initial Undefined))
       [DetailsSettle (Some (status_payload "completed")) clock1] st1 /\
     get (UseCallStatus.callData st1) "status" = Ret (Str "completed") /\
     UseCallStatus.steps Json.parse (SomeMcp true true) "c1" st1
       [McpCalls (status_payload "in_progress");
        DetailsSettle (Some (status_payload "in_progress")) clock2] st2 /\
     get (UseCallStatus.callData st2) "status" = Ret (Str "in_progress")) /\
  (exists st1 st2,
     UseCallStatus.steps Json.parse NoMcp "c1"
       (UseCallStatus.mount NoMcp "c1" (UseCallStatus.initial Undefined))
       [TimerFires; StatusSettles (Some (served "completed"))] st1 /\
     UseCallStatus.callData st1 = served "completed" /\
     UseCallStatus.interval st1 = None /\
     UseCallStatus.steps Json.parse NoMcp "c1" st1
       [StatusSettles (Some (served "in_progress"))] st2 /\
     UseCallStatus.callData st2 = served "in_progress").
Proof.
  split.
  - eexists. eexists.
    split; [apply run_steps; vm_compute; reflexivity |].
    split; [reflexivity |].
    split; [apply run_steps; vm_compute; reflexivity | reflexivity].
  - eexists. eexists.
    split; [apply run_steps; vm_compute; reflexivity |].
    split; [reflexivity |]. split; [reflexivity |].
    split; [apply run_steps; vm_compute; reflexivity | reflexivity].
Qed.

(** C1 (amended): where the hook does not subscribe, and in the CallStatus
    component, the response whose status is [completed] or [error] becomes
    the snapshot and clears the interval. From then on the interval stays
    cleared, no timer delivery is possible, no further status request is
    sent, and, if no earlier request is still under way, the snapshot stays
    the terminal one. *)
Theorem C1_polling_stops_at_terminal :
  (forall JSON_parse w callId initialData evs st data st1 evs' st',
     push_mode w = false ->
     UseCallStatus.steps JSON_parse w callId
       (UseCallStatus.mount w callId (UseCallStatus.initial initialData)) evs st ->
     UseCallStatus.step JSON_parse w callId st (StatusSettles (Some data)) st1 ->
     terminal data = true ->
     UseCallStatus.steps JSON_parse w callId st1 evs' st' ->
     UseCallStatus.callData st1 = data /\
     UseCallStatus.intervalLive st1 = false /\
     UseCallStatus.intervalLive st' = false /\
     (forall st'', ~ UseCallStatus.step JSON_parse w callId st' TimerFires st'') /\
     UseCallStatus.fetched st' = UseCallStatus.fetched st1 /\
     (UseCallStatus.fetching st1 = 0 -> UseCallStatus.callData st' = data)) /\
  (forall callId initialData evs st data st1 evs' st',
     CallStatus.steps callId
       (CallStatus.mount callId (CallStatus.initial initialData)) evs st ->
     CallStatus.step callId st (StatusSettles (Some data)) st1 ->
     terminal data = true ->
     CallStatus.steps callId st1 evs' st' ->
     CallStatus.callData st1 = data /\
     CallStatus.intervalLive st1 = false /\
     CallStatus.intervalLive st' = false /\
     (forall st'', ~ CallStatus.step callId st' TimerFires st'') /\
     CallStatus.fetched st' = CallStatus.fetched st1 /\
     (CallStatus.fetching st1 = 0 -> CallStatus.callData st' = data)).
Proof.
  split.
  - intros JSON_parse w callId initialData evs st data st1 evs' st'
           Hw Hrun Hstep Hterm Hrest.
    pose proof (steps_unsubscribed _ _ _ _ _ _ Hrun
                  (mount_poll_unsubscribed w callId initialData Hw)) as Hst.
    pose proof (step_unsubscribed _ _ _ _ _ _ Hstep Hst) as [Hl1 Hd1].
    inversion Hstep as [| st0 response Hpend | | |]; subst.
    assert (Hq : UseCallStatus.quiet (UseCallStatus.fetchCallStatus_settled (Some data) st)).
    { repeat split; try assumption.
      rewrite settled_interval, Hterm. apply andb_false_r. }
    destruct (steps_quiet _ _ _ _ _ _ Hrest Hq) as ((Hi' & _) & Hf' & _ & _ & Hc').
    rewrite settled_callData in *.
    repeat split; try assumption; try apply Hq.
    intros st'' Htimer. inversion Htimer; subst. congruence.
  - intros callId initialData evs st data st1 evs' st' Hrun Hstep Hterm Hrest.
    inversion Hstep as [| st0 response Hpend |]; subst.
    assert (Hq : CallStatus.intervalLive
                   (CallStatus.fetchCallStatus_settled (Some data) st) = false).
    { rewrite view_settled_interval, Hterm. apply andb_false_r. }
    destruct (view_steps_quiet _ _ _ _ Hrest Hq) as (Hi' & Hf' & _ & Hc').
    rewrite view_settled_callData in *.
    repeat split; try assumption.
    intros st'' Htimer. inversion Htimer; subst. congruence.
Qed.

Lemma C1_polling_stops_at_terminal_witness :
  exists st1 st',
    UseCallStatus.step Json.parse NoMcp "c1"
      (UseCallStatus.request_status
         (UseCallStatus.mount NoMcp "c1" (UseCallStatus.initial Undefined)))
      (StatusSettles (Some (served "completed"))) st1 /\
    UseCallStatus.steps Json.parse NoMcp "c1" st1
      [StatusSettles (Some (served "in_progress")); Unmounts] st' /\
    UseCallStatus.intervalLive st' = false /\
    UseCallStatus.fetched st' = UseCallStatus.fetched st1.
Proof.
  eexists. eexists.
  assert (H1 : UseCallStatus.steps Json.parse NoMcp "c1"
                 (UseCallStatus.mount NoMcp "c1" (UseCallStatus.initial Undefined))
                 [TimerFires]
                 (UseCallStatus.request_status
                    (UseCallStatus.mount NoMcp "c1" (UseCallStatus.initial Undefined))))
    by (apply run_steps; vm_compute; reflexivity).
  assert (H2 : UseCallStatus.step Json.parse NoMcp "c1"
                 (UseCallStatus.request_status
                    (UseCallStatus.mount NoMcp "c1" (UseCallStatus.initial Undefined)))
                 (StatusSettles (Some (served "completed")))
                 (UseCallStatus.fetchCallStatus_settled (Some (served "completed"))
                    (UseCallStatus.request_status
                       (UseCallStatus.mount NoMcp "c1" (UseCallStatus.initial Undefined)))))
    by (constructor; simpl; lia).
  assert (H3 : UseCallStatus.steps Json.parse NoMcp "c1"
                 (UseCallStatus.fetchCallStatus_settled (Some (served "completed"))
                    (UseCallStatus.request_status
                       (UseCallStatus.mount NoMcp "c1" (UseCallStatus.initial Undefined))))
                 [StatusSettles (Some (served "in_progress")); Unmounts]
                 (UseCallStatus.cleanup NoMcp "c1"
                    (UseCallStatus.fetchCallStatus_settled (Some (served "in_progress"))
                       (UseCallStatus.fetchCallStatus_settled (Some (served "completed"))
                          (UseCallStatus.request_status
                             (UseCallStatus.mount NoMcp "c1"
                                (UseCallStatus.initial Undefined)))))))
    by (apply run_steps; vm_compute; reflexivity).
  destruct (proj1 C1_polling_stops_at_terminal Json.parse NoMcp "c1" Undefined
              _ _ _ _ _ _ eq_refl H1 H2 eq_refl H3)
    as (_ & _ & Hoff & _ & Hsent & _).
  split; [exact H2 |]. split; [exact H3 |]. split; [exact Hoff | exact Hsent].
Defined.

(** C2, evaluated on the code: where [window.blandmcp] is there without
    [registerCallListener], the hook reports non-push operation and sends
    one request, but it sets no interval: whatever is delivered afterwards,
    that request stays the only one. The branch without push source sets
    the interval of 3000 ms; so does the branch taken when
    [window.blandmcp] is [null], which keeps reporting push operation. *)
Theorem C2_no_listener_fetches_once
    (JSON_parse : string -> option value) (callId : string)
    (unregisterCallListener : bool) (initialData : value)
    (evs : list event) (st' : UseCallStatus.hook) :
  callId <> EmptyString ->
  UseCallStatus.steps JSON_parse (SomeMcp false unregisterCallListener) callId
    (UseCallStatus.mount (SomeMcp false unregisterCallListener) callId
       (UseCallStatus.initial initialData)) evs st' ->
  checkMcpAvailability (SomeMcp false unregisterCallListener) = true /\
  UseCallStatus.usingMcp st' = false /\
  UseCallStatus.fetched st' = 1 /\
  UseCallStatus.intervalLive st' = false /\
  (forall st'', ~ UseCallStatus.step JSON_parse (SomeMcp false unregisterCallListener)
                    callId st' TimerFires st'') /\
  UseCallStatus.interval st' = None /\
  UseCallStatus.interval
    (UseCallStatus.mount NoMcp callId (UseCallStatus.initial initialData)) = Some 3000 /\
  UseCallStatus.interval
    (UseCallStatus.mount FalsyMcp callId (UseCallStatus.initial initialData)) = Some 3000 /\
  UseCallStatus.usingMcp
    (UseCallStatus.mount FalsyMcp callId (UseCallStatus.initial initialData)) = true.
Proof.
  intros Hid Hrun. apply String.eqb_neq in Hid.
  assert (Hq : UseCallStatus.quiet
                 (UseCallStatus.mount (SomeMcp false unregisterCallListener) callId
                    (UseCallStatus.initial initialData))).
  { unfold UseCallStatus.mount, UseCallStatus.fetchCallStatus. rewrite Hid.
    repeat split. }
  destruct (steps_quiet _ _ _ _ _ _ Hrun Hq) as ((Hi & _) & Hf & Hu & _).
  split; [reflexivity |].
  split.
  { rewrite Hu. unfold UseCallStatus.mount, UseCallStatus.fetchCallStatus.
    now rewrite Hid. }
  split.
  { rewrite Hf. unfold UseCallStatus.mount, UseCallStatus.fetchCallStatus.
    now rewrite Hid. }
  split; [assumption |].
  split.
  { intros st'' Htimer. inversion Htimer; subst. congruence. }
  split.
  { unfold UseCallStatus.intervalLive in Hi.
    now destruct (UseCallStatus.interval st'). }
  unfold UseCallStatus.mount, UseCallStatus.fetchCallStatus. rewrite Hid.
  repeat split.
Qed.

Lemma C2_no_listener_fetches_once_witness :
  exists st',
    UseCallStatus.steps Json.parse (SomeMcp false false) "c1"
      (UseCallStatus.mount (SomeMcp false false) "c1" (UseCallStatus.initial Undefined))
      [StatusSettles (Some (served "in_progress"))] st' /\
    UseCallStatus.usingMcp st' = false /\
    UseCallStatus.fetched st' = 1 /\
    UseCallStatus.intervalLive st' = false /\
    UseCallStatus.fetching st' = 0.
Proof.
  eexists.
  assert (H : UseCallStatus.steps Json.parse (SomeMcp false false) "c1"
                (UseCallStatus.mount (SomeMcp false false) "c1"
                   (UseCallStatus.initial Undefined))
                [StatusSettles (Some (served "in_progress"))]
                (UseCallStatus.fetchCallStatus_settled (Some (served "in_progress"))
                   (UseCallStatus.mount (SomeMcp false false) "c1"
                      (UseCallStatus.initial Undefined))))
    by (apply run_steps; vm_compute; reflexivity).
  assert (Hid : "c1" <> EmptyString) by discriminate.
  destruct (C2_no_listener_fetches_once Json.parse "c1" false Undefined _ _ Hid H)
    as (_ & Hu & Hf & Hi & _).
  split; [exact H |]. split; [exact Hu |]. split; [exact Hf |].
  split; [exact Hi | reflexivity].
Defined.

(** C7: a response of [getCallStatus] becomes the snapshot as it is, so a
    field is in the snapshot afterwards exactly if it is in the response
    (in the hook and in the component); a push update, once
    [formatMcpCallData] has returned the normalised payload, merges: after
    it, a field has the value the normalised payload gives it if the
    payload has the field, and the value it had before otherwise. The
    normalised payload of a truthy detail record has exactly the fields
    [call_id], [status], [duration_seconds], [credits_used], [transcript]
    and [events]. Where [formatMcpCallData] throws there is no update, and
    the snapshot is the one before. *)
Theorem C7_replace_vs_merge :
  (forall data st k,
     UseCallStatus.callData (UseCallStatus.fetchCallStatus_settled (Some data) st) = data /\
     lookup k (own_props
                 (UseCallStatus.callData
                    (UseCallStatus.fetchCallStatus_settled (Some data) st))) =
     lookup k (own_props data)) /\
  (forall data st k,
     CallStatus.callData (CallStatus.fetchCallStatus_settled (Some data) st) = data /\
     lookup k (own_props
                 (CallStatus.callData
                    (CallStatus.fetchCallStatus_settled (Some data) st))) =
     lookup k (own_props data)) /\
  (forall JSON_parse callId mcpData now st formatted,
     formatMcpCallData JSON_parse now mcpData = Ret formatted ->
     (forall k,
        lookup k (own_props
                    (UseCallStatus.callData
                       (UseCallStatus.handleMcpUpdate_settled JSON_parse callId
                          (Some mcpData) now st))) =
        match lookup k (own_props formatted) with
        | Some v => Some v
        | None => lookup k (own_props (UseCallStatus.callData st))
        end) /\
     (truthy mcpData = true ->
      map fst (own_props formatted) =
      ["call_id"; "status"; "duration_seconds"; "credits_used";
       "transcript"; "events"])) /\
  (forall JSON_parse callId mcpData now st,
     formatMcpCallData JSON_parse now mcpData = Throw ->
     UseCallStatus.callData
       (UseCallStatus.handleMcpUpdate_settled JSON_parse callId (Some mcpData) now st) =
     UseCallStatus.callData st).
Proof.
  split; [| split; [| split]].
  - intros data st k. now rewrite settled_callData.
  - intros data st k. now rewrite view_settled_callData.
  - intros JSON_parse callId mcpData now st formatted Hf.
    rewrite (handleMcpUpdate_settled_merge JSON_parse callId mcpData now st formatted Hf).
    split.
    + intros k. simpl UseCallStatus.callData. apply lookup_spread2.
    + intros Ht.
      destruct (formatMcpCallData_ret JSON_parse now mcpData formatted Ht Hf)
        as (en & ev & _ & -> & _).
      reflexivity.
  - intros JSON_parse callId mcpData now st Hf.
    rewrite (handleMcpUpdate_settled_fallback JSON_parse callId (Some mcpData) now st)
      by (simpl; now rewrite Hf).
    now destruct (fetchCallStatus_frame JSON_parse callId
                    (UseCallStatus.details_arrived st)) as (-> & _).
Qed.

Lemma C7_replace_vs_merge_witness :
  let before := UseCallStatus.setCallData (served "in_progress")
                  (UseCallStatus.initial Undefined) in
  get (UseCallStatus.callData
         (UseCallStatus.fetchCallStatus_settled
            (Some (status_payload "completed")) before)) "callData" = Ret Undefined /\
  lookup "callData"
    (own_props
       (UseCallStatus.callData
          (UseCallStatus.handleMcpUpdate_settled Json.parse "c1"
             (Some (status_payload "completed")) clock1 before))) =
    Some (Obj [("inviteeName", Str "Jane"); ("occasion", Str "Coffee")]) /\
  lookup "status"
    (own_props
       (UseCallStatus.callData
          (UseCallStatus.handleMcpUpdate_settled Json.parse "c1"
             (Some (status_payload "completed")) clock1 before))) =
    Some (Str "completed") /\
  UseCallStatus.callData
    (UseCallStatus.handleMcpUpdate_settled Json.parse "c1"
       (Some unprintable_record) clock1 before) = served "in_progress".
Proof.
  intros before.
  destruct C7_replace_vs_merge as (Hpoll & _ & Hpush & Hthrow).
  split; [| split; [| split]].
  - destruct (Hpoll (status_payload "completed") before "callData") as [-> _].
    reflexivity.
  - destruct (Hpush Json.parse "c1" (status_payload "completed") clock1 before
                (Obj [("call_id", Str "c1"); ("status", Str "completed");
                      ("duration_seconds", Undefined); ("credits_used", Undefined);
                      ("transcript", Arr []);
                      ("events", Arr [mk_event (Str clock1) "Call completed"
                                        (Str "Call finished after 0 seconds")])])
                eq_refl) as [Hk _].
    rewrite Hk. reflexivity.
  - destruct (Hpush Json.parse "c1" (status_payload "completed") clock1 before
                (Obj [("call_id", Str "c1"); ("status", Str "completed");
                      ("duration_seconds", Undefined); ("credits_used", Undefined);
                      ("transcript", Arr []);
                      ("events", Arr [mk_event (Str clock1) "Call completed"
                                        (Str "Call finished after 0 seconds")])])
                eq_refl) as [Hk _].
    rewrite Hk. reflexivity.
  - apply (Hthrow Json.parse "c1" unprintable_record clock1 before). reflexivity.
Defined.

(** C8, evaluated on the code. In the hook and in the component, a
    rejected [getCallStatus] sets the error to ['Unable to fetch call
    status'] and leaves snapshot and interval as they were, and the next
    response with a body (other than [null] and [undefined]) clears the
    error and becomes the snapshot. With the interval live, any number of
    rounds of failure and timer can be delivered, each timer sending one
    more request; a delivery takes the interval from live to cleared only
    if it is the unmounting or a response whose status is [completed] or
    [error]; so, where the mounting has set the interval (the hook without
    [window.blandmcp] or with a falsy one, and the component), it is live
    after every run without such a delivery. Where [window.blandmcp] is
    there without [registerCallListener], the hook has set no interval:
    once its one request has failed, the error is set, no status is known,
    nothing but the unmounting can be delivered, and no request is sent any
    more. *)
Theorem C8_polling_survives_failures :
  (forall st : UseCallStatus.hook,
     UseCallStatus.error (UseCallStatus.fetchCallStatus_settled None st) =
       Some "Unable to fetch call status" /\
     UseCallStatus.callData (UseCallStatus.fetchCallStatus_settled None st) =
       UseCallStatus.callData st /\
     UseCallStatus.interval (UseCallStatus.fetchCallStatus_settled None st) =
       UseCallStatus.interval st) /\
  (forall (st : UseCallStatus.hook) data,
     nullish data = false ->
     UseCallStatus.error (UseCallStatus.fetchCallStatus_settled (Some data) st) = None /\
     UseCallStatus.callData (UseCallStatus.fetchCallStatus_settled (Some data) st) = data) /\
  (forall JSON_parse w callId st n,
     callId <> EmptyString ->
     UseCallStatus.intervalLive st = true -> 0 < UseCallStatus.fetching st ->
     exists st',
       UseCallStatus.steps JSON_parse w callId st (failing_rounds (S n)) st' /\
       UseCallStatus.error st' = Some "Unable to fetch call status" /\
       UseCallStatus.intervalLive st' = true /\
       UseCallStatus.fetched st' = UseCallStatus.fetched st + S n /\
       UseCallStatus.callData st' = UseCallStatus.callData st) /\
  (forall JSON_parse w callId st ev st',
     UseCallStatus.step JSON_parse w callId st ev st' ->
     UseCallStatus.intervalLive st = true ->
     UseCallStatus.intervalLive st' = false ->
     ev = Unmounts \/
     exists data, ev = StatusSettles (Some data) /\ terminal data = true) /\
  (forall JSON_parse w callId initialData evs st,
     callId <> EmptyString -> w = NoMcp \/ w = FalsyMcp ->
     UseCallStatus.steps JSON_parse w callId
       (UseCallStatus.mount w callId (UseCallStatus.initial initialData)) evs st ->
     existsb stops_polling evs = false ->
     UseCallStatus.intervalLive st = true) /\
  (forall st : CallStatus.view,
     CallStatus.error (CallStatus.fetchCallStatus_settled None st) =
       Some "Unable to fetch call status" /\
     CallStatus.callData (CallStatus.fetchCallStatus_settled None st) =
       CallStatus.callData st /\
     CallStatus.interval (CallStatus.fetchCallStatus_settled None st) =
       CallStatus.interval st) /\
  (forall (st : CallStatus.view) data,
     nullish data = false ->
     CallStatus.error (CallStatus.fetchCallStatus_settled (Some data) st) = None /\
     CallStatus.callData (CallStatus.fetchCallStatus_settled (Some data) st) = data) /\
  (forall callId st n,
     callId <> EmptyString ->
     CallStatus.intervalLive st = true -> 0 < CallStatus.fetching st ->
     exists st',
       CallStatus.steps callId st (failing_rounds (S n)) st' /\
       CallStatus.error st' = Some "Unable to fetch call status" /\
       CallStatus.intervalLive st' = true /\
       CallStatus.fetched st' = CallStatus.fetched st + S n /\
       CallStatus.callData st' = CallStatus.callData st) /\
  (forall callId st ev st',
     CallStatus.step callId st ev st' ->
     CallStatus.intervalLive st = true ->
     CallStatus.intervalLive st' = false ->
     ev = Unmounts \/
     exists data, ev = StatusSettles (Some data) /\ terminal data = true) /\
  (forall callId initialData evs st,
     CallStatus.steps callId
       (CallStatus.mount callId (CallStatus.initial initialData)) evs st ->
     existsb stops_polling evs = false ->
     CallStatus.intervalLive st = true) /\
  (forall JSON_parse unregisterCallListener callId initialData,
     callId <> EmptyString ->
     let w := SomeMcp false unregisterCallListener in
     let st0 := UseCallStatus.mount w callId (UseCallStatus.initial initialData) in
     let st1 := UseCallStatus.fetchCallStatus_settled None st0 in
     UseCallStatus.step JSON_parse w callId st0 (StatusSettles None) st1 /\
     UseCallStatus.error st1 = Some "Unable to fetch call status" /\
     UseCallStatus.callData st1 =
       UseCallStatus.callData (UseCallStatus.initial initialData) /\
     UseCallStatus.interval st1 = None /\
     UseCallStatus.fetched st1 = 1 /\
     (forall ev st', UseCallStatus.step JSON_parse w callId st1 ev st' ->
                     ev = Unmounts) /\
     (forall evs st', UseCallStatus.steps JSON_parse w callId st1 evs st' ->
                      UseCallStatus.fetched st' = 1 /\
                      UseCallStatus.callData st' =
                        UseCallStatus.callData (UseCallStatus.initial initialData))).
Proof.
  split; [| split; [| split; [| split; [| split]]]].
  - intros st. repeat split.
  - intros st data Hn. split; [| apply settled_callData].
    unfold UseCallStatus.fetchCallStatus_settled.
    destruct data; try discriminate Hn; simpl; try reflexivity;
      repeat match goal with
             | |- context [if ?c then _ else _] => destruct c; simpl
             end; reflexivity.
  - intros JSON_parse w callId st n Hid Hlive Hpend.
    now apply hook_failing_rounds.
  - intros JSON_parse w callId st ev st'. apply step_stops_interval.
  - intros JSON_parse w callId initialData evs st Hid Hw Hrun.
    apply (steps_live _ _ _ _ _ _ Hrun).
    apply String.eqb_neq in Hid.
    unfold UseCallStatus.mount, UseCallStatus.fetchCallStatus. rewrite Hid.
    destruct Hw as [-> | ->]; reflexivity.
  - split; [| split; [| split; [| split; [| split]]]].
    + intros st. repeat split.
    + intros st data Hn. split; [| apply view_settled_callData].
      unfold CallStatus.fetchCallStatus_settled.
      destruct data; try discriminate Hn; simpl; try reflexivity;
        repeat match goal with
               | |- context [if ?c then _ else _] => destruct c; simpl
               end; reflexivity.
    + intros callId st n Hid Hlive Hpend. now apply view_failing_rounds.
    + intros callId st ev st'. apply view_step_stops_interval.
    + intros callId initialData evs st Hrun.
      apply (view_steps_live _ _ _ _ Hrun).
      unfold CallStatus.mount, CallStatus.fetchCallStatus.
      destruct (String.eqb callId EmptyString); reflexivity.
    + intros JSON_parse unreg callId initialData Hid w st0 st1.
      apply String.eqb_neq in Hid.
      assert (E0 : st0 = UseCallStatus.setUsingMcp false
                          (UseCallStatus.request_status
                             (UseCallStatus.setLoading true
                                (UseCallStatus.setUsingMcp true
                                   (UseCallStatus.initial initialData))))).
      { unfold st0, w, UseCallStatus.mount, UseCallStatus.fetchCallStatus.
        rewrite Hid. reflexivity. }
      assert (Hq : UseCallStatus.quiet st1 /\ UseCallStatus.fetching st1 = 0 /\
                   UseCallStatus.fetched st1 = 1).
      { unfold st1. rewrite E0. repeat split. }
      destruct Hq as (Hq & Hp & Hf).
      split; [unfold st1; constructor; rewrite E0; simpl; lia |].
      split; [reflexivity |].
      split; [unfold st1; rewrite E0; reflexivity |].
      split; [unfold st1; rewrite E0; reflexivity |].
      split; [exact Hf |].
      split.
      * intros ev st' Hstep. exact (step_quiet_idle _ _ _ _ _ _ Hstep Hq Hp).
      * intros evs st' Hrun.
        destruct (steps_quiet _ _ _ _ _ _ Hrun Hq) as (_ & Hf' & _ & _ & Hc').
        split; [congruence |].
        rewrite (Hc' Hp). unfold st1. rewrite E0. reflexivity.
Qed.

Lemma C8_polling_survives_failures_witness :
  (exists st',
     UseCallStatus.steps Json.parse NoMcp "c1"
       (UseCallStatus.mount NoMcp "c1" (UseCallStatus.initial Undefined))
       (failing_rounds 2) st' /\
     UseCallStatus.error st' = Some "Unable to fetch call status" /\
     UseCallStatus.intervalLive st' = true /\
     UseCallStatus.fetched st' = 3 /\
     UseCallStatus.error
       (UseCallStatus.fetchCallStatus_settled (Some (served "in_progress")) st') = None) /\
  (let st1 := UseCallStatus.fetchCallStatus_settled None
                (UseCallStatus.mount (SomeMcp false false) "c1"
                   (UseCallStatus.initial Undefined)) in
   UseCallStatus.error st1 = Some "Unable to fetch call status" /\
   UseCallStatus.interval st1 = None /\
   UseCallStatus.fetched
     (UseCallStatus.cleanup (SomeMcp false false) "c1" st1) = 1).
Proof.
  destruct C8_polling_survives_failures
    as (_ & Hclear & Hrounds & _ & _ & _ & _ & _ & _ & _ & Hfallback).
  split.
  - destruct (Hrounds Json.parse NoMcp "c1"
                (UseCallStatus.mount NoMcp "c1" (UseCallStatus.initial Undefined)) 1)
      as (st' & Hrun & He & Hi & Hf & _);
      [discriminate | reflexivity | simpl; lia |].
    exists st'. split; [exact Hrun |]. split; [exact He |]. split; [exact Hi |].
    split; [exact Hf |].
    destruct (Hclear st' (served "in_progress") eq_refl) as (Hnone & _).
    exact Hnone.
  - intros st1.
    assert (Hid : "c1" <> EmptyString) by discriminate.
    destruct (Hfallback Json.parse false "c1" Undefined Hid)
      as (_ & He & _ & Hi & _ & _ & Hrest).
    split; [exact He |]. split; [exact Hi |].
    destruct (Hrest [Unmounts] (UseCallStatus.cleanup (SomeMcp false false) "c1" st1))
      as (Hf & _); [| exact Hf].
    apply run_steps. reflexivity.
Defined.

End SynchronizerClaims.

(** ** ScheduleMeeting.js: submission, chips and columns *)

Section FormExtras.
Import ScheduleMeeting ScheduleMeetingView FormSamples.

Lemma raw_slot_formatSlot fmt raw : raw_slot (formatSlot fmt raw) = raw.
Proof. now destruct raw. Qed.

Lemma handleSubmit_passes f :
  snd (validateForm f) = true ->
  handleSubmit f =
  (setSubmitting true (setErrors ∅ f),
   Some {| CallRequest.phoneNumber := phoneNumber f;
           CallRequest.inviteeName := inviteeName f;
           CallRequest.occasion := occasion f;
           CallRequest.duration := duration f;
           CallRequest.availabilities := map raw_slot (selectedSlots f);
           CallRequest.voice := "josh" |}).
Proof.
  unfold handleSubmit, validateForm. simpl. intros H. rewrite H. simpl.
  apply Nat.eqb_eq, map_size_empty_iff in H. now rewrite H.
Qed.

Lemma handleSubmit_stops f :
  snd (validateForm f) = false ->
  handleSubmit f = (setErrors (newErrors f) f, None).
Proof.
  unfold handleSubmit, validateForm. simpl. intros H. now rewrite H.
Qed.

(** X1: when validation passes, the placement request holds the phone
    number, name, occasion and duration as typed, the voice ['josh'], and
    as availabilities the free slots behind the selected chips, in the
    order of selection: [formatSlot] followed by the mapping of
    [handleSubmit] gives back each slot as the calendar returned it. The
    form is then submitting, with no error left. *)
Theorem X1_request_carries_selection
    (fmt : string -> string -> string) (raws : list TimeSlot.t) (f : form) :
  selectedSlots f = map (formatSlot fmt) raws ->
  snd (validateForm f) = true ->
  exists req,
    snd (handleSubmit f) = Some req /\
    CallRequest.availabilities req = raws /\
    CallRequest.phoneNumber req = phoneNumber f /\
    CallRequest.inviteeName req = inviteeName f /\
    CallRequest.occasion req = occasion f /\
    CallRequest.duration req = duration f /\
    CallRequest.voice req = "josh" /\
    submitting (fst (handleSubmit f)) = true /\
    errors (fst (handleSubmit f)) = ∅.
Proof.
  intros Hsel Hok. rewrite (handleSubmit_passes f Hok). simpl.
  eexists. split; [reflexivity |]. simpl. repeat split.
  rewrite Hsel, map_map. clear Hsel.
  induction raws as [| raw raws IH]; simpl; [reflexivity |].
  now rewrite raw_slot_formatSlot, IH.
Qed.

Lemma X1_request_carries_selection_witness :
  exists req,
    snd (handleSubmit (filled "+15551234567" "Jane" [slotB; slotA])) = Some req /\
    CallRequest.availabilities req =
      [TimeSlot.mk "2025-05-02T09:00:00Z" "2025-05-02T09:30:00Z";
       TimeSlot.mk "2025-05-01T09:00:00Z" "2025-05-01T09:30:00Z"] /\
    CallRequest.voice req = "josh".
Proof.
  destruct (X1_request_carries_selection plain_format
              [TimeSlot.mk "2025-05-02T09:00:00Z" "2025-05-02T09:30:00Z";
               TimeSlot.mk "2025-05-01T09:00:00Z" "2025-05-01T09:30:00Z"]
              (filled "+15551234567" "Jane" [slotB; slotA]))
    as (req & Hreq & Hav & _ & _ & _ & _ & Hvoice & _);
    [reflexivity | reflexivity |].
  exists req. auto.
Defined.

(** X2: when the placement succeeded, the selection is emptied and the
    success flag raised, so that submitting again at once is stopped by
    validation with the slots error; when it failed, nothing but
    [submitting] changes, and submitting again sends the same request. In
    both cases the form is no longer submitting. *)
Theorem X2_after_placement (f : form) :
  (let f' := handleSubmit_settled true f in
   selectedSlots f' = [] /\ success f' = true /\ submitting f' = false /\
   phoneNumber f' = phoneNumber f /\ inviteeName f' = inviteeName f /\
   snd (handleSubmit f') = None /\
   errors (fst (handleSubmit f')) !! "slots" =
     Some "Select at least one available time slot") /\
  (handleSubmit_settled false f = setSubmitting false f) /\
  (snd (validateForm f) = true ->
   snd (handleSubmit (handleSubmit_settled false (fst (handleSubmit f)))) =
   snd (handleSubmit f)).
Proof.
  split; [| split].
  - simpl.
    assert (Hno : snd (validateForm (handleSubmit_settled true f)) = false).
    { destruct (snd (validateForm (handleSubmit_settled true f))) eqn:E;
        [| reflexivity].
      apply validateForm_ok in E as (_ & _ & E). now contradiction E. }
    rewrite (handleSubmit_stops _ Hno). simpl.
    rewrite newErrors_slots. repeat split.
  - reflexivity.
  - intros Hok. rewrite (handleSubmit_passes f Hok). simpl.
    set (f1 := handleSubmit_settled false _).
    assert (Hok1 : snd (validateForm f1) = true).
    { apply validateForm_ok. apply validateForm_ok in Hok. exact Hok. }
    now rewrite (handleSubmit_passes f1 Hok1).
Qed.

Lemma X2_after_placement_witness :
  snd (handleSubmit
         (handleSubmit_settled false
            (fst (handleSubmit (filled "+15551234567" "Jane" [slotA]))))) =
  snd (handleSubmit (filled "+15551234567" "Jane" [slotA])).
Proof.
  apply (proj2 (proj2 (X2_after_placement (filled "+15551234567" "Jane" [slotA])))).
  reflexivity.
Defined.

(** X3: the chips and the handler agree. A click on a chip that is not
    disabled always changes whether its slot is selected; and, while the
    form is not submitting, a disabled chip is one whose click would do
    nothing. *)
Theorem X3_enabled_chip_toggles (x : formatted) (f : form) :
  (chip_disabled x f = false ->
   isSelected x (handleSlotSelect x f) = negb (isSelected x f)) /\
  (submitting f = false -> chip_disabled x f = true ->
   handleSlotSelect x f = f).
Proof.
  unfold chip_disabled. split.
  - intros H. apply orb_false_iff in H as [_ H].
    destruct (handleSlotSelect_cases x f)
      as [[Hs ->] | [(Hs & _ & ->) | (Hs & Hge & _)]]; rewrite Hs; simpl.
    + apply existsb_filter_out.
    + unfold isSelected. simpl. rewrite existsb_app. simpl.
      unfold same_id at 2. rewrite String.eqb_refl. now rewrite orb_true_r.
    + rewrite Hs in H. cbn [negb andb] in H. apply Nat.leb_gt in H. lia.
  - intros Hsub H. rewrite Hsub in H. cbn [orb] in H.
    apply andb_true_iff in H as [Hs Hge].
    apply negb_true_iff in Hs. apply Nat.leb_le in Hge.
    destruct (handleSlotSelect_cases x f)
      as [[E _] | [(_ & Hlt & _) | (_ & _ & E)]]; [congruence | lia | exact E].
Qed.

Lemma X3_enabled_chip_toggles_witness :
  isSelected slotB (handleSlotSelect slotB (filled "+15551234567" "Jane" [slotA])) = true /\
  handleSlotSelect slotF
    (filled "+15551234567" "Jane" [slotA; slotB; slotC; slotD; slotE]) =
  filled "+15551234567" "Jane" [slotA; slotB; slotC; slotD; slotE].
Proof.
  split.
  - apply (proj1 (X3_enabled_chip_toggles slotB (filled "+15551234567" "Jane" [slotA]))).
    reflexivity.
  - apply (proj2 (X3_enabled_chip_toggles slotF
                    (filled "+15551234567" "Jane" [slotA; slotB; slotC; slotD; slotE])));
      reflexivity.
Defined.

(** X4: the two columns of chips together are the free slots, each once
    and in order; the left column has the rounded-up half of them, so it is
    as long as the right one or longer by one. *)
Theorem X4_columns_partition (freeSlots : list TimeSlot.t) :
  left_column freeSlots ++ right_column freeSlots = freeSlots /\
  length (left_column freeSlots) = half_up (length freeSlots) /\
  length (right_column freeSlots) <= length (left_column freeSlots) /\
  length (left_column freeSlots) <= S (length (right_column freeSlots)).
Proof.
  unfold left_column, right_column, half_up.
  set (n := length freeSlots).
  pose proof (Nat.div_mod_eq (n + 1) 2) as Hdiv.
  pose proof (Nat.mod_upper_bound (n + 1) 2) as Hmod.
  split; [apply firstn_skipn |].
  rewrite length_firstn, length_skipn. fold n. lia.
Qed.

Lemma dash_separates (a c b d : string) :
  String.length a = String.length c ->
  a +:+ "-" +:+ b = c +:+ "-" +:+ d -> a = c /\ b = d.
Proof.
  revert c. induction a as [| x a IH]; intros [| y c] Hlen H; simpl in *;
    try discriminate.
  - injection H as H. split; [reflexivity | exact H].
  - injection Hlen as Hlen. injection H as Hxy H. subst y.
    destruct (IH c Hlen H) as [-> ->]. auto.
Qed.

(** X5: among free slots whose start stamps have the same length, the id
    that [formatSlot] builds tells the slots apart: equal ids mean the same
    slot and the same chip. Without that, two slots can share an id. *)
Theorem X5_id_identifies_slot
    (fmt : string -> string -> string) (s1 s2 : TimeSlot.t) :
  String.length (TimeSlot.start s1) = String.length (TimeSlot.start s2) ->
  id (formatSlot fmt s1) = id (formatSlot fmt s2) ->
  s1 = s2 /\ formatSlot fmt s1 = formatSlot fmt s2.
Proof.
  destruct s1 as [a b], s2 as [c d]. simpl. intros Hlen Hid.
  destruct (dash_separates a c b d Hlen Hid) as [-> ->]. auto.
Qed.

Lemma X5_id_identifies_slot_witness :
  (TimeSlot.mk "2025-05-01T09:00:00Z" "2025-05-01T09:30:00Z" =
   TimeSlot.mk "2025-05-01T09:00:00Z" "2025-05-01T09:30:00Z" /\
   slotA = slotA) /\
  id (formatSlot plain_format (TimeSlot.mk "1" "2-3")) =
  id (formatSlot plain_format (TimeSlot.mk "1-2" "3")).
Proof.
  split; [| reflexivity].
  apply (X5_id_identifies_slot plain_format
           (TimeSlot.mk "2025-05-01T09:00:00Z" "2025-05-01T09:30:00Z")
           (TimeSlot.mk "2025-05-01T09:00:00Z" "2025-05-01T09:30:00Z"));
    reflexivity.
Defined.

(** X6: [validateForm] writes the error map anew: a key has a message
    exactly if it is [phoneNumber] and the number does not pass, or
    [inviteeName] and the name is empty, or [slots] and nothing is
    selected; what [errors] held before plays no part. *)
Theorem X6_error_keys (f : form) (k : string) :
  (is_Some (errors (fst (validateForm f)) !! k) <->
   (k = "phoneNumber" /\ validatePhoneNumber (phoneNumber f) = false) \/
   (k = "inviteeName" /\ inviteeName f = EmptyString) \/
   (k = "slots" /\ selectedSlots f = [])) /\
  (forall e, errors (fst (validateForm (setErrors e f))) =
             errors (fst (validateForm f))).
Proof.
  split; [| reflexivity].
  simpl.
  destruct (decide (k = "phoneNumber")) as [-> | Hp].
  { rewrite newErrors_phoneNumber.
    destruct (String.eqb (phoneNumber f) EmptyString) eqn:E.
    - apply String.eqb_eq in E. rewrite E, empty_not_phone.
      split; [intros _; left; auto | intros _; eauto].
    - destruct (validatePhoneNumber (phoneNumber f)).
      + split; [intros [v Hv]; discriminate |].
        intros [[_ H] | [[H _] | [H _]]]; discriminate.
      + split; [intros _; left; auto | intros _; eauto]. }
  destruct (decide (k = "inviteeName")) as [-> | Hn].
  { rewrite newErrors_inviteeName.
    destruct (String.eqb (inviteeName f) EmptyString) eqn:E.
    - apply String.eqb_eq in E.
      split; [intros _; right; left; auto | intros _; eauto].
    - apply String.eqb_neq in E.
      split; [intros [v Hv]; discriminate |].
      intros [[H _] | [[_ H] | [H _]]]; try discriminate. contradiction. }
  destruct (decide (k = "slots")) as [-> | Hs].
  { rewrite newErrors_slots.
    destruct (selectedSlots f) as [| s l] eqn:E; simpl.
    - split; [intros _; right; right; auto | intros _; eauto].
    - split; [intros [v Hv]; discriminate |].
      intros [[H _] | [[H _] | [_ H]]]; discriminate. }
  split.
  - intros [v Hv]. exfalso. unfold newErrors in Hv.
    destruct (String.eqb (phoneNumber f) EmptyString);
      destruct (negb (validatePhoneNumber (phoneNumber f)));
      destruct (String.eqb (inviteeName f) EmptyString);
      destruct (length (selectedSlots f) =? 0);
      simpl in Hv; simplify_map_eq.
  - intros [[H _] | [[H _] | [H _]]]; contradiction.
Qed.

End FormExtras.

(** ** mcpUtils.js: lines, timelines and push updates *)

Section NormalizationExtras.
Import JS McpUtils TranscriptRules Samples Timeline.

Lemma split_chars_length sep l :
  length (Str.split_chars sep l) =
  S (length (List.filter (fun c => Ascii.eqb c sep) l)).
Proof.
  induction l as [| c l IH]; simpl; [reflexivity |].
  destruct (Ascii.eqb c sep); simpl; [now rewrite IH |].
  destruct (Str.split_chars sep l) as [| piece rest]; simpl in *; lia.
Qed.

(** X7: a non-empty transcript string that is not JSON gives one record
    per line, empty lines included: one more record than the string has
    line feeds, so a trailing line feed adds a last record. *)
Theorem X7_one_record_per_line
    (JSON_parse : string -> option value) (s : string) :
  s <> EmptyString -> JSON_parse s = None ->
  exists entries,
    formatTranscript JSON_parse (Str s) = Ret (Arr entries) /\
    length entries = S (line_feeds s).
Proof.
  intros Hs Hp. rewrite formatTranscript_string, Hp by assumption.
  eexists. split; [reflexivity |].
  unfold Str.split, line_feeds. now rewrite !length_map, split_chars_length.
Qed.

Lemma X7_one_record_per_line_witness :
  exists entries,
    formatTranscript Json.parse (Str (two_lines +:+ String Str.nl EmptyString)) =
      Ret (Arr entries) /\
    length entries = 3.
Proof.
  destruct (X7_one_record_per_line Json.parse
              (two_lines +:+ String Str.nl EmptyString))
    as (entries & H & Hlen); [discriminate | reflexivity |].
  exists entries. split; [exact H | exact Hlen].
Defined.

Ltac sublist_of_lifecycle :=
  repeat first [apply sublist_nil | apply sublist_skip | apply sublist_cons].

(** X9: a timeline that [generateEventsFromMcp] returns lists each stage
    at most once and in the order initiated, queued, in progress,
    completed, error. The completed event is there exactly if the status is
    ['completed'] or there is an [end_time], and the error event exactly if
    the status is ['error']. *)
Theorem X9_timeline_in_lifecycle_order
    (now : string) (mcpData : value) (events : list value) :
  truthy mcpData = true ->
  generateEventsFromMcp now mcpData = Ret (Arr events) ->
  sublist (labels events) lifecycle /\
  (In (Str "Call completed") (labels events) <->
   is_str (prop mcpData "status") "completed" ||
   truthy (prop mcpData "end_time") = true) /\
  (In (Str "Call error") (labels events) <->
   is_str (prop mcpData "status") "error" = true).
Proof.
  intros Hm Hgen. unfold generateEventsFromMcp in Hgen.
  rewrite !(get_prop mcpData) in Hgen by exact Hm. simpl in Hgen.
  destruct (truthy (prop mcpData "created_at"));
    destruct (is_str (prop mcpData "status") "queued" ||
              truthy (prop mcpData "queue_time"));
    destruct (is_str (prop mcpData "status") "in_progress" ||
              truthy (prop mcpData "start_time"));
    destruct (is_str (prop mcpData "status") "completed" ||
              truthy (prop mcpData "end_time"));
    destruct (is_str (prop mcpData "status") "error");
    simpl in Hgen;
    try (destruct (to_string _) as [seconds |]; simpl in Hgen;
         [| discriminate Hgen]);
    injection Hgen as <-; unfold labels, lifecycle; simpl;
    (split; [sublist_of_lifecycle |]);
    split; split; intros H; try reflexivity; try discriminate H; auto 10;
    repeat (destruct H as [H | H]; try discriminate H); contradiction.
Qed.

Lemma X9_timeline_in_lifecycle_order_witness :
  generateEventsFromMcp clock1
    (Obj [("created_at", Str clock1); ("status", Str "completed");
          ("duration", Num 42)]) =
    Ret (Arr [mk_event (Str clock1) "Call initiated" (Str "Request sent to Bland AI");
              mk_event (Str clock1) "Call completed"
                (Str "Call finished after 42 seconds")]) /\
  sublist [Str "Call initiated"; Str "Call completed"] lifecycle.
Proof.
  split; [reflexivity |].
  apply (X9_timeline_in_lifecycle_order clock1
           (Obj [("created_at", Str clock1); ("status", Str "completed");
                 ("duration", Num 42)])
           [mk_event (Str clock1) "Call initiated" (Str "Request sent to Bland AI");
            mk_event (Str clock1) "Call completed"
              (Str "Call finished after 42 seconds")]);
    reflexivity.
Defined.



End NormalizationExtras.

(** ** useCallStatus: requests, listener and refresh *)

Section HookAccounting.
Import JS McpUtils UseCallStatus Deliveries.

Variable JSON_parse : string -> option value.
Variable window_blandmcp : blandmcp.
Variable callId : string.

Local Abbreviation step := (UseCallStatus.step JSON_parse window_blandmcp callId).
Local Abbreviation steps := (UseCallStatus.steps JSON_parse window_blandmcp callId).
Local Abbreviation fetchCallStatus := (UseCallStatus.fetchCallStatus callId).
Local Abbreviation handleMcpUpdate_settled :=
  (UseCallStatus.handleMcpUpdate_settled JSON_parse callId).

Lemma details_merged_frame mcpData now st formatted :
  formatMcpCallData JSON_parse now mcpData = Ret formatted ->
  fetched (handleMcpUpdate_settled (Some mcpData) now st) = fetched st /\
  fetching (handleMcpUpdate_settled (Some mcpData) now st) = fetching st /\
  interval (handleMcpUpdate_settled (Some mcpData) now st) = interval st /\
  detailing (handleMcpUpdate_settled (Some mcpData) now st) = pred (detailing st) /\
  error (handleMcpUpdate_settled (Some mcpData) now st) = None /\
  callData (handleMcpUpdate_settled (Some mcpData) now st) =
    spread2 (callData st) formatted.
Proof.
  intros Hf.
  rewrite (handleMcpUpdate_settled_merge JSON_parse callId mcpData now st formatted Hf).
  simpl. tauto.
Qed.

Lemma details_fallback_frame details now st :
  callId <> EmptyString ->
  falls_back JSON_parse (DetailsSettle details now) = true ->
  fetched (handleMcpUpdate_settled details now st) = S (fetched st) /\
  fetching (handleMcpUpdate_settled details now st) = S (fetching st) /\
  interval (handleMcpUpdate_settled details now st) = interval st /\
  detailing (handleMcpUpdate_settled details now st) = pred (detailing st) /\
  callData (handleMcpUpdate_settled details now st) = callData st /\
  error (handleMcpUpdate_settled details now st) = error st.
Proof.
  intros Hid Hfb. apply String.eqb_neq in Hid.
  rewrite (handleMcpUpdate_settled_fallback JSON_parse callId details now st Hfb).
  unfold UseCallStatus.fetchCallStatus. rewrite Hid. simpl. tauto.
Qed.

Lemma count_cons p ev evs :
  count p (ev :: evs) = (if p ev then 1 else 0) + count p evs.
Proof. unfold count. simpl. now destruct (p ev). Qed.

(** Every request is sent by a timer or by a detail request that falls
    back, and is pending until its response is delivered. *)
Lemma steps_account st evs st' :
  callId <> EmptyString ->
  steps st evs st' ->
  fetched st' =
    fetched st + count is_timer evs + count (falls_back JSON_parse) evs /\
  fetching st' + count is_status evs =
    fetching st + count is_timer evs + count (falls_back JSON_parse) evs.
Proof.
  intros Hid. induction 1 as [st | st ev st1 evs st2 Hstep _ IH].
  - unfold count. simpl. lia.
  - destruct IH as [IHf IHp]. rewrite !count_cons.
    destruct Hstep as [st Hlive | st response Hpend | st mcpEvent Hreg
                      | st details now Hpend | st].
    + destruct (fetchCallStatus_sends JSON_parse callId st Hid) as [Hf Hp].
      simpl. lia.
    + destruct (settled_frame JSON_parse callId response st) as (_ & _ & Hf & _ & Hp).
      simpl. lia.
    + destruct (handleMcpUpdate_frame JSON_parse callId mcpEvent st)
        as (_ & _ & _ & _ & _ & Hp & Hf). simpl. lia.
    + cbn [is_timer is_status].
      destruct (handleMcpUpdate_settled_cases JSON_parse callId details now st)
        as [(mcpData & formatted & -> & Hfm & Hfb & _) | (Hfb & _)].
      * destruct (details_merged_frame mcpData now st formatted Hfm) as (Hf & Hp & _).
        rewrite Hfb. lia.
      * destruct (details_fallback_frame details now st Hid Hfb) as (Hf & Hp & _).
        rewrite Hfb. lia.
    + destruct (cleanup_frame JSON_parse window_blandmcp callId st)
        as (_ & _ & _ & Hp & Hf & _). simpl. lia.
Qed.

Lemma not_live_no_interval (st : hook) :
  intervalLive st = false <-> interval st = None.
Proof. unfold intervalLive. destruct (interval st); split; congruence. Qed.

Lemma steps_no_interval st evs st' :
  steps st evs st' -> interval st = None ->
  interval st' = None /\ count is_timer evs = 0.
Proof.
  induction 1 as [st | st ev st1 evs st2 Hstep _ IH]; intros Hi; [auto |].
  rewrite count_cons.
  assert (Hlive : intervalLive st = false) by (now apply not_live_no_interval).
  assert (H1 : interval st1 = None /\ is_timer ev = false).
  { destruct Hstep as [st Hon | st response Hpend | st mcpEvent Hreg
                      | st details now Hpend | st];
      (split; [apply not_live_no_interval | try reflexivity]).
    - congruence.
    - congruence.
    - now rewrite settled_interval, Hlive.
    - destruct (handleMcpUpdate_frame JSON_parse callId mcpEvent st)
        as (_ & _ & _ & E & _). congruence.
    - destruct (handleMcpUpdate_settled_frame JSON_parse callId details now st)
        as (E & _). congruence.
    - destruct (cleanup_frame JSON_parse window_blandmcp callId st)
        as (_ & _ & _ & _ & _ & _ & E & _). auto. }
  destruct H1 as [H1 ->]. destruct (IH H1) as [-> ->]. auto.
Qed.

Lemma steps_no_details st evs st' :
  steps st evs st' -> listener st = false /\ detailing st = 0 ->
  count is_details evs = 0.
Proof.
  induction 1 as [st | st ev st1 evs st2 Hstep _ IH]; intros Hq; [reflexivity |].
  rewrite count_cons, (IH (step_unsubscribed _ _ _ _ _ _ Hstep Hq)).
  destruct Hq as [Hl Hd].
  destruct Hstep; simpl; try reflexivity. lia.
Qed.

Lemma steps_listener st evs st' :
  callId <> EmptyString ->
  steps st evs st' ->
  listener st' =
  listener st &&
  negb (match window_blandmcp with
        | SomeMcp _ unregisterCallListener => unregisterCallListener
        | NoMcp | FalsyMcp => false
        end && existsb is_unmount evs).
Proof.
  intros Hid. apply String.eqb_neq in Hid.
  induction 1 as [st | st ev st1 evs st2 Hstep _ IH].
  - simpl. now rewrite andb_false_r, andb_true_r.
  - rewrite IH. clear IH.
    destruct Hstep as [st Hlive | st response Hpend | st mcpEvent Hreg
                      | st details now Hpend | st]; cbn [existsb is_unmount orb].
    + destruct (fetchCallStatus_frame JSON_parse callId st)
        as (_ & _ & _ & _ & -> & _).
      reflexivity.
    + destruct (settled_frame JSON_parse callId response st) as (-> & _).
      reflexivity.
    + destruct (handleMcpUpdate_frame JSON_parse callId mcpEvent st)
        as (_ & _ & _ & _ & -> & _). reflexivity.
    + destruct (handleMcpUpdate_settled_frame JSON_parse callId details now st)
        as (_ & -> & _). reflexivity.
    + unfold UseCallStatus.cleanup. rewrite Hid.
      destruct window_blandmcp as [| | reg unreg]; cbn [andb negb].
      * destruct (intervalLive st); simpl; now rewrite andb_true_r.
      * destruct (intervalLive st); simpl; now rewrite andb_true_r.
      * destruct unreg; simpl;
          [now rewrite andb_false_r | now destruct (listener st)].
Qed.

Lemma steps_usingMcp st evs st' :
  steps st evs st' -> usingMcp st' = usingMcp st.
Proof.
  induction 1 as [st | st ev st1 evs st2 Hstep _ IH]; [reflexivity |].
  rewrite IH. clear IH.
  destruct Hstep as [st Hlive | st response Hpend | st mcpEvent Hreg
                    | st details now Hpend | st].
  - now destruct (fetchCallStatus_frame JSON_parse callId st) as (_ & _ & -> & _).
  - now destruct (settled_frame JSON_parse callId response st)
      as (_ & _ & _ & -> & _).
  - now destruct (handleMcpUpdate_frame JSON_parse callId mcpEvent st)
      as (_ & _ & -> & _).
  - now destruct (handleMcpUpdate_settled_frame JSON_parse callId details now st)
      as (_ & _ & ->).
  - now destruct (cleanup_frame JSON_parse window_blandmcp callId st)
      as (_ & _ & -> & _).
Qed.

Lemma step_without_data st ev st' :
  step st ev st' -> brings_data ev = false -> callData st' = callData st.
Proof.
  intros Hstep Hev.
  destruct Hstep as [st Hlive | st response Hpend | st mcpEvent Hreg
                    | st details now Hpend | st].
  - now destruct (fetchCallStatus_frame JSON_parse callId st) as (-> & _).
  - destruct response; [discriminate | apply settled_callData].
  - now destruct (handleMcpUpdate_frame JSON_parse callId mcpEvent st) as (-> & _).
  - destruct details; [discriminate |].
    unfold UseCallStatus.handleMcpUpdate_settled.
    now destruct (fetchCallStatus_frame JSON_parse callId (details_arrived st))
      as (-> & _).
  - now destruct (cleanup_frame JSON_parse window_blandmcp callId st) as (-> & _).
Qed.

Lemma steps_idle st evs st' :
  steps st evs st' ->
  callId = EmptyString ->
  quiet st -> fetching st = 0 ->
  st' = st.
Proof.
  induction 1 as [st | st ev st1 evs st2 Hstep _ IH]; intros Hid Hq Hp;
    [reflexivity |].
  assert (E : st1 = st).
  { destruct Hq as (Hi & Hl & Hd).
    destruct Hstep; try congruence; try lia.
    unfold UseCallStatus.cleanup. subst callId. reflexivity. }
  subst st1. now apply IH.
Qed.

End HookAccounting.

(** ** CallStatus.js: requests and ticks *)

Section ViewAccounting.
Import JS CallStatus Deliveries.

Variable callId : string.

Local Abbreviation steps := (CallStatus.steps callId).

Lemma view_count_cons p ev evs :
  count p (ev :: evs) = (if p ev then 1 else 0) + count p evs.
Proof. unfold count. simpl. now destruct (p ev). Qed.

Lemma view_steps_account st evs st' :
  callId <> EmptyString ->
  steps st evs st' ->
  fetched st' = fetched st + count is_timer evs /\
  fetching st' + count is_status evs = fetching st + count is_timer evs /\
  refreshCount st' = refreshCount st + count is_timer evs.
Proof.
  intros Hid. induction 1 as [st | st ev st1 evs st2 Hstep _ IH].
  - unfold count. simpl. lia.
  - destruct IH as (IHf & IHp & IHr). rewrite !view_count_cons.
    destruct Hstep as [st Hlive | st response Hpend | st]; simpl.
    + destruct (view_tick_sends callId st Hid) as [Hf Hp].
      assert (Hr : refreshCount (tick callId st) = S (refreshCount st)).
      { apply String.eqb_neq in Hid.
        unfold tick, fetchCallStatus. now rewrite Hid. }
      lia.
    + destruct (view_settled_frame response st) as (Hf & Hr & Hp). lia.
    + assert (E : fetched (cleanup st) = fetched st /\
                  fetching (cleanup st) = fetching st /\
                  refreshCount (cleanup st) = refreshCount st)
        by (unfold cleanup; destruct (intervalLive st); simpl; tauto).
      lia.
Qed.

Lemma view_steps_idle st evs st' :
  steps st evs st' ->
  callId = EmptyString ->
  fetching st = 0 ->
  fetched st' = fetched st /\
  callData st' = callData st /\
  refreshCount st' = refreshCount st + count is_timer evs /\
  (existsb is_unmount evs = false -> interval st' = interval st).
Proof.
  induction 1 as [st | st ev st1 evs st2 Hstep _ IH]; intros Hid Hp.
  - unfold count. simpl. repeat split; auto.
  - rewrite view_count_cons.
    assert (H1 : fetching st1 = 0 /\ fetched st1 = fetched st /\
                 callData st1 = callData st /\
                 refreshCount st1 = refreshCount st + (if is_timer ev then 1 else 0) /\
                 (is_unmount ev = false -> interval st1 = interval st)).
    { destruct Hstep as [st Hlive | st response Hpend | st]; simpl.
      - unfold tick, fetchCallStatus. subst callId. simpl.
        repeat split; auto. lia.
      - lia.
      - unfold cleanup. destruct (intervalLive st); simpl;
          repeat split; auto; try lia; discriminate. }
    destruct H1 as (Hp1 & Hf1 & Hc1 & Hr1 & Hi1).
    destruct (IH Hid Hp1) as (Hf & Hc & Hr & Hi).
    repeat split; try congruence; try lia.
    intros Hno. simpl in Hno. apply orb_false_iff in Hno as [Hu Hno].
    rewrite (Hi Hno). now apply Hi1.
Qed.

End ViewAccounting.

Section SynchronizerExtras.
Import JS McpUtils TranscriptRules Samples Deliveries.

(** X11: after a push update with a truthy detail record that
    [formatMcpCallData] normalises, the snapshot's [status] and [call_id]
    are those of the record, [undefined] if the record has none, and
    [duration] and [credits] are found under [duration_seconds] and
    [credits_used]; so the snapshot is terminal afterwards exactly if the
    record is. *)
Theorem X11_push_update_sets_status
    (JSON_parse : string -> option value) (callId now : string)
    (mcpData formatted : value) (st : UseCallStatus.hook) :
  truthy mcpData = true ->
  formatMcpCallData JSON_parse now mcpData = Ret formatted ->
  let snapshot :=
    UseCallStatus.callData
      (UseCallStatus.handleMcpUpdate_settled JSON_parse callId (Some mcpData) now st) in
  get snapshot "status" = get mcpData "status" /\
  get snapshot "call_id" = get mcpData "call_id" /\
  get snapshot "duration_seconds" = get mcpData "duration" /\
  get snapshot "credits_used" = get mcpData "credits" /\
  terminal snapshot = terminal mcpData.
Proof.
  intros Hm Hf snapshot.
  destruct (details_merged_frame JSON_parse callId mcpData now st formatted Hf)
    as (_ & _ & _ & _ & _ & Hsnap).
  destruct (formatMcpCallData_ret JSON_parse now mcpData formatted Hm Hf)
    as (en & evs & _ & -> & _).
  assert (Hread : forall k,
             get snapshot k =
             Ret (default Undefined
                    (match lookup k [("call_id", prop mcpData "call_id");
                                     ("status", prop mcpData "status");
                                     ("duration_seconds", prop mcpData "duration");
                                     ("credits_used", prop mcpData "credits");
                                     ("transcript", Arr en); ("events", Arr evs)] with
                     | Some v => Some v
                     | None => lookup k (own_props (UseCallStatus.callData st))
                     end))).
  { intros k. unfold snapshot. rewrite Hsnap.
    pose proof (lookup_spread2 k (UseCallStatus.callData st)
                  (Obj [("call_id", prop mcpData "call_id");
                        ("status", prop mcpData "status");
                        ("duration_seconds", prop mcpData "duration");
                        ("credits_used", prop mcpData "credits");
                        ("transcript", Arr en); ("events", Arr evs)])) as E.
    simpl in E. simpl. now rewrite E. }
  rewrite !(get_prop mcpData) by exact Hm.
  assert (H1 : get snapshot "status" = Ret (prop mcpData "status"))
    by (rewrite Hread; reflexivity).
  repeat split.
  - exact H1.
  - rewrite Hread. reflexivity.
  - rewrite Hread. reflexivity.
  - rewrite Hread. reflexivity.
  - unfold terminal. now rewrite H1, (get_prop mcpData) by exact Hm.
Qed.

Lemma X11_push_update_sets_status_witness :
  get (UseCallStatus.callData
         (UseCallStatus.handleMcpUpdate_settled Json.parse "c1"
            (Some (Obj [("call_id", Str "c1"); ("duration", Num 42)])) clock1
            (UseCallStatus.setCallData (served "completed")
               (UseCallStatus.initial Undefined)))) "status" = Ret Undefined /\
  terminal
    (UseCallStatus.callData
       (UseCallStatus.handleMcpUpdate_settled Json.parse "c1"
          (Some (Obj [("call_id", Str "c1"); ("duration", Num 42)])) clock1
          (UseCallStatus.setCallData (served "completed")
             (UseCallStatus.initial Undefined)))) = false.
Proof.
  destruct (X11_push_update_sets_status Json.parse "c1" clock1
              (Obj [("call_id", Str "c1"); ("duration", Num 42)])
              (Obj [("call_id", Str "c1"); ("status", Undefined);
                    ("duration_seconds", Num 42); ("credits_used", Undefined);
                    ("transcript", Arr []); ("events", Arr [])])
              (UseCallStatus.setCallData (served "completed")
                 (UseCallStatus.initial Undefined)) eq_refl eq_refl)
    as (Hs & _ & _ & _ & Ht).
  split; [exact Hs | exact Ht].
Defined.

(** X12: when a detail request makes the hook ask the backend. A
    fulfilled request whose record [formatMcpCallData] normalises is merged
    and clears the error, and no status request is sent. A request that is
    rejected, and a fulfilled one on whose record [formatMcpCallData]
    throws, send exactly one status request and leave snapshot and error as
    they are. The normaliser throws on a record exactly if the record is
    truthy, its completed event is due (status ['completed'] or an
    [end_time]) and [duration || 0] cannot be converted to a string. *)
Theorem X12_fallback_on_failure
    (JSON_parse : string -> option value) (callId now : string)
    (st : UseCallStatus.hook) :
  callId <> EmptyString ->
  (forall mcpData formatted,
     formatMcpCallData JSON_parse now mcpData = Ret formatted ->
     let st' := UseCallStatus.handleMcpUpdate_settled JSON_parse callId
                  (Some mcpData) now st in
     UseCallStatus.fetched st' = UseCallStatus.fetched st /\
     UseCallStatus.fetching st' = UseCallStatus.fetching st /\
     UseCallStatus.error st' = None /\
     UseCallStatus.callData st' = spread2 (UseCallStatus.callData st) formatted) /\
  (forall details,
     falls_back JSON_parse (DetailsSettle details now) = true ->
     let st' := UseCallStatus.handleMcpUpdate_settled JSON_parse callId
                  details now st in
     UseCallStatus.fetched st' = S (UseCallStatus.fetched st) /\
     UseCallStatus.fetching st' = S (UseCallStatus.fetching st) /\
     UseCallStatus.callData st' = UseCallStatus.callData st /\
     UseCallStatus.error st' = UseCallStatus.error st) /\
  (forall mcpData,
     falls_back JSON_parse (DetailsSettle (Some mcpData) now) = true <->
     truthy mcpData = true /\
     Timeline.completed_due mcpData = true /\
     to_string (Timeline.duration_or_zero mcpData) = Throw) /\
  falls_back JSON_parse (DetailsSettle None now) = true.
Proof.
  intros Hid. split; [| split; [| split]].
  - intros mcpData formatted Hf st'.
    destruct (details_merged_frame JSON_parse callId mcpData now st formatted Hf)
      as (Hfd & Hp & _ & _ & He & Hc).
    auto.
  - intros details Hfb st'.
    destruct (details_fallback_frame JSON_parse callId details now st Hid Hfb)
      as (Hfd & Hp & _ & _ & Hc & He).
    auto.
  - intros mcpData. simpl.
    destruct (formatMcpCallData JSON_parse now mcpData) as [formatted |] eqn:Hf.
    + split; [discriminate |]. intros (Hm & Hdue & Hts).
      assert (E : formatMcpCallData JSON_parse now mcpData = Throw).
      { apply formatMcpCallData_throws. split; [exact Hm |].
        apply generateEventsFromMcp_throws; auto. }
      rewrite E in Hf. discriminate Hf.
    + split; [| reflexivity]. intros _.
      apply formatMcpCallData_throws in Hf as [Hm Hgen].
      apply generateEventsFromMcp_throws in Hgen; [| exact Hm].
      tauto.
  - reflexivity.
Qed.

Lemma X12_fallback_on_failure_witness :
  UseCallStatus.fetched
    (UseCallStatus.handleMcpUpdate_settled Json.parse "c1" (Some (Num 7)) clock1
       (UseCallStatus.mount (SomeMcp true true) "c1" (UseCallStatus.initial Undefined))) = 0 /\
  UseCallStatus.fetched
    (UseCallStatus.handleMcpUpdate_settled Json.parse "c1" None clock1
       (UseCallStatus.mount (SomeMcp true true) "c1" (UseCallStatus.initial Undefined))) = 1 /\
  UseCallStatus.fetched
    (UseCallStatus.handleMcpUpdate_settled Json.parse "c1"
       (Some unprintable_record) clock1
       (UseCallStatus.mount (SomeMcp true true) "c1" (UseCallStatus.initial Undefined))) = 1.
Proof.
  assert (Hid : "c1" <> EmptyString) by discriminate.
  destruct (X12_fallback_on_failure Json.parse "c1" clock1
              (UseCallStatus.mount (SomeMcp true true) "c1"
                 (UseCallStatus.initial Undefined)) Hid)
    as (Hok & Hfb & Hiff & _).
  split; [| split].
  - destruct (Hok (Num 7)
                (Obj [("call_id", Undefined); ("status", Undefined);
                      ("duration_seconds", Undefined); ("credits_used", Undefined);
                      ("transcript", Arr []); ("events", Arr [])]) eq_refl)
      as (H & _).
    exact H.
  - destruct (Hfb None eq_refl) as (H & _). exact H.
  - assert (Hbad : falls_back Json.parse
                     (DetailsSettle (Some unprintable_record) clock1) = true).
    { apply Hiff. repeat split. }
    destruct (Hfb (Some unprintable_record) Hbad) as (H & _). exact H.
Defined.

(** X13: with a falsy [callId] the hook does nothing: the effect sets
    nothing up, nothing can be delivered but the unmounting, and the state
    stays the initial one. *)
Theorem X13_no_call_no_acquisition
    (JSON_parse : string -> option value) (w : blandmcp)
    (initialData : value) (evs : list event) (st' : UseCallStatus.hook) :
  UseCallStatus.steps JSON_parse w EmptyString
    (UseCallStatus.mount w EmptyString (UseCallStatus.initial initialData)) evs st' ->
  st' = UseCallStatus.initial initialData.
Proof.
  intros Hrun.
  apply (steps_idle JSON_parse w EmptyString _ _ _ Hrun); try reflexivity.
  repeat split.
Qed.

Lemma X13_no_call_no_acquisition_witness :
  UseCallStatus.cleanup (SomeMcp true true) EmptyString
    (UseCallStatus.mount (SomeMcp true true) EmptyString
       (UseCallStatus.initial (served "queued"))) =
  UseCallStatus.initial (served "queued").
Proof.
  apply (X13_no_call_no_acquisition Json.parse (SomeMcp true true)
           (served "queued") [Unmounts]).
  apply run_steps. reflexivity.
Defined.

(** X14: the requests of the hook add up. In a run from the mounting, the
    number of status requests sent is one for the first fetch where the
    hook does not subscribe, plus one per timer delivery, plus one per
    detail request that falls back (it is rejected, or [formatMcpCallData]
    throws on its record); each is pending until its response is
    delivered. Where the hook subscribes there is never an interval and no
    timer delivery; where it does not, there is no detail request. *)
Theorem X14_requests_add_up
    (JSON_parse : string -> option value) (w : blandmcp) (callId : string)
    (initialData : value) (evs : list event) (st' : UseCallStatus.hook) :
  callId <> EmptyString ->
  UseCallStatus.steps JSON_parse w callId
    (UseCallStatus.mount w callId (UseCallStatus.initial initialData)) evs st' ->
  UseCallStatus.fetched st' =
    (if push_mode w then 0 else 1) + count is_timer evs +
    count (falls_back JSON_parse) evs /\
  UseCallStatus.fetching st' + count is_status evs = UseCallStatus.fetched st' /\
  (push_mode w = true ->
   UseCallStatus.interval st' = None /\ count is_timer evs = 0) /\
  (push_mode w = false -> count is_details evs = 0).
Proof.
  intros Hid Hrun.
  destruct (steps_account JSON_parse w callId _ _ _ Hid Hrun) as [Hf Hp].
  assert (Hmount :
            UseCallStatus.fetched
              (UseCallStatus.mount w callId (UseCallStatus.initial initialData)) =
              (if push_mode w then 0 else 1) /\
            UseCallStatus.fetching
              (UseCallStatus.mount w callId (UseCallStatus.initial initialData)) =
              (if push_mode w then 0 else 1) /\
            (push_mode w = true ->
             UseCallStatus.interval
               (UseCallStatus.mount w callId (UseCallStatus.initial initialData)) = None)).
  { apply String.eqb_neq in Hid.
    unfold UseCallStatus.mount, UseCallStatus.fetchCallStatus,
      UseCallStatus.handleMcpUpdate. rewrite Hid.
    destruct w as [| | [|] unreg]; simpl; rewrite ?String.eqb_refl; simpl;
      repeat split; try discriminate. }
  destruct Hmount as (Hf0 & Hp0 & Hi0).
  rewrite Hf0 in Hf. rewrite Hp0 in Hp.
  split; [exact Hf |]. split; [lia |]. split.
  - intros Hpush. exact (steps_no_interval JSON_parse w callId _ _ _ Hrun (Hi0 Hpush)).
  - intros Hpoll.
    exact (steps_no_details JSON_parse w callId _ _ _ Hrun
             (mount_poll_unsubscribed w callId initialData Hpoll)).
Qed.

Lemma X14_requests_add_up_witness :
  (exists st',
     UseCallStatus.steps Json.parse NoMcp "c1"
       (UseCallStatus.mount NoMcp "c1" (UseCallStatus.initial Undefined))
       [TimerFires; StatusSettles None; TimerFires] st' /\
     UseCallStatus.fetched st' = 3 /\
     UseCallStatus.fetching st' = 2) /\
  (exists st',
     UseCallStatus.steps Json.parse (SomeMcp true true) "c1"
       (UseCallStatus.mount (SomeMcp true true) "c1" (UseCallStatus.initial Undefined))
       [DetailsSettle (Some unprintable_record) clock1; StatusSettles None] st' /\
     UseCallStatus.fetched st' = 1 /\
     UseCallStatus.fetching st' = 0).
Proof.
  assert (Hid : "c1" <> EmptyString) by discriminate.
  split.
  - assert (Hrun : UseCallStatus.steps Json.parse NoMcp "c1"
                     (UseCallStatus.mount NoMcp "c1" (UseCallStatus.initial Undefined))
                     [TimerFires; StatusSettles None; TimerFires]
                     (UseCallStatus.fetchCallStatus "c1"
                        (UseCallStatus.fetchCallStatus_settled None
                           (UseCallStatus.fetchCallStatus "c1"
                              (UseCallStatus.mount NoMcp "c1"
                                 (UseCallStatus.initial Undefined))))))
      by (apply run_steps; reflexivity).
    destruct (X14_requests_add_up Json.parse NoMcp "c1" Undefined _ _ Hid Hrun)
      as (Hf & _).
    eexists. split; [exact Hrun |]. split; [exact Hf | reflexivity].
  - assert (Hrun : UseCallStatus.steps Json.parse (SomeMcp true true) "c1"
                     (UseCallStatus.mount (SomeMcp true true) "c1"
                        (UseCallStatus.initial Undefined))
                     [DetailsSettle (Some unprintable_record) clock1; StatusSettles None]
                     (UseCallStatus.fetchCallStatus_settled None
                        (UseCallStatus.handleMcpUpdate_settled Json.parse "c1"
                           (Some unprintable_record) clock1
                           (UseCallStatus.mount (SomeMcp true true) "c1"
                              (UseCallStatus.initial Undefined)))))
      by (apply run_steps; reflexivity).
    destruct (X14_requests_add_up Json.parse (SomeMcp true true) "c1" Undefined
                _ _ Hid Hrun) as (Hf & _).
    eexists. split; [exact Hrun |]. split; [exact Hf | reflexivity].
Defined.

(** X16: where the hook subscribed, the listener is registered until the
    unmounting, and after it only if [window.blandmcp] has no
    [unregisterCallListener]: then it stays registered for good, and a
    callback of the push source is still served. *)
Theorem X16_listener_until_unmount
    (JSON_parse : string -> option value) (callId : string)
    (unregisterCallListener : bool) (initialData : value)
    (evs : list event) (st' : UseCallStatus.hook) :
  callId <> EmptyString ->
  UseCallStatus.steps JSON_parse (SomeMcp true unregisterCallListener) callId
    (UseCallStatus.mount (SomeMcp true unregisterCallListener) callId
       (UseCallStatus.initial initialData)) evs st' ->
  UseCallStatus.listener st' =
    negb (unregisterCallListener && existsb is_unmount evs) /\
  (unregisterCallListener = false ->
   forall mcpEvent,
     UseCallStatus.step JSON_parse (SomeMcp true unregisterCallListener) callId
       st' (McpCalls mcpEvent) (UseCallStatus.handleMcpUpdate callId mcpEvent st')).
Proof.
  intros Hid Hrun.
  pose proof (steps_listener JSON_parse _ callId _ _ _ Hid Hrun) as Hl.
  assert (H0 : UseCallStatus.listener
                 (UseCallStatus.mount (SomeMcp true unregisterCallListener) callId
                    (UseCallStatus.initial initialData)) = true).
  { apply String.eqb_neq in Hid.
    unfold UseCallStatus.mount, UseCallStatus.handleMcpUpdate. rewrite Hid.
    simpl. now rewrite String.eqb_refl. }
  rewrite H0 in Hl. simpl in Hl. split; [exact Hl |].
  intros -> mcpEvent. constructor. exact Hl.
Qed.

Lemma X16_listener_until_unmount_witness :
  exists st',
    UseCallStatus.steps Json.parse (SomeMcp true false) "c1"
      (UseCallStatus.mount (SomeMcp true false) "c1" (UseCallStatus.initial Undefined))
      [Unmounts] st' /\
    UseCallStatus.listener st' = true.
Proof.
  assert (Hid : "c1" <> EmptyString) by discriminate.
  assert (Hrun : UseCallStatus.steps Json.parse (SomeMcp true false) "c1"
                   (UseCallStatus.mount (SomeMcp true false) "c1"
                      (UseCallStatus.initial Undefined))
                   [Unmounts]
                   (UseCallStatus.cleanup (SomeMcp true false) "c1"
                      (UseCallStatus.mount (SomeMcp true false) "c1"
                         (UseCallStatus.initial Undefined))))
    by (apply run_steps; reflexivity).
  destruct (X16_listener_until_unmount Json.parse "c1" false Undefined _ _ Hid Hrun)
    as (Hl & _).
  eexists. split; [exact Hrun | exact Hl].
Defined.

(** X17: the refresh method reads and writes the snapshot but never the
    acquisition: interval, listener and the requests of [fetchCallStatus]
    are as before. A refresh that brings a terminal status replaces the
    snapshot and clears the error, yet the interval stays live and the next
    timer delivery sends one more request; a refresh that fails keeps the
    snapshot, sets ['Failed to refresh call status'] and rethrows. *)
Theorem X17_refresh_leaves_acquisition
    (JSON_parse : string -> option value) (w : blandmcp) (callId : string)
    (st : UseCallStatus.hook) :
  (forall response,
     let st' := fst (Refresh.refresh_settled response (Refresh.refresh st)) in
     UseCallStatus.interval st' = UseCallStatus.interval st /\
     UseCallStatus.listener st' = UseCallStatus.listener st /\
     UseCallStatus.fetched st' = UseCallStatus.fetched st /\
     UseCallStatus.fetching st' = UseCallStatus.fetching st /\
     UseCallStatus.loading st' = false) /\
  (forall data,
     let st' := fst (Refresh.refresh_settled (Some data) (Refresh.refresh st)) in
     UseCallStatus.callData st' = data /\
     UseCallStatus.error st' = None /\
     snd (Refresh.refresh_settled (Some data) (Refresh.refresh st)) = Ret data /\
     (UseCallStatus.intervalLive st = true -> terminal data = true ->
      UseCallStatus.intervalLive
        (UseCallStatus.fetchCallStatus_settled (Some data) st) = false /\
      UseCallStatus.step JSON_parse w callId st' TimerFires
        (UseCallStatus.fetchCallStatus callId st'))) /\
  (let st' := fst (Refresh.refresh_settled None (Refresh.refresh st)) in
   UseCallStatus.callData st' = UseCallStatus.callData st /\
   UseCallStatus.error st' = Some "Failed to refresh call status" /\
   snd (Refresh.refresh_settled None (Refresh.refresh st)) = Throw).
Proof.
  split; [| split].
  - intros [data |]; simpl; tauto.
  - intros data. simpl. repeat split.
    + rewrite settled_interval, H0. apply andb_false_r.
    + constructor. exact H.
  - simpl. tauto.
Qed.

Lemma X17_refresh_leaves_acquisition_witness :
  UseCallStatus.interval
    (fst (Refresh.refresh_settled (Some (served "completed"))
            (Refresh.refresh
               (UseCallStatus.mount NoMcp "c1" (UseCallStatus.initial Undefined))))) =
    Some 3000 /\
  UseCallStatus.step Json.parse NoMcp "c1"
    (fst (Refresh.refresh_settled (Some (served "completed"))
            (Refresh.refresh
               (UseCallStatus.mount NoMcp "c1" (UseCallStatus.initial Undefined)))))
    TimerFires
    (UseCallStatus.fetchCallStatus "c1"
       (fst (Refresh.refresh_settled (Some (served "completed"))
               (Refresh.refresh
                  (UseCallStatus.mount NoMcp "c1" (UseCallStatus.initial Undefined)))))).
Proof.
  destruct (X17_refresh_leaves_acquisition Json.parse NoMcp "c1"
              (UseCallStatus.mount NoMcp "c1" (UseCallStatus.initial Undefined)))
    as (Hframe & Hok & _).
  split.
  - destruct (Hframe (Some (served "completed"))) as (-> & _). reflexivity.
  - destruct (Hok (served "completed")) as (_ & _ & _ & Hlive).
    destruct Hlive as [_ Hstep]; [reflexivity | reflexivity | exact Hstep].
Defined.

(** X18: in the hook, the error of a poll follows the last response. A
    response whose body is a value other than [null] and [undefined]
    becomes the snapshot and clears the error; a body of [null] or
    [undefined] becomes the snapshot too, but reading its [status] throws
    inside the [try], so it is reported like a failed fetch and stops no
    interval: with the interval live, the next timer delivery sends one
    more request. *)
Theorem X18_error_follows_response
    (JSON_parse : string -> option value) (w : blandmcp) (callId : string)
    (data : value) (st : UseCallStatus.hook) :
  let st' := UseCallStatus.fetchCallStatus_settled (Some data) st in
  UseCallStatus.callData st' = data /\
  UseCallStatus.error st' =
    (if nullish data then Some "Unable to fetch call status" else None) /\
  (nullish data = true ->
   UseCallStatus.interval st' = UseCallStatus.interval st /\
   (UseCallStatus.intervalLive st = true ->
    UseCallStatus.step JSON_parse w callId st' TimerFires
      (UseCallStatus.fetchCallStatus callId st'))).
Proof.
  intros st'. split; [apply settled_callData |]. split.
  - unfold st', UseCallStatus.fetchCallStatus_settled.
    destruct data; simpl; try reflexivity;
      repeat match goal with
             | |- context [if ?c then _ else _] => destruct c; simpl
             end; reflexivity.
  - intros Hn.
    assert (Hi : UseCallStatus.interval st' = UseCallStatus.interval st)
      by (unfold st'; destruct data; try discriminate Hn; reflexivity).
    split; [exact Hi |].
    intros Hlive. constructor.
    unfold UseCallStatus.intervalLive in *. now rewrite Hi.
Qed.

Lemma X18_error_follows_response_witness :
  UseCallStatus.error
    (UseCallStatus.fetchCallStatus_settled (Some Null)
       (UseCallStatus.mount NoMcp "c1" (UseCallStatus.initial Undefined))) =
    Some "Unable to fetch call status" /\
  UseCallStatus.interval
    (UseCallStatus.fetchCallStatus_settled (Some Null)
       (UseCallStatus.mount NoMcp "c1" (UseCallStatus.initial Undefined))) =
    Some 3000 /\
  UseCallStatus.step Json.parse NoMcp "c1"
    (UseCallStatus.fetchCallStatus_settled (Some Null)
       (UseCallStatus.mount NoMcp "c1" (UseCallStatus.initial Undefined)))
    TimerFires
    (UseCallStatus.fetchCallStatus "c1"
       (UseCallStatus.fetchCallStatus_settled (Some Null)
          (UseCallStatus.mount NoMcp "c1" (UseCallStatus.initial Undefined)))).
Proof.
  destruct (X18_error_follows_response Json.parse NoMcp "c1" Null
              (UseCallStatus.mount NoMcp "c1" (UseCallStatus.initial Undefined)))
    as (_ & He & Hnull).
  destruct (Hnull eq_refl) as (Hi & Hstep).
  split; [exact He |]. split; [exact Hi |]. apply Hstep. reflexivity.
Defined.

(** X19: the component without [callId] keeps its timer and sends
    nothing. In a run from the mounting with a falsy [callId], no request
    is ever sent and the snapshot stays the initial one, while every timer
    delivery still counts up [refreshCount]; short of unmounting, the
    interval of 3000 ms is never cleared. *)
Theorem X19_component_without_call
    (initialData : value) (evs : list event) (st' : CallStatus.view) :
  CallStatus.steps EmptyString
    (CallStatus.mount EmptyString (CallStatus.initial initialData)) evs st' ->
  CallStatus.fetched st' = 0 /\
  CallStatus.callData st' = CallStatus.callData (CallStatus.initial initialData) /\
  CallStatus.refreshCount st' = count is_timer evs /\
  (existsb is_unmount evs = false -> CallStatus.interval st' = Some 3000).
Proof.
  intros Hrun.
  destruct (view_steps_idle EmptyString _ _ _ Hrun eq_refl eq_refl)
    as (Hf & Hc & Hr & Hi).
  split; [exact Hf |]. split; [exact Hc |]. split; [exact Hr |].
  intros Hno. now rewrite (Hi Hno).
Qed.

Lemma X19_component_without_call_witness :
  exists st',
    CallStatus.steps EmptyString
      (CallStatus.mount EmptyString (CallStatus.initial (served "queued")))
      [TimerFires; TimerFires] st' /\
    CallStatus.fetched st' = 0 /\
    CallStatus.refreshCount st' = 2 /\
    CallStatus.interval st' = Some 3000.
Proof.
  assert (Hrun : CallStatus.steps EmptyString
                   (CallStatus.mount EmptyString (CallStatus.initial (served "queued")))
                   [TimerFires; TimerFires]
                   (CallStatus.tick EmptyString
                      (CallStatus.tick EmptyString
                         (CallStatus.mount EmptyString
                            (CallStatus.initial (served "queued"))))))
    by (apply view_run_steps; reflexivity).
  destruct (X19_component_without_call (served "queued") _ _ Hrun)
    as (Hf & _ & Hr & Hi).
  eexists. split; [exact Hrun |]. split; [exact Hf |].
  split; [exact Hr | apply Hi; reflexivity].
Defined.

(** X20: in a run of the component with a [callId], the requests sent are
    the first fetch and one per timer delivery, each pending until its
    response is delivered, and [refreshCount] is the number of timer
    deliveries: it counts on whether or not a response came in between. *)
Theorem X20_component_requests_add_up
    (callId : string) (initialData : value)
    (evs : list event) (st' : CallStatus.view) :
  callId <> EmptyString ->
  CallStatus.steps callId
    (CallStatus.mount callId (CallStatus.initial initialData)) evs st' ->
  CallStatus.fetched st' = 1 + count is_timer evs /\
  CallStatus.fetching st' + count is_status evs = CallStatus.fetched st' /\
  CallStatus.refreshCount st' = count is_timer evs.
Proof.
  intros Hid Hrun.
  destruct (view_steps_account callId _ _ _ Hid Hrun) as (Hf & Hp & Hr).
  apply String.eqb_neq in Hid.
  unfold CallStatus.mount, CallStatus.fetchCallStatus in Hf, Hp, Hr.
  rewrite Hid in Hf, Hp, Hr. simpl in Hf, Hp, Hr. lia.
Qed.

Lemma X20_component_requests_add_up_witness :
  exists st',
    CallStatus.steps "c1"
      (CallStatus.mount "c1" (CallStatus.initial Undefined))
      [StatusSettles (Some (served "queued")); TimerFires] st' /\
    CallStatus.fetched st' = 2 /\
    CallStatus.refreshCount st' = 1.
Proof.
  assert (Hid : "c1" <> EmptyString) by discriminate.
  assert (Hrun : CallStatus.steps "c1"
                   (CallStatus.mount "c1" (CallStatus.initial Undefined))
                   [StatusSettles (Some (served "queued")); TimerFires]
                   (CallStatus.tick "c1"
                      (CallStatus.fetchCallStatus_settled (Some (served "queued"))
                         (CallStatus.mount "c1" (CallStatus.initial Undefined)))))
    by (apply view_run_steps; reflexivity).
  destruct (X20_component_requests_add_up "c1" Undefined _ _ Hid Hrun)
    as (Hf & _ & Hr).
  eexists. split; [exact Hrun |]. split; [exact Hf | exact Hr].
Defined.

End SynchronizerExtras.

(** ** CallStatus.js: the duration *)

Section DurationExtras.
Import CallStatusView.

Lemma padded_two_digits (r : Z) :
  (0 <= r < 60)%Z -> padStart0 2 (JS.decimal r) = two_digits r.
Proof.
  intros Hr.
  assert (Hall : padded_below_60 = true) by (vm_compute; reflexivity).
  unfold padded_below_60 in Hall. rewrite forallb_forall in Hall.
  specialize (Hall (Z.to_nat r)).
  rewrite Z2Nat.id in Hall by lia.
  apply String.eqb_eq, Hall, in_seq. lia.
Qed.

(** X21: a duration of a whole, non-negative number of seconds within the
    safe range is shown as the minutes, a colon, and the seconds left as
    exactly two digits: the minutes are the seconds divided by 60, with no
    hour part, and the two digits are those of the remainder. *)
Theorem X21_minutes_and_two_digits (seconds : Z) :
  (0 <= seconds < safe_bound)%Z ->
  formatDuration seconds =
  JS.decimal (seconds / 60) +:+ ":" +:+ two_digits (seconds mod 60).
Proof.
  intros [Hs _]. unfold formatDuration.
  destruct (seconds =? 0)%Z eqn:E.
  - apply Z.eqb_eq in E. subst seconds. reflexivity.
  - rewrite Z.rem_mod_nonneg by lia.
    rewrite padded_two_digits; [reflexivity |].
    apply Z.mod_pos_bound. lia.
Qed.

Lemma X21_minutes_and_two_digits_witness :
  formatDuration 3725 = "62:05" /\ formatDuration 59 = "0:59".
Proof.
  split.
  - rewrite X21_minutes_and_two_digits by (unfold safe_bound; lia). reflexivity.
  - rewrite X21_minutes_and_two_digits by (unfold safe_bound; lia). reflexivity.
Defined.

End DurationExtras.

(** ** The synchronizer: what never changes *)

Section SnapshotExtras.
Import JS McpUtils Samples Deliveries.

(** X15: the push indicator is set by the mounting and by nothing else:
    in every run it is [true] exactly where [window.blandmcp] has a
    [registerCallListener] or is there but falsy, whatever fails or falls
    back to the backend afterwards. *)
Theorem X15_indicator_fixed_at_mount
    (JSON_parse : string -> option value) (w : blandmcp) (callId : string)
    (initialData : value) (evs : list event) (st' : UseCallStatus.hook) :
  callId <> EmptyString ->
  UseCallStatus.steps JSON_parse w callId
    (UseCallStatus.mount w callId (UseCallStatus.initial initialData)) evs st' ->
  UseCallStatus.usingMcp st' =
  match w with
  | NoMcp => false
  | FalsyMcp => true
  | SomeMcp registerCallListener _ => registerCallListener
  end.
Proof.
  intros Hid Hrun.
  rewrite (steps_usingMcp JSON_parse w callId _ _ _ Hrun).
  apply String.eqb_neq in Hid.
  unfold UseCallStatus.mount, UseCallStatus.fetchCallStatus,
    UseCallStatus.handleMcpUpdate. rewrite Hid.
  destruct w as [| | [|] unreg]; simpl; rewrite ?String.eqb_refl; reflexivity.
Qed.

Lemma X15_indicator_fixed_at_mount_witness :
  exists st',
    UseCallStatus.steps Json.parse (SomeMcp true true) "c1"
      (UseCallStatus.mount (SomeMcp true true) "c1" (UseCallStatus.initial Undefined))
      [DetailsSettle None clock1; StatusSettles (Some (served "queued"))] st' /\
    UseCallStatus.usingMcp st' = true /\
    UseCallStatus.fetched st' = 1.
Proof.
  assert (Hid : "c1" <> EmptyString) by discriminate.
  assert (Hrun : UseCallStatus.steps Json.parse (SomeMcp true true) "c1"
                   (UseCallStatus.mount (SomeMcp true true) "c1"
                      (UseCallStatus.initial Undefined))
                   [DetailsSettle None clock1; StatusSettles (Some (served "queued"))]
                   (UseCallStatus.fetchCallStatus_settled (Some (served "queued"))
                      (UseCallStatus.handleMcpUpdate_settled Json.parse "c1" None clock1
                         (UseCallStatus.mount (SomeMcp true true) "c1"
                            (UseCallStatus.initial Undefined)))))
    by (apply run_steps; reflexivity).
  pose proof (X15_indicator_fixed_at_mount Json.parse (SomeMcp true true) "c1"
                Undefined _ _ Hid Hrun) as Hu.
  eexists. split; [exact Hrun |]. split; [exact Hu | reflexivity].
Defined.

(** X22: the snapshot changes only with data. In the hook and in the
    component, a timer delivery, a callback of the push source, a rejected
    request and the unmounting all leave the snapshot as it is; only a
    fulfilled status or detail request writes it. *)
Theorem X22_snapshot_changes_only_with_data :
  (forall JSON_parse w callId st ev st',
     UseCallStatus.step JSON_parse w callId st ev st' ->
     brings_data ev = false ->
     UseCallStatus.callData st' = UseCallStatus.callData st) /\
  (forall callId st ev st',
     CallStatus.step callId st ev st' ->
     brings_data ev = false ->
     CallStatus.callData st' = CallStatus.callData st).
Proof.
  split.
  - intros JSON_parse w callId st ev st'. apply step_without_data.
  - intros callId st ev st' Hstep Hev.
    destruct Hstep as [st Hlive | st response Hpend | st].
    + now destruct (view_tick_frame callId st) as (-> & _).
    + destruct response; [discriminate | apply view_settled_callData].
    + unfold CallStatus.cleanup. now destruct (CallStatus.intervalLive st).
Qed.

Lemma X22_snapshot_changes_only_with_data_witness :
  UseCallStatus.callData
    (UseCallStatus.fetchCallStatus_settled None
       (UseCallStatus.setCallData (served "in_progress")
          (UseCallStatus.mount NoMcp "c1" (UseCallStatus.initial Undefined)))) =
  served "in_progress".
Proof.
  apply (proj1 X22_snapshot_changes_only_with_data Json.parse NoMcp "c1"
           (UseCallStatus.setCallData (served "in_progress")
              (UseCallStatus.mount NoMcp "c1" (UseCallStatus.initial Undefined)))
           (StatusSettles None)).
  - constructor. simpl. lia.
  - reflexivity.
Defined.

End SnapshotExtras.
